(** * nom -- Network Object Mirroring: codec, packets and service

    A shallow embedding of the Python 2 sources [serialize.py], [packet.py]
    and [service.py], the properties of them that the specification
    states, and further properties of the code.

    Conventions.
    - A byte string ([str]) and the contents of a stream are [list byte].
    - A Python integer is a [Z]; fixed-width packing writes its wrap-around
      and range check out.
    - Code that may raise returns a [Result]; the exception is a [PyExc].
    - A stream being read is the list of the bytes still unread: a reader
      takes it and returns the value read with the rest.
    - A stream being written is the list of the bytes written so far: a
      writer returns the bytes it appends. *)

From Stdlib Require Import ZArith List Lia Bool Ascii String.
From Stdlib Require Import DecimalZ DecimalPos.
From Stdlib.Strings Require Import Byte.
From stdpp Require Import base option list sorting gmap strings.

Local Open Scope Z_scope.

(* ================================================================== *)
(** * The host runtime (Python 2 builtins the sources call)            *)
(* ================================================================== *)

Module Host.

(** Exceptions, by class, with the message where the sources give one.
    [HostError cls] is an exception of another class [cls] derived from
    [Exception], which a text codec or a constructor of the host may
    raise.  The last two are no exceptions of Python: [OutOfFuel] is of the
    bound on the nesting of [Deserialize_fuel], and [LocalObject] says that
    the reader of a service has met a handle, an object no value of the
    codec stands for. *)
Inductive PyExc : Type :=
| StructError
| TypeError
| ValueError (msg : string)
| KeyError
| NameError (msg : string)
| AttributeError (msg : string)
| RuntimeError (msg : string)
| NotImplementedError
| UnicodeDecodeError
| HostError (cls : string)
| OutOfFuel
| LocalObject.

(** What a call gives: the value it returns, or the exception it raises. *)
Inductive Result (A : Type) : Type :=
| Ok (a : A)
| Raise (e : PyExc).
Arguments Ok {A} a.
Arguments Raise {A} e.

Definition bind {A B} (m : Result A) (k : A -> Result B) : Result B :=
  match m with
  | Ok a => k a
  | Raise e => Raise e
  end.

(** The call returned. *)
Definition is_Ok {A} (m : Result A) : bool :=
  match m with Ok _ => true | Raise _ => false end.

(** ** Bytes *)

Definition bytes := list byte.

#[global] Instance byte_eq_decision : EqDecision byte := Byte.byte_eq_dec.

Definition b (s : string) : bytes := list_byte_of_string s.

Definition Z_of_byte (x : byte) : Z := Z.of_N (Byte.to_N x).

Definition byte_of_Z (z : Z) : byte :=
  match Byte.of_N (Z.to_N (z mod 256)) with
  | Some x => x
  | None => x00
  end.

(** Big-endian, [n] bytes, of the low [8 * n] bits of [u]. *)
Fixpoint be_encode (n : nat) (u : Z) : bytes :=
  match n with
  | O => []
  | S n' => byte_of_Z (u / 256 ^ Z.of_nat n') :: be_encode n' u
  end.

Definition be_decode (bs : bytes) : Z :=
  fold_left (fun acc x => acc * 256 + Z_of_byte x) bs 0.

(** ** [struct.pack] / [struct.unpack], formats [!l], [!B], [!d] *)

Definition struct_pack_l (n : Z) : Result bytes :=
  if (- 2 ^ 31 <=? n) && (n <? 2 ^ 31)
  then Ok (be_encode 4 (n mod 2 ^ 32))
  else Raise StructError.

Definition struct_unpack_l (bs : bytes) : Result Z :=
  if (length bs =? 4)%nat
  then let u := be_decode bs in
       Ok (if u <? 2 ^ 31 then u else u - 2 ^ 32)
  else Raise StructError.

Definition struct_pack_B (n : Z) : Result bytes :=
  if (0 <=? n) && (n <? 256)
  then Ok (be_encode 1 n)
  else Raise StructError.

Definition struct_unpack_B (bs : bytes) : Result Z :=
  if (length bs =? 1)%nat then Ok (be_decode bs) else Raise StructError.

(** A float is its IEEE-754 binary64 bit pattern: [!d] writes the eight
    bytes of the pattern, most significant first. *)
Definition struct_pack_d (bits : Z) : bytes := be_encode 8 (bits mod 2 ^ 64).

Definition struct_unpack_d (bs : bytes) : Result Z :=
  if (length bs =? 8)%nat then Ok (be_decode bs) else Raise StructError.

(** ** [fin.read(n)]: up to [n] bytes, all that is left when [n < 0]. *)
Definition read (n : Z) (fin : bytes) : bytes * bytes :=
  if n <? 0 then (fin, [])
  else (take (Z.to_nat n) fin, drop (Z.to_nat n) fin).

(** ** [str(n)] and [long(s)] for a long [n] *)

Fixpoint bytes_of_uint (d : Decimal.uint) : bytes :=
  match d with
  | Decimal.Nil => []
  | Decimal.D0 d => "0"%byte :: bytes_of_uint d
  | Decimal.D1 d => "1"%byte :: bytes_of_uint d
  | Decimal.D2 d => "2"%byte :: bytes_of_uint d
  | Decimal.D3 d => "3"%byte :: bytes_of_uint d
  | Decimal.D4 d => "4"%byte :: bytes_of_uint d
  | Decimal.D5 d => "5"%byte :: bytes_of_uint d
  | Decimal.D6 d => "6"%byte :: bytes_of_uint d
  | Decimal.D7 d => "7"%byte :: bytes_of_uint d
  | Decimal.D8 d => "8"%byte :: bytes_of_uint d
  | Decimal.D9 d => "9"%byte :: bytes_of_uint d
  end.

Definition str_of_long (n : Z) : bytes :=
  match Z.to_int n with
  | Decimal.Pos d => bytes_of_uint d
  | Decimal.Neg d => "-"%byte :: bytes_of_uint d
  end.

(** The digits of [s]; [None] when a byte is not a decimal digit. *)
Fixpoint uint_of_bytes (s : bytes) : option Decimal.uint :=
  match s with
  | [] => Some Decimal.Nil
  | c :: s' =>
      match uint_of_bytes s' with
      | None => None
      | Some d =>
          match c with
          | "0"%byte => Some (Decimal.D0 d)
          | "1"%byte => Some (Decimal.D1 d)
          | "2"%byte => Some (Decimal.D2 d)
          | "3"%byte => Some (Decimal.D3 d)
          | "4"%byte => Some (Decimal.D4 d)
          | "5"%byte => Some (Decimal.D5 d)
          | "6"%byte => Some (Decimal.D6 d)
          | "7"%byte => Some (Decimal.D7 d)
          | "8"%byte => Some (Decimal.D8 d)
          | "9"%byte => Some (Decimal.D9 d)
          | _ => None
          end
      end
  end.

Definition is_space (c : byte) : bool :=
  match c with
  | " "%byte | x09 | x0a | x0b | x0c | x0d => true
  | _ => false
  end.

Fixpoint lstrip (s : bytes) : bytes :=
  match s with
  | c :: s' => if is_space c then lstrip s' else s
  | [] => []
  end.

Definition strip (s : bytes) : bytes := rev (lstrip (rev (lstrip s))).

(** Drops one trailing [L] or [l]. *)
Definition drop_L_suffix (s : bytes) : bytes :=
  match rev s with
  | "L"%byte :: r | "l"%byte :: r => rev r
  | _ => s
  end.

Definition ValueError_long : PyExc :=
  ValueError "invalid literal for long() with base 10".

Definition digits_to_Z (neg : bool) (s : bytes) : Result Z :=
  match s with
  | [] => Raise ValueError_long
  | _ =>
      match uint_of_bytes s with
      | Some d => Ok (if neg then Z.opp (Z.of_uint d) else Z.of_uint d)
      | None => Raise ValueError_long
      end
  end.

(** [long(s)], base 10: blanks around, an optional sign, one digit or more,
    an optional [L]. *)
Definition long_of_str (s : bytes) : Result Z :=
  match drop_L_suffix (strip s) with
  | "-"%byte :: r => digits_to_Z true r
  | "+"%byte :: r => digits_to_Z false r
  | r => digits_to_Z false r
  end.

(** ** The UTF-8 codec: [u.encode('UTF-8', 'replace')] and
    [s.decode('UTF-8', 'replace')]

    A text string is the list of its code points.  Python 2 encodes every
    code point up to U+10FFFF, surrogates included, and decodes them back;
    a high surrogate with a low surrogate after it is encoded as the one
    code point the two stand for in UTF-16.  On malformed input the decoder
    writes U+FFFD and goes on with the next byte; where exactly CPython
    resumes inside a broken sequence is not modelled. *)

Definition utf8_encode_cp (c : Z) : bytes :=
  if c <? 128 then [byte_of_Z c]
  else if c <? 2048 then
    [byte_of_Z (192 + c / 64); byte_of_Z (128 + c mod 64)]
  else if c <? 65536 then
    [byte_of_Z (224 + c / 4096); byte_of_Z (128 + (c / 64) mod 64);
     byte_of_Z (128 + c mod 64)]
  else
    [byte_of_Z (240 + c / 262144); byte_of_Z (128 + (c / 4096) mod 64);
     byte_of_Z (128 + (c / 64) mod 64); byte_of_Z (128 + c mod 64)].

Definition high_surrogate (c : Z) : bool := (55296 <=? c) && (c <=? 56319).
Definition low_surrogate (c : Z) : bool := (56320 <=? c) && (c <=? 57343).

Fixpoint utf8_encode (s : list Z) : bytes :=
  match s with
  | [] => []
  | c :: s' =>
      match s' with
      | c2 :: s'' =>
          if high_surrogate c && low_surrogate c2
          then utf8_encode_cp ((c - 55296) * 1024 + (c2 - 56320) + 65536)
                 ++ utf8_encode s''
          else utf8_encode_cp c ++ utf8_encode s'
      | [] => utf8_encode_cp c
      end
  end.

(** No high surrogate of [s] has a low surrogate after it. *)
Fixpoint no_pair (s : list Z) : bool :=
  match s with
  | [] => true
  | c :: s' =>
      match s' with
      | c2 :: _ => negb (high_surrogate c && low_surrogate c2) && no_pair s'
      | [] => true
      end
  end.

Definition REPLACEMENT : Z := 65533.

Definition is_cont (x : byte) : bool :=
  (128 <=? Z_of_byte x) && (Z_of_byte x <? 192).

Definition cont_bits (x : byte) : Z := Z_of_byte x - 128.

Fixpoint utf8_decode (s : bytes) : list Z :=
  match s with
  | [] => []
  | x0 :: s1 =>
      let c0 := Z_of_byte x0 in
      if c0 <? 128 then c0 :: utf8_decode s1
      else if (194 <=? c0) && (c0 <? 224) then
        match s1 with
        | x1 :: s2 =>
            if is_cont x1
            then ((c0 - 192) * 64 + cont_bits x1) :: utf8_decode s2
            else REPLACEMENT :: utf8_decode s1
        | [] => REPLACEMENT :: utf8_decode s1
        end
      else if (224 <=? c0) && (c0 <? 240) then
        match s1 with
        | x1 :: x2 :: s3 =>
            if is_cont x1 && is_cont x2
               && negb ((c0 =? 224) && (Z_of_byte x1 <? 160))
            then ((c0 - 224) * 4096 + cont_bits x1 * 64 + cont_bits x2)
                   :: utf8_decode s3
            else REPLACEMENT :: utf8_decode s1
        | _ => REPLACEMENT :: utf8_decode s1
        end
      else if (240 <=? c0) && (c0 <? 245) then
        match s1 with
        | x1 :: x2 :: x3 :: s4 =>
            if is_cont x1 && is_cont x2 && is_cont x3
               && negb ((c0 =? 240) && (Z_of_byte x1 <? 144))
               && negb ((c0 =? 244) && (143 <? Z_of_byte x1))
            then ((c0 - 240) * 262144 + cont_bits x1 * 4096
                  + cont_bits x2 * 64 + cont_bits x3) :: utf8_decode s4
            else REPLACEMENT :: utf8_decode s1
        | _ => REPLACEMENT :: utf8_decode s1
        end
      else REPLACEMENT :: utf8_decode s1
  end.

(** ** The [exceptions] module: the names [getattr(exceptions, name, None)]
    finds a class for. *)
Definition exceptions : list string :=
  ["BaseException"; "SystemExit"; "KeyboardInterrupt"; "GeneratorExit";
   "Exception"; "StopIteration"; "StandardError"; "BufferError";
   "ArithmeticError"; "FloatingPointError"; "OverflowError";
   "ZeroDivisionError"; "AssertionError"; "AttributeError";
   "EnvironmentError"; "IOError"; "OSError"; "EOFError"; "ImportError";
   "LookupError"; "IndexError"; "KeyError"; "MemoryError"; "NameError";
   "UnboundLocalError"; "ReferenceError"; "RuntimeError";
   "NotImplementedError"; "SyntaxError"; "IndentationError"; "TabError";
   "SystemError"; "TypeError"; "ValueError"; "UnicodeError";
   "UnicodeDecodeError"; "UnicodeEncodeError"; "UnicodeTranslateError";
   "Warning"; "UserWarning"; "DeprecationWarning";
   "PendingDeprecationWarning"; "SyntaxWarning"; "RuntimeWarning";
   "FutureWarning"; "ImportWarning"; "UnicodeWarning"; "BytesWarning"]%string.

Definition in_exceptions (name : bytes) : bool :=
  existsb (fun n => bool_decide (b n = name :> list byte)) exceptions.

(** The attributes of the module that are true and are no classes: the
    strings [__doc__] and [__name__].  ([__package__] is [None].) *)
Definition exceptions_strings : list string :=
  ["__doc__"; "__name__"]%string.

Definition in_exceptions_strings (name : bytes) : bool :=
  existsb (fun n => bool_decide (b n = name :> list byte)) exceptions_strings.

(** ** [sorted(l, key=...)]: stable, and compares keys with [<] only. *)
Section Sorted.
Context {A K : Type} (lt : K -> K -> bool) (key : A -> K).

Fixpoint insort (x : A) (l : list A) : list A :=
  match l with
  | [] => [x]
  | y :: l' => if lt (key y) (key x) then y :: insort x l'
               else x :: y :: l'
  end.

Fixpoint sorted (l : list A) : list A :=
  match l with
  | [] => []
  | x :: l' => insort x (sorted l')
  end.

(** [x] is before [y] in the order of the keys. *)
Definition key_lt (x y : A) : Prop := lt (key x) (key y) = true.

(** [lt] is a strict total order on the keys [ks]: irreflexive, transitive,
    and one of two different keys is below the other. *)
Definition strict_total_on (ks : list K) : Prop :=
  (forall x, x ∈ ks -> lt x x = false)
  /\ (forall x y z, x ∈ ks -> y ∈ ks -> z ∈ ks ->
        lt x y = true -> lt y z = true -> lt x z = true)
  /\ (forall x y, x ∈ ks -> y ∈ ks -> x <> y ->
        lt x y = true \/ lt y x = true).
End Sorted.

End Host.

(* ================================================================== *)
(** * serialize.py                                                     *)
(* ================================================================== *)

Module Codec.
Import Host.

(** ** Values

    The objects the codec has a serializer for.  A [set] and a [dict] are
    the lists of their elements and of their items in iteration order; the
    order is not part of the value (see [value_equiv]).  An exception is the
    name of its class and its [args]. *)

Inductive SeqKind : Type := KList | KTuple | KSet.

Local Unset Elimination Schemes.
Inductive Value : Type :=
| VInt (n : Z)
| VLong (n : Z)
| VFloat (bits : Z)
| VStr (s : bytes)
| VUnicode (s : list Z)
| VBool (x : bool)
| VSeq (k : SeqKind) (items : list Value)
| VDict (items : list (Value * Value))
| VNone
| VSlice (start stop step : option Z)
| VEllipsis
| VExc (name : bytes) (args : list Value).
Local Set Elimination Schemes.

(** ** class TAG *)
Module TAG.
Definition INT : Z := 1.
Definition LONG : Z := 2.
Definition FLOAT : Z := 3.
Definition BYTES : Z := 4.
Definition TEXT : Z := 5.
Definition BOOL : Z := 6.
Definition SEQ : Z := 7.
Definition MAP : Z := 8.
Definition BYTE : Z := 9.
Definition NONE : Z := 10.
Definition SLICE : Z := 11.
Definition ELLIPSIS : Z := 12.
Definition ERROR : Z := 13.
Definition USER : Z := 14.
End TAG.

Definition PREFERRED_ENCODING : bytes := b "UTF-8".

(** ** Types, and the serializer registered for each *)

Inductive PyType : Type :=
| t_int | t_long | t_float | t_str | t_unicode | t_bool
| t_list | t_tuple | t_set | t_dict | t_NoneType | t_slice | t_ellipsis
| t_Exception | t_BaseException | t_basestring | t_object.

#[global] Instance PyType_eq_dec : EqDecision PyType.
Proof. solve_decision. Defined.

(** [tp.mro()] *)
Definition mro (tp : PyType) : list PyType :=
  match tp with
  | t_object => [t_object]
  | t_bool => [t_bool; t_int; t_object]
  | t_str => [t_str; t_basestring; t_object]
  | t_unicode => [t_unicode; t_basestring; t_object]
  | t_Exception => [t_Exception; t_BaseException; t_object]
  | tp => [tp; t_object]
  end.

(** The registered types among the classes of [obj]: [isinstance(obj, tp)]
    holds for exactly these.  Every exception the codec is given derives
    from [Exception]. *)
Definition classes_of (obj : Value) : list PyType :=
  match obj with
  | VInt _ => mro t_int
  | VLong _ => mro t_long
  | VFloat _ => mro t_float
  | VStr _ => mro t_str
  | VUnicode _ => mro t_unicode
  | VBool _ => mro t_bool
  | VSeq KList _ => mro t_list
  | VSeq KTuple _ => mro t_tuple
  | VSeq KSet _ => mro t_set
  | VDict _ => mro t_dict
  | VNone => mro t_NoneType
  | VSlice _ _ _ => mro t_slice
  | VEllipsis => mro t_ellipsis
  | VExc _ _ => mro t_Exception
  end.

Definition isinstance (obj : Value) (tp : PyType) : bool :=
  bool_decide (tp ∈ classes_of obj).

Inductive Serializer : Type :=
| BaseSerializer | IntSerializer | LongSerializer | FloatSerializer
| BytesSerializer | TextSerializer | BoolSerializer | SequenceSerializer
| MapSerializer | ByteSerializer | NoneSerializer | SliceSerializer
| EllipsisSerializer | ErrorSerializer.

#[global] Instance Serializer_eq_dec : EqDecision Serializer.
Proof. solve_decision. Defined.

(** [se.__tag__]; [BaseSerializer] gets [CURTAG = 0]. *)
Definition tag_of (se : Serializer) : Z :=
  match se with
  | BaseSerializer => 0
  | IntSerializer => TAG.INT
  | LongSerializer => TAG.LONG
  | FloatSerializer => TAG.FLOAT
  | BytesSerializer => TAG.BYTES
  | TextSerializer => TAG.TEXT
  | BoolSerializer => TAG.BOOL
  | SequenceSerializer => TAG.SEQ
  | MapSerializer => TAG.MAP
  | ByteSerializer => TAG.BYTE
  | NoneSerializer => TAG.NONE
  | SliceSerializer => TAG.SLICE
  | EllipsisSerializer => TAG.ELLIPSIS
  | ErrorSerializer => TAG.ERROR
  end.

(** [SERIALIZERS], as the class definitions fill it through [__types__]. *)
Definition SERIALIZERS : list (PyType * Serializer) :=
  [ (t_int, IntSerializer); (t_long, LongSerializer);
    (t_float, FloatSerializer); (t_str, BytesSerializer);
    (t_unicode, TextSerializer); (t_bool, BoolSerializer);
    (t_list, SequenceSerializer); (t_tuple, SequenceSerializer);
    (t_set, SequenceSerializer); (t_dict, MapSerializer);
    (t_NoneType, NoneSerializer); (t_slice, SliceSerializer);
    (t_ellipsis, EllipsisSerializer); (t_Exception, ErrorSerializer) ].

(** [TAGS], as [SerializerMeta.__new__] fills it. *)
Definition TAGS (tag : Z) : option Serializer :=
  List.find (fun se => tag_of se =? tag)
    [ BaseSerializer; IntSerializer; LongSerializer; FloatSerializer;
      BytesSerializer; TextSerializer; BoolSerializer; SequenceSerializer;
      MapSerializer; ByteSerializer; NoneSerializer; SliceSerializer;
      EllipsisSerializer; ErrorSerializer ].

(** The body of the loop of [GetIdealSerializer]: [cur] is [curser] and
    [curmrolen], [e] the item of the registry the loop is at. *)
Definition GetIdealSerializer_step (obj : Value)
    (cur : option Serializer * nat) (e : PyType * Serializer)
    : option Serializer * nat :=
  if isinstance obj (fst e) && (snd cur <? length (mro (fst e)))%nat
  then (Some (snd e), length (mro (fst e)))
  else cur.

(** [GetIdealSerializer], over the registry [reg] in its iteration order. *)
Definition GetIdealSerializer_in (reg : list (PyType * Serializer))
    (obj : Value) : option Serializer :=
  fst (fold_left (GetIdealSerializer_step obj) reg (None, O)).

Definition GetIdealSerializer : Value -> option Serializer :=
  GetIdealSerializer_in SERIALIZERS.

(** [SequenceSerializer.SEQ_ID_MAP] and [SEQ_TYPE_MAP] *)
Definition SEQ_ID_MAP (k : SeqKind) : Z :=
  match k with KList => 0 | KTuple => 1 | KSet => 2 end.

Definition SEQ_TYPE_MAP (id : Z) : Result SeqKind :=
  if id =? 0 then Ok KList
  else if id =? 1 then Ok KTuple
  else if id =? 2 then Ok KSet
  else Raise KeyError.

(** ** Writers *)

Definition IntSerializer_Serialize (obj : Z) : Result bytes :=
  struct_pack_l obj.

Definition ByteSerializer_Serialize (obj : Z) : Result bytes :=
  struct_pack_B obj.

Definition FloatSerializer_Serialize (bits : Z) : Result bytes :=
  Ok (struct_pack_d bits).

(** [len(obj)] *)
Definition len {A} (l : list A) : Z := Z.of_nat (length l).

Definition BytesSerializer_Serialize (obj : bytes) : Result bytes :=
  bind (IntSerializer_Serialize (len obj)) (fun bl =>
  Ok (bl ++ obj)).

Definition LongSerializer_Serialize (obj : Z) : Result bytes :=
  BytesSerializer_Serialize (str_of_long obj).

Definition TextSerializer_Serialize (obj : list Z) : Result bytes :=
  bind (BytesSerializer_Serialize PREFERRED_ENCODING) (fun bc =>
  bind (BytesSerializer_Serialize (utf8_encode obj)) (fun bd =>
  Ok (bc ++ bd))).

Definition BoolSerializer_Serialize (obj : bool) : Result bytes :=
  IntSerializer_Serialize (if obj then 1 else 0).

Definition NoneSerializer_Serialize : Result bytes := Ok [].

Definition EllipsisSerializer_Serialize : Result bytes := Ok [].

(** [struct.pack('!l', x)] for a slice attribute: [None] is no integer. *)
Definition pack_slice_attr (x : option Z) : Result bytes :=
  match x with
  | Some n => IntSerializer_Serialize n
  | None => Raise StructError
  end.

Definition SliceSerializer_Serialize (start stop step : option Z)
    : Result bytes :=
  bind (pack_slice_attr start) (fun b1 =>
  bind (pack_slice_attr stop) (fun b2 =>
  bind (pack_slice_attr step) (fun b3 =>
  Ok (b1 ++ b2 ++ b3)))).

(** [for x in l: write(x)] *)
Definition write_all {A} (write : A -> Result bytes)
    : list A -> Result bytes :=
  fix go (l : list A) : Result bytes :=
    match l with
    | [] => Ok []
    | x :: l' =>
        bind (write x) (fun bx =>
        bind (go l') (fun br =>
        Ok (bx ++ br)))
    end.

(** ** [sorted(obj.items(), key=lambda item: item[0])] *)

Definition ascii_byte (c : byte) : bool := Z_of_byte c <? 128.

(** [x < y] may raise; where this is [false] it does not.  A [unicode] is
    compared with a [str] by decoding the [str] as ASCII, which raises
    [UnicodeDecodeError] on a byte from 128 on; two tuples or two lists are
    compared by comparing the first two items that differ.  A [set] and a
    [dict], which are never keys, are counted with the objects whose
    comparison may raise. *)
Fixpoint lt_may_raise (x y : Value) : bool :=
  match x, y with
  | VUnicode _, VStr s | VStr s, VUnicode _ => negb (forallb ascii_byte s)
  | VSeq KTuple xs, VSeq KTuple ys | VSeq KList xs, VSeq KList ys =>
      (fix go (xs ys : list Value) : bool :=
         match xs, ys with
         | x :: xs', y :: ys' => lt_may_raise x y || go xs' ys'
         | _, _ => false
         end) xs ys
  | VSeq KSet _, _ | _, VSeq KSet _ | VDict _, _ | _, VDict _ => true
  | _, _ => false
  end.

(** [<] raises on no two of the keys. *)
Definition comparable (keys : list Value) : bool :=
  forallb (fun x => forallb (fun y => negb (lt_may_raise x y)) keys) keys.

Section PySorted.
(** The host's [<] where it returns, and what [sorted] does with keys on
    two of which [<] may raise: it raises when it compares two keys whose
    comparison does, which it need not do; [sorted_partial keys] is the
    exception then, or the places of the keys in the order they are
    returned in. *)
Variable py_lt : Value -> Value -> bool.
Variable sorted_partial : list Value -> Result (list nat).

Definition py_sorted {A} (key : A -> Value) (l : list A) : Result (list A) :=
  if comparable (map key l) then Ok (sorted py_lt key l)
  else bind (sorted_partial (map key l)) (fun places =>
       Ok (omap (fun i => l !! i) places)).
End PySorted.

(** The composite writers call the module's [Serialize] on their items;
    each is written over that function, [ser], and closed below. *)
Section Writers.
Variable py_lt : Value -> Value -> bool.
Variable sorted_partial : list Value -> Result (list nat).
Variable ser : Value -> Result bytes.

Definition SequenceSerializer_Serialize_with (k : SeqKind)
    (obj : list Value) : Result bytes :=
  bind (IntSerializer_Serialize (len obj)) (fun bl =>
  bind (ByteSerializer_Serialize (SEQ_ID_MAP k)) (fun bk =>
  bind (write_all ser obj) (fun bi =>
  Ok (bl ++ bk ++ bi)))).

Definition write_pair (pair : Value * Value) : Result bytes :=
  SequenceSerializer_Serialize_with KTuple [fst pair; snd pair].

Definition MapSerializer_Serialize_with (obj : list (Value * Value))
    : Result bytes :=
  bind (IntSerializer_Serialize (len obj)) (fun bl =>
  bind (py_sorted py_lt sorted_partial fst obj) (fun items =>
  bind (write_all write_pair items) (fun bi =>
  Ok (bl ++ bi)))).

(** The same, each pair written where it stands in [obj] and the writes
    then put in the order of [sorted]: the form the recursion of
    [Serialize] goes through. *)
Definition MapSerializer_Serialize_rec (obj : list (Value * Value))
    : Result bytes :=
  bind (IntSerializer_Serialize (len obj)) (fun bl =>
  bind (py_sorted py_lt sorted_partial fst
          (map (fun pair => (fst pair, write_pair pair)) obj))
       (fun writes =>
  bind (write_all snd writes) (fun bi =>
  Ok (bl ++ bi)))).

Definition ErrorSerializer_Serialize_with (name : bytes)
    (args : list Value) : Result bytes :=
  bind (BytesSerializer_Serialize name) (fun bn =>
  bind (SequenceSerializer_Serialize_with KTuple args) (fun ba =>
  Ok (bn ++ ba))).

(** [se.Serialize(obj, stream)] for the [se] that [GetIdealSerializer]
    returned; a serializer is only ever given an object of its
    [__types__]. *)
Definition se_Serialize_with (rec_map : list (Value * Value) -> Result bytes)
    (se : Serializer) (obj : Value) : Result bytes :=
  match se, obj with
  | IntSerializer, VInt n => IntSerializer_Serialize n
  | LongSerializer, VLong n => LongSerializer_Serialize n
  | FloatSerializer, VFloat x => FloatSerializer_Serialize x
  | BytesSerializer, VStr s => BytesSerializer_Serialize s
  | TextSerializer, VUnicode s => TextSerializer_Serialize s
  | BoolSerializer, VBool x => BoolSerializer_Serialize x
  | SequenceSerializer, VSeq k items =>
      SequenceSerializer_Serialize_with k items
  | MapSerializer, VDict items => rec_map items
  | NoneSerializer, VNone => NoneSerializer_Serialize
  | SliceSerializer, VSlice start stop step =>
      SliceSerializer_Serialize start stop step
  | EllipsisSerializer, VEllipsis => EllipsisSerializer_Serialize
  | ErrorSerializer, VExc name args =>
      ErrorSerializer_Serialize_with name args
  | BaseSerializer, _ => Raise NotImplementedError
  | _, _ => Raise TypeError
  end.

End Writers.

(** ** [Serialize] *)
Section Serialize.
Variable py_lt : Value -> Value -> bool.
Variable sorted_partial : list Value -> Result (list nat).

Fixpoint Serialize (obj : Value) : Result bytes :=
  match GetIdealSerializer obj with
  | None => Raise TypeError
  | Some se =>
      bind (ByteSerializer_Serialize (tag_of se)) (fun bt =>
      bind (se_Serialize_with Serialize
              (MapSerializer_Serialize_rec py_lt sorted_partial Serialize)
              se obj)
           (fun body =>
      Ok (bt ++ body)))
  end.

Definition SequenceSerializer_Serialize :=
  SequenceSerializer_Serialize_with Serialize.
Definition MapSerializer_Serialize :=
  MapSerializer_Serialize_with py_lt sorted_partial Serialize.
Definition ErrorSerializer_Serialize :=
  ErrorSerializer_Serialize_with Serialize.

End Serialize.

(** ** Readers *)

(** A [Deserialize(cls, fin)]: from what is left of the stream [fin], the
    object read and what is left after it, or the exception raised. *)
Definition Reader (A : Type) : Type := bytes -> Result (A * bytes).

Definition IntSerializer_Deserialize : Reader Z := fun fin =>
  let (data, fin1) := read 4 fin in
  bind (struct_unpack_l data) (fun n => Ok (n, fin1)).

Definition ByteSerializer_Deserialize : Reader Z := fun fin =>
  let (data, fin1) := read 1 fin in
  bind (struct_unpack_B data) (fun n => Ok (n, fin1)).

Definition FloatSerializer_Deserialize : Reader Z := fun fin =>
  let (data, fin1) := read 8 fin in
  bind (struct_unpack_d data) (fun x => Ok (x, fin1)).

Definition BytesSerializer_Deserialize : Reader bytes := fun fin =>
  bind (IntSerializer_Deserialize fin) (fun r =>
  let (l, fin1) := r in
  Ok (read l fin1)).

Definition LongSerializer_Deserialize : Reader Z := fun fin =>
  bind (BytesSerializer_Deserialize fin) (fun r =>
  let (s, fin1) := r in
  bind (long_of_str s) (fun n => Ok (n, fin1))).

Definition BoolSerializer_Deserialize : Reader bool := fun fin =>
  bind (IntSerializer_Deserialize fin) (fun r =>
  let (n, fin1) := r in
  Ok (negb (n =? 0), fin1)).

Definition SliceSerializer_Deserialize : Reader Value := fun fin =>
  bind (IntSerializer_Deserialize fin) (fun r1 =>
  bind (IntSerializer_Deserialize (snd r1)) (fun r2 =>
  bind (IntSerializer_Deserialize (snd r2)) (fun r3 =>
  Ok (VSlice (Some (fst r1)) (Some (fst r2)) (Some (fst r3)), snd r3)))).

(** [for i in xrange(n): ret.append(rd(fin))] *)
Definition read_n {A} (rd : Reader A) : nat -> Reader (list A) :=
  fix go (n : nat) (fin : bytes) : Result (list A * bytes) :=
    match n with
    | O => Ok ([], fin)
    | S n' =>
        bind (rd fin) (fun r =>
        bind (go n' (snd r)) (fun rs =>
        Ok (fst r :: fst rs, snd rs)))
    end.

(** [hash(v)] does not raise. *)
Fixpoint hashable (v : Value) : bool :=
  match v with
  | VSeq KTuple items => forallb hashable items
  | VSeq _ _ | VDict _ | VSlice _ _ _ => false
  | _ => true
  end.

(** The host's part in reading: which keys a [set] or a [dict] takes for
    the same ([py_eq stored new], the [==] of the stored key with the new
    one), the order a [set] holds its elements in ([set_order l] is the
    order of iteration of the set the elements [l] were added to one after
    the other), the text codecs other than [PREFERRED_ENCODING]
    ([codec_table name] is the decoder registered under [name], with what it
    returns or raises in the error mode ['replace']), and the constructors
    of the classes of the module [exceptions] ([construct ename args] is
    what the class named [ename] returns, or raises, when it is called on
    the arguments). *)
Section Readers.
Variable py_eq : Value -> Value -> bool.
Variable set_order : list Value -> list Value.
Variable codec_table : bytes -> option (bytes -> Result (list Z)).
Variable construct : bytes -> list Value -> Result Value.

(** [data.decode(codec, TEXT_ERROR_MODE)], and [u''] on a [LookupError],
    which is raised for a codec that is not registered ([None] in
    [codec_table]) and is the class [KeyError] derives from; every other
    exception of a decoder is raised, as the [AssertionError] of the codec
    ['hex'] is in a mode other than ['strict'].  [TEXT_ERROR_MODE] is
    ['replace']. *)
Definition text_decode (codec data : bytes) : Result (list Z) :=
  if bool_decide (codec = PREFERRED_ENCODING :> list byte)
  then Ok (utf8_decode data)
  else match codec_table codec with
       | Some dec =>
           match dec data with
           | Raise KeyError => Ok []
           | r => r
           end
       | None => Ok []
       end.

Definition TextSerializer_Deserialize : Reader (list Z) := fun fin =>
  bind (BytesSerializer_Deserialize fin) (fun r1 =>
  bind (BytesSerializer_Deserialize (snd r1)) (fun r2 =>
  bind (text_decode (fst r1) (fst r2)) (fun text =>
  Ok (text, snd r2)))).

(** [s.add(x)] *)
Definition set_add (s : list Value) (x : Value) : list Value :=
  if existsb (fun y => py_eq y x) s then s else s ++ [x].

(** The elements of the set that [l] was added to one after the other, in
    the order the set holds them in; an empty set holds none. *)
Definition set_iter (l : list Value) : list Value :=
  match l with
  | [] => []
  | _ => set_order l
  end.

(** [set(ret)], its elements in the order the set holds them in. *)
Definition py_set (ret : list Value) : Result (list Value) :=
  if forallb hashable ret then Ok (set_iter (fold_left set_add ret []))
  else Raise TypeError.

(** [d[key]]; [None] for a [KeyError]. *)
Fixpoint dict_lookup {V} (d : list (Value * V)) (key : Value) : option V :=
  match d with
  | [] => None
  | (k, v) :: d' => if py_eq k key then Some v else dict_lookup d' key
  end.

(** [d[key] = val] *)
Fixpoint dict_store (d : list (Value * Value)) (key val : Value)
    : list (Value * Value) :=
  match d with
  | [] => [(key, val)]
  | (k, v) :: d' =>
      if py_eq k key then (k, val) :: d'
      else (k, v) :: dict_store d' key val
  end.

Definition dict_setitem (d : list (Value * Value)) (key val : Value)
    : Result (list (Value * Value)) :=
  if hashable key then Ok (dict_store d key val) else Raise TypeError.

(** The items of a value that is iterated over. *)
Definition items_of (v : Value) : Result (list Value) :=
  match v with
  | VSeq _ items => Ok items
  | _ => Raise TypeError
  end.

Variable deser : Reader Value.

Definition SequenceSerializer_Deserialize_with : Reader Value := fun fin =>
  bind (IntSerializer_Deserialize fin) (fun r1 =>
  bind (ByteSerializer_Deserialize (snd r1)) (fun r2 =>
  bind (SEQ_TYPE_MAP (fst r2)) (fun tp =>
  bind (read_n deser (Z.to_nat (fst r1)) (snd r2)) (fun r3 =>
  match tp with
  | KList => Ok (VSeq KList (fst r3), snd r3)
  | KTuple => Ok (VSeq KTuple (fst r3), snd r3)
  | KSet => bind (py_set (fst r3)) (fun s => Ok (VSeq KSet s, snd r3))
  end)))).

(** One turn of the loop of [MapSerializer.Deserialize]:
    [key, val = SequenceSerializer.Deserialize(fin); ret[key] = val]. *)
Definition read_item (ret : list (Value * Value))
    : Reader (list (Value * Value)) := fun fin =>
  bind (SequenceSerializer_Deserialize_with fin) (fun r =>
  bind (items_of (fst r)) (fun kv =>
  match kv with
  | [key; val] =>
      bind (dict_setitem ret key val) (fun ret' => Ok (ret', snd r))
  | _ => Raise (ValueError "wrong number of values to unpack")
  end)).

Fixpoint read_items (n : nat) (ret : list (Value * Value))
    : Reader (list (Value * Value)) := fun fin =>
  match n with
  | O => Ok (ret, fin)
  | S n' =>
      bind (read_item ret fin) (fun r => read_items n' (fst r) (snd r))
  end.

Definition MapSerializer_Deserialize_with : Reader Value := fun fin =>
  bind (IntSerializer_Deserialize fin) (fun r1 =>
  bind (read_items (Z.to_nat (fst r1)) [] (snd r1)) (fun r2 =>
  Ok (VDict (fst r2), snd r2))).

(** [ecls = getattr(exceptions, ename, None)]; the call of [ecls] when it
    is true (a string cannot be called), a [RemoteException] of the name and
    the arguments when the module has nothing under the name. *)
Definition make_error (ename : bytes) (args : list Value) : Result Value :=
  if in_exceptions_strings ename then Raise TypeError
  else if in_exceptions ename then construct ename args
  else Ok (VExc (b "RemoteException") (VStr ename :: args)).

Definition ErrorSerializer_Deserialize_with : Reader Value := fun fin =>
  bind (BytesSerializer_Deserialize fin) (fun r1 =>
  bind (SequenceSerializer_Deserialize_with (snd r1)) (fun r2 =>
  bind (items_of (fst r2)) (fun args =>
  bind (make_error (fst r1) args) (fun e =>
  Ok (e, snd r2))))).

(** [se.Deserialize(stream)] *)
Definition se_Deserialize_with (se : Serializer) : Reader Value := fun fin =>
  match se with
  | BaseSerializer => Raise NotImplementedError
  | IntSerializer =>
      bind (IntSerializer_Deserialize fin) (fun r => Ok (VInt (fst r), snd r))
  | LongSerializer =>
      bind (LongSerializer_Deserialize fin) (fun r =>
      Ok (VLong (fst r), snd r))
  | FloatSerializer =>
      bind (FloatSerializer_Deserialize fin) (fun r =>
      Ok (VFloat (fst r), snd r))
  | BytesSerializer =>
      bind (BytesSerializer_Deserialize fin) (fun r =>
      Ok (VStr (fst r), snd r))
  | TextSerializer =>
      bind (TextSerializer_Deserialize fin) (fun r =>
      Ok (VUnicode (fst r), snd r))
  | BoolSerializer =>
      bind (BoolSerializer_Deserialize fin) (fun r =>
      Ok (VBool (fst r), snd r))
  | SequenceSerializer => SequenceSerializer_Deserialize_with fin
  | MapSerializer => MapSerializer_Deserialize_with fin
  | ByteSerializer =>
      bind (ByteSerializer_Deserialize fin) (fun r => Ok (VInt (fst r), snd r))
  | NoneSerializer => Ok (VNone, fin)
  | SliceSerializer => SliceSerializer_Deserialize fin
  | EllipsisSerializer => Ok (VEllipsis, fin)
  | ErrorSerializer => ErrorSerializer_Deserialize_with fin
  end.

End Readers.

(** ** [Deserialize] *)
Section Deserialize.
Variable py_eq : Value -> Value -> bool.
Variable set_order : list Value -> list Value.
Variable codec_table : bytes -> option (bytes -> Result (list Z)).
Variable construct : bytes -> list Value -> Result Value.

(** Reading an object from a stream.  Every call reads its tag byte before
    it calls itself, so the calls nest no deeper than the stream is long:
    [fuel] bounds the nesting. *)
Fixpoint Deserialize_fuel (fuel : nat) (stream : bytes)
    : Result (Value * bytes) :=
  match fuel with
  | O => Raise OutOfFuel
  | S fuel' =>
      bind (ByteSerializer_Deserialize stream) (fun r =>
      match TAGS (fst r) with
      | None => Raise KeyError
      | Some se =>
          se_Deserialize_with py_eq set_order codec_table construct
            (Deserialize_fuel fuel')
            se (snd r)
      end)
  end.

(** [Deserialize(stream)] for an open stream: the object and the stream
    after it. *)
Definition Deserialize_stream (stream : bytes) : Result (Value * bytes) :=
  Deserialize_fuel (S (length stream)) stream.

(** [Deserialize(s)] for a byte string [s]. *)
Definition Deserialize (s : bytes) : Result Value :=
  bind (Deserialize_stream s) (fun r => Ok (fst r)).

Definition SequenceSerializer_Deserialize : Reader Value :=
  SequenceSerializer_Deserialize_with py_eq set_order Deserialize_stream.
Definition MapSerializer_Deserialize : Reader Value :=
  MapSerializer_Deserialize_with py_eq set_order Deserialize_stream.
Definition ErrorSerializer_Deserialize : Reader Value :=
  ErrorSerializer_Deserialize_with py_eq set_order construct
    Deserialize_stream.

End Deserialize.

(** ** What the properties of the codec are stated with *)

(** Structural equality: the same objects, the elements of a set and the
    items of a dictionary in any order. *)
Local Unset Elimination Schemes.
Inductive value_equiv : Value -> Value -> Prop :=
| equiv_refl v : value_equiv v v
| equiv_seq k l1 l2 :
    Forall2 value_equiv l1 l2 -> value_equiv (VSeq k l1) (VSeq k l2)
| equiv_set l1 l1' l2 :
    l1 ≡ₚ l1' -> Forall2 value_equiv l1' l2 ->
    value_equiv (VSeq KSet l1) (VSeq KSet l2)
| equiv_dict d1 d1' d2 :
    d1 ≡ₚ d1' ->
    Forall2 (fun kv1 kv2 => value_equiv (fst kv1) (fst kv2)
                            /\ value_equiv (snd kv1) (snd kv2)) d1' d2 ->
    value_equiv (VDict d1) (VDict d2)
| equiv_exc name a1 a2 :
    Forall2 value_equiv a1 a2 -> value_equiv (VExc name a1) (VExc name a2).
Local Set Elimination Schemes.

(** No set and no dictionary inside. *)
Fixpoint order_free (v : Value) : bool :=
  match v with
  | VSeq KSet _ | VDict _ => false
  | VSeq _ items => forallb order_free items
  | VExc _ args => forallb order_free args
  | _ => true
  end.

(** Every exception inside is of a class of [exceptions]. *)
Fixpoint platform_errors (v : Value) : bool :=
  match v with
  | VSeq _ items => forallb platform_errors items
  | VDict items =>
      forallb (fun kv => platform_errors (fst kv) && platform_errors (snd kv))
        items
  | VExc name args => in_exceptions name && forallb platform_errors args
  | _ => true
  end.


(** Whether [best] is an item of the registry [reg] for a class of [obj],
    and every other item for a class of [obj] is for a class with a shorter
    [mro]. *)
Definition ideal_in (reg : list (PyType * Serializer)) (obj : Value)
    (best : PyType * Serializer) : bool :=
  bool_decide (best ∈ reg) && isinstance obj (fst best)
  && forallb (fun e =>
       implb (isinstance obj (fst e))
         (bool_decide (e = best)
          || (length (mro (fst e)) <? length (mro (fst best)))%nat)) reg.

(** The type of [obj], and the serializer registered for it. *)
Definition ideal_entry (obj : Value) : PyType * Serializer :=
  match obj with
  | VInt _ => (t_int, IntSerializer)
  | VLong _ => (t_long, LongSerializer)
  | VFloat _ => (t_float, FloatSerializer)
  | VStr _ => (t_str, BytesSerializer)
  | VUnicode _ => (t_unicode, TextSerializer)
  | VBool _ => (t_bool, BoolSerializer)
  | VSeq KList _ => (t_list, SequenceSerializer)
  | VSeq KTuple _ => (t_tuple, SequenceSerializer)
  | VSeq KSet _ => (t_set, SequenceSerializer)
  | VDict _ => (t_dict, MapSerializer)
  | VNone => (t_NoneType, NoneSerializer)
  | VSlice _ _ _ => (t_slice, SliceSerializer)
  | VEllipsis => (t_ellipsis, EllipsisSerializer)
  | VExc _ _ => (t_Exception, ErrorSerializer)
  end.

Section Notions.
Variable py_eq : Value -> Value -> bool.
Variable set_order : list Value -> list Value.
Variable py_lt : Value -> Value -> bool.
Variable sorted_partial : list Value -> Result (list nat).

(** What [struct.pack('!l', n)] takes. *)
Definition i32 (n : Z) : bool := (- 2 ^ 31 <=? n) && (n <? 2 ^ 31).
(** A length that [struct.pack('!l', len(l))] takes. *)
Definition short {A} (l : list A) : bool := len l <? 2 ^ 31.
(** A code point of Unicode, U+0000 to U+10FFFF. *)
Definition code_point (c : Z) : bool := (0 <=? c) && (c <=? 1114111).
(** An attribute of a slice that is an integer [struct.pack('!l', _)]
    takes; [None] is not. *)
Definition i32_attr (x : option Z) : bool :=
  match x with Some n => i32 n | None => false end.

(** The values the codec writes, and reads back without raising.  A text
    holds no high surrogate with a low surrogate after it, which the
    encoder makes one code point of, and [<] raises on no two keys of a
    dictionary. *)
Fixpoint wf (v : Value) : bool :=
  match v with
  | VInt n => i32 n
  | VLong n => short (str_of_long n)
  | VFloat x => (0 <=? x) && (x <? 2 ^ 64)
  | VStr s => short s
  | VUnicode s =>
      forallb code_point s && no_pair s && short (utf8_encode s)
  | VBool _ | VNone | VEllipsis => true
  | VSeq k items =>
      short items && forallb wf items
      && match k with KSet => forallb hashable items | _ => true end
  | VDict items =>
      short items
      && forallb (fun kv => wf (fst kv) && wf (snd kv) && hashable (fst kv))
           items
      && comparable (map fst items)
  | VSlice start stop step => i32_attr start && i32_attr stop && i32_attr step
  | VExc name args =>
      negb (in_exceptions_strings name)
      && short name && short args && forallb wf args
  end.

(** The exception read back for one of the class [ename] with the
    arguments [args], when the constructor of the class takes them as they
    are. *)
Definition rebuilt (ename : bytes) (args : list Value) : Value :=
  if in_exceptions ename then VExc ename args
  else VExc (b "RemoteException") (VStr ename :: args).

(** What [Deserialize] makes of what [Serialize] wrote for [v]. *)
Fixpoint decoded (v : Value) : Value :=
  match v with
  | VSeq KSet items =>
      VSeq KSet
        (set_iter set_order (fold_left (set_add py_eq) (map decoded items) []))
  | VSeq k items => VSeq k (map decoded items)
  | VDict items =>
      VDict (fold_left (fun d kv => dict_store py_eq d (fst kv) (snd kv))
               (map snd
                  (sorted py_lt fst
                     (map (fun kv => (fst kv, (decoded (fst kv), decoded (snd kv))))
                        items)))
               [])
  | VExc name args => rebuilt name (map decoded args)
  | v => v
  end.

(** How deep the containers of [v] nest: how deep the calls of
    [Deserialize] nest when they read [v] back. *)
Fixpoint depth (v : Value) : nat :=
  match v with
  | VSeq _ items => S (foldr (fun x d => Nat.max (depth x) d) O items)
  | VDict items =>
      S (foldr (fun kv d => Nat.max (Nat.max (depth (fst kv)) (depth (snd kv))) d)
           O items)
  | VExc _ args => S (foldr (fun x d => Nat.max (depth x) d) O args)
  | _ => O
  end.

(** The tag [Serialize] writes for [v]: the [__tag__] of the serializer of
    its type, as a byte. *)
Definition tag_byte (v : Value) : byte :=
  match v with
  | VInt _ => x01 | VLong _ => x02 | VFloat _ => x03 | VStr _ => x04
  | VUnicode _ => x05 | VBool _ => x06 | VSeq _ _ => x07 | VDict _ => x08
  | VNone => x0a | VSlice _ _ _ => x0b | VEllipsis => x0c | VExc _ _ => x0d
  end.

(** What the serializer of the type of [v] writes after the tag. *)
Definition body_of (v : Value) : Result bytes :=
  match v with
  | VInt n => IntSerializer_Serialize n
  | VLong n => LongSerializer_Serialize n
  | VFloat x => FloatSerializer_Serialize x
  | VStr s => BytesSerializer_Serialize s
  | VUnicode s => TextSerializer_Serialize s
  | VBool x => BoolSerializer_Serialize x
  | VSeq k items => SequenceSerializer_Serialize py_lt sorted_partial k items
  | VDict items => MapSerializer_Serialize py_lt sorted_partial items
  | VNone => NoneSerializer_Serialize
  | VSlice a b c => SliceSerializer_Serialize a b c
  | VEllipsis => EllipsisSerializer_Serialize
  | VExc name args => ErrorSerializer_Serialize py_lt sorted_partial name args
  end.

(** The constructors take the exceptions inside [v] as they are: the one
    of the class of each, where [exceptions] has the class, called on the
    arguments as they are read back, returns an exception of the class with
    these arguments. *)
Fixpoint constructs (construct : bytes -> list Value -> Result Value)
    (v : Value) : Prop :=
  match v with
  | VSeq _ items =>
      fold_right (fun x P => constructs construct x /\ P) True items
  | VDict items =>
      fold_right (fun kv P => constructs construct (fst kv)
                              /\ constructs construct (snd kv) /\ P)
        True items
  | VExc name args =>
      (in_exceptions name = true ->
       construct name (map decoded args) = Ok (VExc name (map decoded args)))
      /\ fold_right (fun x P => constructs construct x /\ P) True args
  | _ => True
  end.

(** No two of the keys are [==]. *)
Fixpoint distinct (l : list Value) : bool :=
  match l with
  | [] => true
  | x :: l' =>
      forallb (fun y => negb (py_eq x y) && negb (py_eq y x)) l'
      && distinct l'
  end.

(** The elements of every set and the keys of every dictionary inside are
    pairwise different for [==], and hold no set or dictionary. *)
Fixpoint keys_ok (v : Value) : bool :=
  match v with
  | VSeq k items =>
      forallb keys_ok items
      && match k with
         | KSet => forallb order_free items && distinct items
         | _ => true
         end
  | VDict items =>
      forallb (fun kv => keys_ok (fst kv) && keys_ok (snd kv)
                         && order_free (fst kv)) items
      && distinct (map fst items)
  | VExc _ args => forallb keys_ok args
  | _ => true
  end.

End Notions.

(** ** What the further properties of the codec are stated with *)

(** What [Serialize] takes: every integer inside is one
    [struct.pack('!l', _)] takes, every slice has three of them, and so is
    every length that is written. *)
Fixpoint encodable (v : Value) : bool :=
  match v with
  | VInt n => i32 n
  | VLong n => short (str_of_long n)
  | VStr s => short s
  | VUnicode s => short (utf8_encode s)
  | VSeq _ items => short items && forallb encodable items
  | VDict items =>
      short items
      && forallb (fun kv => encodable (fst kv) && encodable (snd kv)) items
  | VSlice start stop step => i32_attr start && i32_attr stop && i32_attr step
  | VExc name args => short name && short args && forallb encodable args
  | VFloat _ | VBool _ | VNone | VEllipsis => true
  end.

(** [<] raises on no two keys of a dictionary inside [v]: [sorted]
    returns for each. *)
Fixpoint sortable (v : Value) : bool :=
  match v with
  | VSeq _ items => forallb sortable items
  | VDict items =>
      comparable (map fst items)
      && forallb (fun kv => sortable (fst kv) && sortable (snd kv)) items
  | VExc _ args => forallb sortable args
  | _ => true
  end.

(** [SERIALIZERS[tp] = ser], the first half of [SetSerializer]. *)
Fixpoint SERIALIZERS_set (tp : PyType) (ser : Serializer)
    (reg : list (PyType * Serializer)) : list (PyType * Serializer) :=
  match reg with
  | [] => [(tp, ser)]
  | (tp', ser') :: reg' =>
      if bool_decide (tp' = tp) then (tp, ser) :: reg'
      else (tp', ser') :: SERIALIZERS_set tp ser reg'
  end.

End Codec.

(* ================================================================== *)
(** * packet.py                                                        *)
(* ================================================================== *)

Module Pkt.
Import Host Codec.

(** What a module-level name is bound to: a module, or a class with its
    integer attributes. *)
Inductive Global : Type :=
| GModule
| GClass (members : list (string * Z)).

Definition Namespace : Type := list (string * Global).

Fixpoint assoc {A} (name : string) (l : list (string * A)) : option A :=
  match l with
  | [] => None
  | (n, x) :: l' => if String.eqb n name then Some x else assoc name l'
  end.

(** The names [packet.py] binds: [import serialize], [class Packet]. *)
Definition packet_globals : Namespace :=
  [ ("serialize", GModule); ("Packet", GClass []) ]%string.

(** [CMD.KEEPALIVE], evaluated in a module whose names are [globals]. *)
Definition CMD_KEEPALIVE (globals : Namespace) : Result Z :=
  match assoc "CMD" globals with
  | None => Raise (NameError "global name 'CMD' is not defined")
  | Some GModule =>
      Raise (AttributeError "'module' object has no attribute 'KEEPALIVE'")
  | Some (GClass members) =>
      match assoc "KEEPALIVE" members with
      | Some v => Ok v
      | None =>
          Raise (AttributeError "class CMD has no attribute 'KEEPALIVE'")
      end
  end.

(** A packet is its instance dictionary: [cmd] and [attrs], each of which
    may be missing.  The keys of [attrs] are keyword names. *)
Record Packet : Type := mkPacket {
  cmd : option Z;
  attrs : option (gmap string Value)
}.

(** [Packet(cmd, **kwargs)] *)
Definition Packet___init__ (c : Z) (kwargs : gmap string Value) : Packet :=
  mkPacket (Some c) (Some kwargs).

(** [Packet.__getattr__(self, attr)] is called when the instance has no
    attribute [attr].  Its three branches give values of three types, so each
    is a function of its own. *)

(** [attr == 'cmd']: [self.cmd = CMD.KEEPALIVE; return self.cmd] *)
Definition Packet___getattr___cmd (self : Packet) : Result (Z * Packet) :=
  bind (CMD_KEEPALIVE packet_globals) (fun c =>
  Ok (c, mkPacket (Some c) (attrs self))).

(** [attr == 'attrs']: [self.attrs = {}; return self.attrs] *)
Definition Packet___getattr___attrs (self : Packet)
    : gmap string Value * Packet :=
  (∅, mkPacket (cmd self) (Some ∅)).

(** [self.cmd] *)
Definition get_cmd (self : Packet) : Result (Z * Packet) :=
  match cmd self with
  | Some c => Ok (c, self)
  | None => Packet___getattr___cmd self
  end.

(** [self.attrs] *)
Definition get_attrs (self : Packet) : gmap string Value * Packet :=
  match attrs self with
  | Some m => (m, self)
  | None => Packet___getattr___attrs self
  end.

(** Any other [attr]: [return self.attrs[attr]] *)
Definition Packet___getattr___other (self : Packet) (attr : string)
    : Result (Value * Packet) :=
  let (m, self1) := get_attrs self in
  match m !! attr with
  | Some v => Ok (v, self1)
  | None => Raise KeyError
  end.

(** [self.<attr>] for an [attr] other than [cmd] and [attrs] (and than the
    methods of the class): the instance never has it, [__setattr__] stores
    it in [attrs]. *)
Definition get (self : Packet) (attr : string) : Result Value :=
  bind (Packet___getattr___other self attr) (fun r => Ok (fst r)).

(** [Packet.__setattr__(self, attr, val)] for such an [attr]:
    [self.attrs[attr] = val] *)
Definition set (self : Packet) (attr : string) (val : Value) : Packet :=
  let (m, self1) := get_attrs self in
  mkPacket (cmd self1) (Some (<[attr := val]> m)).

(** [Packet.Has(self, *attrs)]; the result only. *)
Definition Has (self : Packet) (names : list string) : bool :=
  forallb (fun attr => bool_decide (is_Some (fst (get_attrs self) !! attr)))
    names.

(** [chr(i)] *)
Definition chr (i : Z) : Result bytes :=
  if (0 <=? i) && (i <? 256) then Ok [byte_of_Z i]
  else Raise (ValueError "chr() arg not in range(256)").

(** The dictionary [attrs] as the codec sees it: the keys are [str]. *)
Definition dict_of (m : gmap string Value) : Value :=
  VDict (map (fun kv => (VStr (b (fst kv)), snd kv)) (map_to_list m)).

(** [Packet.__str__]: [chr(self.cmd) + serialize.Serialize(self.attrs)] *)
Definition Packet___str__ (py_lt : Value -> Value -> bool)
    (sorted_partial : list Value -> Result (list nat)) (self : Packet)
    : Result bytes :=
  bind (get_cmd self) (fun r =>
  bind (chr (fst r)) (fun bc =>
  bind (Serialize py_lt sorted_partial (dict_of (fst (get_attrs (snd r)))))
       (fun ba =>
  Ok (bc ++ ba)))).

End Pkt.

(* ================================================================== *)
(** * service.py                                                       *)
(* ================================================================== *)

Module Service.
Import Host Codec Pkt.

(** class CMD *)
Module CMD.
Definition SYNC : Z := 0.
Definition DESYNC : Z := 1.
Definition PULL : Z := 2.
Definition RESOLVE : Z := 3.
Definition LIST : Z := 4.
Definition PUSH : Z := 5.
Definition members : list (string * Z) :=
  [ ("SYNC", SYNC); ("DESYNC", DESYNC); ("PULL", PULL);
    ("RESOLVE", RESOLVE); ("LIST", LIST); ("PUSH", PUSH) ]%string.
End CMD.

(** The names [service.py] binds. *)
Definition service_globals : Namespace :=
  [ ("threading", GModule); ("Queue", GModule); ("socket", GModule);
    ("select", GModule); ("traceback", GModule); ("serialize", GModule);
    ("packet", GModule); ("proxy", GModule); ("NOMError", GClass []);
    ("LoggedSocket", GClass []); ("Deferred", GClass []);
    ("DeferredResult", GClass []); ("ObjectTranslator", GClass []);
    ("RemoteReference", GClass []); ("CMD", GClass CMD.members);
    ("Client", GClass []); ("Authorizor", GClass []);
    ("Service", GClass []) ]%string.

(** A reference to a [DeferredResult] object. *)
Definition Ref : Type := nat.

(** [Client]: its address (the service it points back to is the one
    service of the state). *)
Record Client : Type := mkClient { cli_addr : Value }.

(** The [onwait] closure of [SendPacket], by what it captured. *)
Record OnWait : Type := mkOnWait {
  ow_cmd : Z;
  ow_xid : Z;
  ow_kwargs : gmap string Value;
  ow_cli : Client
}.

Record DeferredResult : Type := mkDeferredResult {
  onwait : option OnWait;
  queue : list Packet;
  xid : Z;
  result : option Packet;
  ready : bool
}.

(** [RemoteReference] *)
Record RemoteReference : Type := mkRemoteReference {
  rr_cli : Client;
  rr_oid : Z;
  blocking : bool;
  pushdata : list (Value * Value)
}.

(** What the order of the effects is read from. *)
Inductive Event : Type :=
| EvOutstanding (x : Z) (r : Ref)      (* self.outstanding[xid] = act *)
| EvWaitCalled (r : Ref)               (* act.Wait() is entered *)
| EvWaiting (r : Ref)                  (* self.WAITING.add(self) *)
| EvSendto (data : bytes) (addr : Value) (* self.sock.sendto(data, addr) *)
| EvBlock (r : Ref).                   (* self.CONDITION.wait(TIMEOUT) *)

Section WithObjects.
(** The local objects, [id(obj)], and the host's part in the codec. *)
Variable Obj : Type.
Variable id : Obj -> Z.
Variable py_eq : Value -> Value -> bool.
Variable set_order : list Value -> list Value.
Variable py_lt : Value -> Value -> bool.
Variable sorted_partial : list Value -> Result (list nat).
Variable codec_table : bytes -> option (bytes -> Result (list Z)).
Variable construct : bytes -> list Value -> Result Value.

(** Everything the service and its deferreds mutate. *)
Record State : Type := mkState {
  XID : Z;                               (* Service.XID *)
  addr : Value;                          (* self.addr *)
  omap : gmap Z Obj;                     (* id -> object tracked *)
  pubmap : gmap string Z;                (* public object name -> id *)
  outstanding : gmap Z Ref;              (* xid -> Deferred *)
  clients : list (Value * Client);       (* addr -> Client *)
  WAITING : list Ref;                    (* Deferred.WAITING, a set *)
  heap : list DeferredResult;            (* the DeferredResult objects *)
  events : list Event                    (* oldest first *)
}.

Definition set_XID (x : Z) (s : State) : State :=
  mkState x (addr s) (omap s) (pubmap s) (outstanding s) (clients s)
    (WAITING s) (heap s) (events s).
Definition set_omap (m : gmap Z Obj) (s : State) : State :=
  mkState (XID s) (addr s) m (pubmap s) (outstanding s) (clients s)
    (WAITING s) (heap s) (events s).
Definition set_pubmap (m : gmap string Z) (s : State) : State :=
  mkState (XID s) (addr s) (omap s) m (outstanding s) (clients s)
    (WAITING s) (heap s) (events s).
Definition set_outstanding (m : gmap Z Ref) (s : State) : State :=
  mkState (XID s) (addr s) (omap s) (pubmap s) m (clients s)
    (WAITING s) (heap s) (events s).
Definition set_clients (c : list (Value * Client)) (s : State) : State :=
  mkState (XID s) (addr s) (omap s) (pubmap s) (outstanding s) c
    (WAITING s) (heap s) (events s).
Definition set_WAITING (w : list Ref) (s : State) : State :=
  mkState (XID s) (addr s) (omap s) (pubmap s) (outstanding s) (clients s)
    w (heap s) (events s).
Definition set_heap (h : list DeferredResult) (s : State) : State :=
  mkState (XID s) (addr s) (omap s) (pubmap s) (outstanding s) (clients s)
    (WAITING s) h (events s).
Definition emit (e : Event) (s : State) : State :=
  mkState (XID s) (addr s) (omap s) (pubmap s) (outstanding s) (clients s)
    (WAITING s) (heap s) (events s ++ [e]).

(** A method: it returns or raises, and leaves a state either way. *)
Definition M (A : Type) : Type := State -> Result A * State.

Definition ret {A} (a : A) : M A := fun s => (Ok a, s).
Definition raise {A} (e : PyExc) : M A := fun s => (Raise e, s).
Definition bindM {A B} (m : M A) (k : A -> M B) : M B := fun s =>
  match m s with
  | (Ok a, s1) => k a s1
  | (Raise e, s1) => (Raise e, s1)
  end.
Definition lift {A} (r : Result A) : M A := fun s => (r, s).
Definition modify (f : State -> State) : M unit := fun s => (Ok tt, f s).
Definition gets {A} (f : State -> A) : M A := fun s => (Ok (f s), s).

Notation "'let!' x ':=' m 'in' k" := (bindM m (fun x => k))
  (at level 10, x name, m at level 200, k at level 200, only parsing).

(** ** class Authorizor *)

Definition CanClientSync (client : Client) : bool := true.

(** [s.startswith(prefix)] for a [str] or a [unicode] [s]; no other object
    of the codec has the method. *)
Definition startswith (v : Value) (prefix : bytes) : Result bool :=
  match v with
  | VStr s => Ok (bool_decide (take (length prefix) s = prefix :> list byte))
  | VUnicode s =>
      Ok (bool_decide (take (length prefix) s = map Z_of_byte prefix))
  | _ => Raise (AttributeError "object has no attribute 'startswith'")
  end.

Definition CanClientAccess (client : Client) (obj : Obj) (pkt : Packet)
    : Result bool :=
  if Has pkt ["attr"%string] then
    bind (get pkt "attr") (fun a =>
    bind (startswith a (b "_")) (fun r =>
    Ok (negb r)))
  else Ok true.

(** ** class Service: the transaction counter and the tables *)

Definition NewXID : M Z := fun s =>
  let x := Z.land (XID s + 1) 4294967295 in
  (Ok (x - 1), set_XID x s).

Definition Register (obj : Obj) (name : string) : M unit :=
  let! _ := modify (fun s => set_omap (<[id obj := obj]> (omap s)) s) in
  modify (fun s => set_pubmap (<[name := id obj]> (pubmap s)) s).

(** [del self.pubmap[name]], and the [KeyError] passed over. *)
Definition Unregister (name : string) : M unit := fun s =>
  match pubmap s !! name with
  | Some _ => (Ok tt, set_pubmap (delete name (pubmap s)) s)
  | None => (Ok tt, s)
  end.

(** [GetClient]: [self.clients[addr]] hashes the key, then compares. *)
Definition GetClient (a : Value) : M Client := fun s =>
  if hashable a then
    match dict_lookup py_eq (clients s) a with
    | Some cli => (Ok cli, s)
    | None =>
        let cli := mkClient a in
        (Ok cli, set_clients (clients s ++ [(a, cli)]) s)
    end
  else (Raise TypeError, s).

(** ** class Deferred / DeferredResult, on the object [r] of the heap *)

Definition deref (r : Ref) : M DeferredResult := fun s =>
  match heap s !! r with
  | Some d => (Ok d, s)
  | None => (Raise (RuntimeError "dangling reference"), s)
  end.

Definition update (r : Ref) (f : DeferredResult -> DeferredResult) : M unit :=
  modify (fun s => set_heap (alter f r (heap s)) s).

Definition new_DeferredResult (x : Z) (ow : option OnWait) : M Ref := fun s =>
  (Ok (length (heap s)),
   set_heap (heap s ++ [mkDeferredResult ow [] x None false]) s).

(** The keywords the call [packet.Packet(cmd, xid=xid, **kwargs)] has a
    value for already: [xid], and the parameters [self] and [cmd] of
    [Packet.__init__]. *)
Definition clashes (kwargs : gmap string Value) : bool :=
  bool_decide (is_Some (kwargs !! "xid"%string))
  || bool_decide (is_Some (kwargs !! "cmd"%string))
  || bool_decide (is_Some (kwargs !! "self"%string)).

(** The closure [SendPacket] builds:
    [self.sock.sendto(str(packet.Packet(cmd, xid=xid, **kwargs)), cli.addr)];
    the call of [Packet] raises [TypeError] for a keyword given twice. *)
Definition run_onwait (ow : OnWait) : M unit :=
  if clashes (ow_kwargs ow) then raise TypeError
  else
    let! data := lift (Packet___str__ py_lt sorted_partial
                    (Packet___init__ (ow_cmd ow)
                       (<["xid"%string := VInt (ow_xid ow)]> (ow_kwargs ow)))) in
    modify (emit (EvSendto data (cli_addr (ow_cli ow)))).

(** [Deferred.Go] *)
Definition Go (r : Ref) : M unit :=
  let! _ := modify (fun s =>
    emit (EvWaiting r)
      (set_WAITING (if bool_decide (r ∈ WAITING s) then WAITING s
                    else WAITING s ++ [r]) s)) in
  let! d := deref r in
  match onwait d with
  | Some ow => run_onwait ow
  | None => ret tt
  end.

(** [self.filt(obj)]: [obj.xid == self.xid] *)
Definition filt (d : DeferredResult) (obj : Packet) : Result bool :=
  bind (get obj "xid") (fun x => Ok (py_eq x (VInt (xid d)))).

(** [DeferredResult.Accept] *)
Definition Accept (r : Ref) (obj : Packet) : M unit :=
  let! d := deref r in
  let! hit := lift (filt d obj) in
  let! _ := (if hit : bool
   then update r (fun d => mkDeferredResult (onwait d) (queue d) (xid d)
                             (Some obj) true)
   else ret tt) in
  update r (fun d => mkDeferredResult (onwait d) (queue d ++ [obj]) (xid d)
                       (result d) (ready d)).

(** [Deferred.SendAll]: the reader thread hands a reply to every waiter,
    here in the order the waiters were added in; every waiter takes the
    reply for itself, so the order the set holds them in makes no
    difference. *)
Fixpoint SendAll_to (rs : list Ref) (ev : Packet) : M unit :=
  match rs with
  | [] => ret tt
  | r :: rs' => let! _ := Accept r ev in SendAll_to rs' ev
  end.

Definition SendAll (ev : Packet) : M unit :=
  let! rs := gets WAITING in SendAll_to rs ev.

(** [Deferred.Process]: the loop takes one object off the queue each
    turn, so it makes no more turns than the queue is long at the start. *)
Fixpoint Process_loop (turns : nat) (r : Ref) : M (option Packet) :=
  match turns with
  | O => ret None
  | S turns' =>
      let! d := deref r in
      match queue d with
      | [] => ret None
      | obj :: q' =>
          let! _ := update r (fun d => mkDeferredResult (onwait d) q' (xid d)
                                         (result d) (ready d)) in
          let! hit := lift (filt d obj) in
          if hit : bool then
            let! _ := modify (fun s =>
                        set_WAITING (filter (fun r' => r' ≠ r) (WAITING s)) s) in
            ret (Some obj)
          else Process_loop turns' r
      end
  end.

Definition Process (r : Ref) : M (option Packet) :=
  let! d := deref r in Process_loop (length (queue d)) r.

(** The loop of [Deferred.Wait].  The thread sleeps in [CONDITION.wait]
    until it is woken; [arrivals] lists, for each time it is, the replies
    the reader thread has handed out by then.  When no wake-up is left the
    thread stays asleep. *)
Fixpoint deliver (batch : list Packet) : M unit :=
  match batch with
  | [] => ret tt
  | ev :: batch' => let! _ := SendAll ev in deliver batch'
  end.

Fixpoint Wait_loop (r : Ref) (arrivals : list (list Packet))
    : M (option Packet) :=
  match arrivals with
  | [] => ret None
  | batch :: arrivals' =>
      let! _ := modify (emit (EvBlock r)) in
      let! _ := deliver batch in
      let! res := Process r in
      match res with
      | Some obj => ret (Some obj)
      | None => Wait_loop r arrivals'
      end
  end.

(** [Deferred.Wait]; [None] when the thread never returns from it. *)
Definition Deferred_Wait (r : Ref) (arrivals : list (list Packet))
    : M (option Packet) :=
  let! _ := Go r in Wait_loop r arrivals.

(** [DeferredResult.GetResult].  Its [raise] statement reads the name
    [pkt], which is neither a local of the method nor a name of the
    module. *)
Definition GetResult (d : DeferredResult) : Result Value :=
  if negb (ready d) then Raise (RuntimeError "Value not available yet")
  else
    match result d with
    | None => Raise (AttributeError "'NoneType' object has no attribute 'Has'")
    | Some res =>
        if Has res ["error"%string] then
          match assoc "pkt" service_globals with
          | None => Raise (NameError "global name 'pkt' is not defined")
          | Some _ => Raise (AttributeError "object has no attribute 'result'")
          end
        else get res "result"
    end.

(** [DeferredResult.Wait]; [None] when the thread never returns from it. *)
Definition DeferredResult_Wait (r : Ref) (arrivals : list (list Packet))
    : M (option Value) :=
  let! _ := modify (emit (EvWaitCalled r)) in
  let! d := deref r in
  if ready d then
    let! v := lift (GetResult d) in ret (Some v)
  else
    let! res := Deferred_Wait r arrivals in
    match res with
    | None => ret None
    | Some obj =>
        let! _ := update r (fun d => mkDeferredResult (onwait d) (queue d) (xid d)
                             (Some obj) (ready d)) in
        let! _ := modify (fun s => set_outstanding (delete (xid d) (outstanding s)) s) in
        let! _ := update r (fun d => mkDeferredResult (onwait d) (queue d) (xid d)
                             (result d) true) in
        let! d' := deref r in
        let! v := lift (GetResult d') in ret (Some v)
    end.

(** ** class Service: requests *)

(** [SendPacket(cli, _cmd=..., **kwargs)]; [_cmd] is [None] when the
    keyword is not given. *)
Definition SendPacket (cli : Client) (_cmd : option Z)
    (kwargs : gmap string Value) : M Ref :=
  let! x := NewXID in
  let c := match _cmd with Some c => c | None => CMD.PULL end in
  let! act := new_DeferredResult x (Some (mkOnWait c x kwargs cli)) in
  let! _ := modify (fun s =>
    emit (EvOutstanding x act)
      (set_outstanding (<[x := act]> (outstanding s)) s)) in
  ret act.

Definition kw (l : list (string * Value)) : gmap string Value :=
  list_to_map l.

Definition op (name : string) : string * Value := ("op"%string, VStr (b name)).

Definition Service_GetAttr (cli : Client) (oid : Z) (attr : Value) : M Ref :=
  SendPacket cli None
    (kw [op "GetAttr"; ("oid", VLong oid); ("attr", attr)]%string).
Definition Service_SetAttr (cli : Client) (oid : Z) (attr val : Value)
    : M Ref :=
  SendPacket cli None
    (kw [op "SetAttr"; ("oid", VLong oid); ("attr", attr); ("val", val)]%string).
Definition Service_DelAttr (cli : Client) (oid : Z) (attr : Value) : M Ref :=
  SendPacket cli None
    (kw [op "DelAttr"; ("oid", VLong oid); ("attr", attr)]%string).
Definition Service_GetItem (cli : Client) (oid : Z) (item : Value) : M Ref :=
  SendPacket cli None
    (kw [op "GetItem"; ("oid", VLong oid); ("item", item)]%string).
Definition Service_SetItem (cli : Client) (oid : Z) (item val : Value)
    : M Ref :=
  SendPacket cli None
    (kw [op "SetItem"; ("oid", VLong oid); ("item", item); ("val", val)]%string).
Definition Service_DelItem (cli : Client) (oid : Z) (item : Value) : M Ref :=
  SendPacket cli None
    (kw [op "DelItem"; ("oid", VLong oid); ("item", item)]%string).
Definition Service_Len (cli : Client) (oid : Z) : M Ref :=
  SendPacket cli None (kw [op "Len"; ("oid", VLong oid)]%string).
Definition Service_Repr (cli : Client) (oid : Z) : M Ref :=
  SendPacket cli None (kw [op "Repr"; ("oid", VLong oid)]%string).
Definition Service_Str (cli : Client) (oid : Z) : M Ref :=
  SendPacket cli None (kw [op "Str"; ("oid", VLong oid)]%string).
Definition Service_Call (cli : Client) (oid : Z) (args : list Value)
    (kwargs : list (Value * Value)) : M Ref :=
  SendPacket cli None
    (kw [op "Call"; ("oid", VLong oid); ("args", VSeq KTuple args);
         ("kwargs", VDict kwargs)]%string).

(** The request methods, as [getattr(self.srv, name)] finds them: a method
    is looked up by its name when it is called. *)
Inductive Method : Type :=
| m_GetAttr | m_SetAttr | m_DelAttr | m_GetItem | m_SetItem | m_DelItem
| m_Len | m_Repr | m_Str | m_Call.

Definition Service_methods : list (string * Method) :=
  [ ("GetAttr", m_GetAttr); ("SetAttr", m_SetAttr); ("DelAttr", m_DelAttr);
    ("GetItem", m_GetItem); ("SetItem", m_SetItem); ("DelItem", m_DelItem);
    ("Len", m_Len); ("Repr", m_Repr); ("Str", m_Str); ("Call", m_Call) ]%string.

Definition Service_getattr (name : string) : Result Method :=
  match assoc name Service_methods with
  | Some m => Ok m
  | None => Raise (AttributeError "'Service' object has no attribute")
  end.

(** The call of [m] on [cli], [oid], the positional [args] and the keyword
    arguments [kwargs]. *)
Definition call (m : Method) (cli : Client) (oid : Z) (args : list Value)
    (kwargs : list (Value * Value)) : M Ref :=
  match m, args, kwargs with
  | m_GetAttr, [attr], [] => Service_GetAttr cli oid attr
  | m_SetAttr, [attr; val], [] => Service_SetAttr cli oid attr val
  | m_DelAttr, [attr], [] => Service_DelAttr cli oid attr
  | m_GetItem, [item], [] => Service_GetItem cli oid item
  | m_SetItem, [item; val], [] => Service_SetItem cli oid item val
  | m_DelItem, [item], [] => Service_DelItem cli oid item
  | m_Len, [], [] => Service_Len cli oid
  | m_Repr, [], [] => Service_Repr cli oid
  | m_Str, [], [] => Service_Str cli oid
  | m_Call, _, _ => Service_Call cli oid args kwargs
  | _, _, _ => raise TypeError
  end.

(** ** class RemoteReference *)

(** What a method of a reference gives back: a value, the deferred itself
    in non-blocking mode, nothing, or no return at all. *)
Inductive Outcome : Type :=
| Returned (v : Value)
| ReturnedDeferred (r : Ref)
| ReturnedNone
| NeverReturns.

(** The body every method of a reference shares: the method [name] of the
    service is called on the client, the object id and the arguments; in
    blocking mode [Wait] is called on the deferred it returns.  [keep] says
    whether the method returns what it got. *)
Definition request (self : RemoteReference) (name : string)
    (args : list Value) (kwargs : list (Value * Value)) (keep : bool)
    (arrivals : list (list Packet)) : M Outcome :=
  let! m := lift (Service_getattr name) in
  let! act := call m (rr_cli self) (rr_oid self) args kwargs in
  if blocking self then
    let! res := DeferredResult_Wait act arrivals in
    match res with
    | None => ret NeverReturns
    | Some v => ret (if keep then Returned v else ReturnedNone)
    end
  else ret (if keep then ReturnedDeferred act else ReturnedNone).

Definition RemoteReference_GetAttr (self : RemoteReference) (attr : Value)
    (arrivals : list (list Packet)) : M Outcome :=
  if hashable attr then
    match dict_lookup py_eq (pushdata self) attr with
    | Some v => ret (Returned v)
    | None => request self "GetAttr" [attr] [] true arrivals
    end
  else raise TypeError.
Definition RemoteReference_SetAttr (self : RemoteReference)
    (attr val : Value) :=
  request self "SetAttr" [attr; val] [] false.
Definition RemoteReference_DelAttr (self : RemoteReference) (attr : Value) :=
  request self "DelAttr" [attr] [] false.
Definition RemoteReference_GetItem (self : RemoteReference) (item : Value) :=
  request self "GetItem" [item] [] true.
Definition RemoteReference_SetItem (self : RemoteReference)
    (item val : Value) :=
  request self "SetItem" [item; val] [] false.
Definition RemoteReference_DelItem (self : RemoteReference) (item : Value) :=
  request self "Delitem" [item] [] false.
Definition RemoteReference_Len (self : RemoteReference) :=
  request self "Len" [] [] true.
Definition RemoteReference_Repr (self : RemoteReference) :=
  request self "Repr" [] [] true.
Definition RemoteReference_Str (self : RemoteReference) :=
  request self "Str" [] [] true.
Definition RemoteReference_Call (self : RemoteReference) (args : list Value)
    (kwargs : list (Value * Value)) :=
  request self "Call" args kwargs true.

(** ** class ObjectTranslator *)

(** What a handle is read as. *)
Inductive Object : Type :=
| Local (o : Obj)
| Proxy (r : RemoteReference).

Definition ObjectTranslator_Serialize (obj : Obj) : M bytes :=
  let! _ := modify (fun s => set_omap (<[id obj := obj]> (omap s)) s) in
  let! b1 := lift (LongSerializer_Serialize (id obj)) in
  let! a := gets addr in
  match a with
  | VSeq k items =>
      let! b2 := lift (SequenceSerializer_Serialize py_lt sorted_partial
                         k items) in
      ret (b1 ++ b2)
  | _ => raise TypeError
  end.

Definition ObjectTranslator_Deserialize (fin : bytes) : M (Object * bytes) :=
  let! r1 := lift (LongSerializer_Deserialize fin) in
  let! r2 := lift (SequenceSerializer_Deserialize py_eq set_order
                     codec_table construct (snd r1)) in
  let! items := lift (items_of (fst r2)) in
  let oid := fst r1 in
  let a := VSeq KTuple items in
  let! own := gets addr in
  if py_eq a own then
    let! m := gets omap in
    match m !! oid with
    | Some o => ret (Local o, snd r2)
    | None => raise (ValueError "Bad OID in serialized data")
    end
  else
    let! cli := GetClient a in
    ret (Proxy (mkRemoteReference cli oid true []), snd r2).


(** ** What the properties of the service are stated with *)

(** A [str] or a [unicode]. *)
Definition is_string (v : Value) : bool :=
  match v with VStr _ | VUnicode _ => true | _ => false end.

(** [v] starts with an underscore. *)
Definition underscored (v : Value) : bool :=
  match v with
  | VStr (c :: _) => bool_decide (c = "_"%byte)
  | VUnicode (c :: _) => bool_decide (c = 95)
  | _ => false
  end.

(** The state after [n] calls. *)
Definition after_calls (n : nat) (s : State) : State :=
  Nat.iter n (fun s => snd (NewXID s)) s.

(** A method that logs no event, and one that only adds events to the
    log. *)
Definition keeps_events {A} (m : M A) : Prop :=
  forall s, events (snd (m s)) = events s.

Definition grows_events {A} (m : M A) : Prop :=
  forall s, exists t, events (snd (m s)) = events s ++ t.

(** The state [SendPacket] leaves. *)
Definition sent_state (cli : Client) (c : Z) (kwargs : gmap string Value)
    (s : State) : State :=
  let x := Z.land (XID s + 1) 4294967295 in
  let act := length (heap s) in
  mkState x (addr s) (omap s) (pubmap s) (<[x - 1 := act]> (outstanding s))
    (clients s) (WAITING s)
    (heap s ++ [mkDeferredResult (Some (mkOnWait c (x - 1) kwargs cli)) []
                  (x - 1) None false])
    (events s ++ [EvOutstanding (x - 1) act]).

(** What [ObjectTranslator.Deserialize] does with the object id and the
    address it has read. *)
Definition resolve (oid : Z) (a : Value) (rest : bytes) (s : State)
    : Result (Object * bytes) * State :=
  if py_eq a (addr s) then
    match omap s !! oid with
    | Some o => (Ok (Local o, rest), s)
    | None => (Raise (ValueError "Bad OID in serialized data"), s)
    end
  else if hashable a then
    match dict_lookup py_eq (clients s) a with
    | Some cli => (Ok (Proxy (mkRemoteReference cli oid true []), rest), s)
    | None =>
        (Ok (Proxy (mkRemoteReference (mkClient a) oid true []), rest),
         set_clients (clients s ++ [(a, mkClient a)]) s)
    end
  else (Raise TypeError, s).

End WithObjects.

Arguments mkState {Obj}.
Arguments XID {Obj}.
Arguments addr {Obj}.
Arguments omap {Obj}.
Arguments pubmap {Obj}.
Arguments outstanding {Obj}.
Arguments clients {Obj}.
Arguments WAITING {Obj}.
Arguments heap {Obj}.
Arguments events {Obj}.
Arguments set_XID {Obj}.
Arguments set_omap {Obj}.
Arguments set_pubmap {Obj}.
Arguments set_outstanding {Obj}.
Arguments set_clients {Obj}.
Arguments set_WAITING {Obj}.
Arguments set_heap {Obj}.
Arguments emit {Obj}.
Arguments ret {Obj A}.
Arguments raise {Obj A}.
Arguments bindM {Obj A B}.
Arguments lift {Obj A}.
Arguments modify {Obj}.
Arguments gets {Obj A}.
Arguments CanClientAccess {Obj}.
Arguments NewXID {Obj}.
Arguments Register {Obj}.
Arguments Unregister {Obj}.
Arguments GetClient {Obj}.
Arguments deref {Obj}.
Arguments update {Obj}.
Arguments new_DeferredResult {Obj}.
Arguments run_onwait {Obj}.
Arguments Go {Obj}.
Arguments Accept {Obj}.
Arguments SendAll_to {Obj}.
Arguments SendAll {Obj}.
Arguments Process_loop {Obj}.
Arguments Process {Obj}.
Arguments deliver {Obj}.
Arguments Wait_loop {Obj}.
Arguments Deferred_Wait {Obj}.
Arguments DeferredResult_Wait {Obj}.
Arguments SendPacket {Obj}.
Arguments Service_GetAttr {Obj}.
Arguments Service_SetAttr {Obj}.
Arguments Service_DelAttr {Obj}.
Arguments Service_GetItem {Obj}.
Arguments Service_SetItem {Obj}.
Arguments Service_DelItem {Obj}.
Arguments Service_Len {Obj}.
Arguments Service_Repr {Obj}.
Arguments Service_Str {Obj}.
Arguments Service_Call {Obj}.
Arguments call {Obj}.
Arguments request {Obj}.
Arguments RemoteReference_GetAttr {Obj}.
Arguments RemoteReference_Call {Obj}.
Arguments RemoteReference_GetItem {Obj}.
Arguments RemoteReference_SetItem {Obj}.
Arguments RemoteReference_DelItem {Obj}.
Arguments RemoteReference_SetAttr {Obj}.
Arguments RemoteReference_DelAttr {Obj}.
Arguments RemoteReference_Len {Obj}.
Arguments RemoteReference_Repr {Obj}.
Arguments RemoteReference_Str {Obj}.
Arguments Local {Obj}.
Arguments Proxy {Obj}.
Arguments ObjectTranslator_Serialize {Obj}.
Arguments ObjectTranslator_Deserialize {Obj}.
Arguments after_calls {Obj}.
Arguments keeps_events {Obj A}.
Arguments grows_events {Obj A}.
Arguments sent_state {Obj}.
Arguments resolve {Obj}.

End Service.

(* ================================================================== *)
(** * A host to run the examples on                                    *)
(* ================================================================== *)

(** The codec and the service take the host's [==] and [<] as they find
    them.  The examples below run on this host: [==] is equality of the
    contents of two objects of one type, [<] orders two [int]s by value and
    two [str]s byte by byte.  That is what Python does on the objects the
    examples compare ([int]s, [str]s, and tuples of them for [==]). *)
Module Sample.
Import Host Codec.

(** Byte strings, compared byte by byte. *)
Fixpoint bytes_ltb (s t : bytes) : bool :=
  match s, t with
  | _, [] => false
  | [], _ :: _ => true
  | x :: s', y :: t' =>
      if Z_of_byte x <? Z_of_byte y then true
      else if Z_of_byte y <? Z_of_byte x then false
      else bytes_ltb s' t'
  end.

Definition kind_eqb (k k' : SeqKind) : bool :=
  match k, k' with
  | KList, KList | KTuple, KTuple | KSet, KSet => true
  | _, _ => false
  end.

Definition attr_eqb (x y : option Z) : bool :=
  match x, y with
  | Some a, Some c => a =? c
  | None, None => true
  | _, _ => false
  end.

(** The [==] of the sample host: the same kind of object with the same
    content. *)
Fixpoint py_eq (v w : Value) : bool :=
  match v, w with
  | VInt x, VInt y | VLong x, VLong y | VFloat x, VFloat y => x =? y
  | VStr s, VStr t => bool_decide (s = t :> list byte)
  | VUnicode s, VUnicode t => bool_decide (s = t)
  | VBool x, VBool y => Bool.eqb x y
  | VSeq k l, VSeq k' l' =>
      kind_eqb k k'
      && (fix go (l l' : list Value) : bool :=
            match l, l' with
            | [], [] => true
            | x :: l, y :: l' => py_eq x y && go l l'
            | _, _ => false
            end) l l'
  | VDict d, VDict d' =>
      (fix go (d d' : list (Value * Value)) : bool :=
         match d, d' with
         | [], [] => true
         | kv :: d, kv' :: d' =>
             py_eq (fst kv) (fst kv') && py_eq (snd kv) (snd kv') && go d d'
         | _, _ => false
         end) d d'
  | VNone, VNone | VEllipsis, VEllipsis => true
  | VSlice a c e, VSlice a' c' e' =>
      attr_eqb a a' && attr_eqb c c' && attr_eqb e e'
  | VExc n l, VExc n' l' =>
      bool_decide (n = n' :> list byte)
      && (fix go (l l' : list Value) : bool :=
            match l, l' with
            | [], [] => true
            | x :: l, y :: l' => py_eq x y && go l l'
            | _, _ => false
            end) l l'
  | _, _ => false
  end.

(** The [<] of the sample host, on the keys the examples use: integers by
    value, byte strings byte by byte. *)
Definition py_lt (v w : Value) : bool :=
  match v, w with
  | VInt x, VInt y => x <? y
  | VStr s, VStr t => bytes_ltb s t
  | _, _ => false
  end.

(** The sets of the examples iterate in the order their elements were
    added in: [{3, -1}] does. *)
Definition set_order (l : list Value) : list Value := l.

(** [sorted] raises when it compares a [unicode] with a [str] that is not
    ASCII: the examples that meet two such keys hold no other key. *)
Definition sorted_partial (keys : list Value) : Result (list nat) :=
  Raise UnicodeDecodeError.

(** No text codec besides [PREFERRED_ENCODING]. *)
Definition codec_table : bytes -> option (bytes -> Result (list Z)) :=
  fun _ => None.

(** The constructors of the sample host.  A class whose constructor is that
    of [BaseException] keeps the arguments as they are; [EnvironmentError]
    and the classes derived from it keep the first two of three arguments.
    The classes that take their arguments apart, [SyntaxError] with the
    classes derived from it and the [UnicodeError]s with positions, are
    called by no example: the sample refuses them. *)
Definition construct (name : bytes) (args : list Value) : Result Value :=
  if existsb (fun n => bool_decide (b n = name :> list byte))
       ["EnvironmentError"; "IOError"; "OSError"]%string
  then match args with
       | [errno; strerror; _] => Ok (VExc name [errno; strerror])
       | _ => Ok (VExc name args)
       end
  else if existsb (fun n => bool_decide (b n = name :> list byte))
            ["SyntaxError"; "IndentationError"; "TabError";
             "UnicodeEncodeError"; "UnicodeDecodeError";
             "UnicodeTranslateError"]%string
  then Raise TypeError
  else Ok (VExc name args).

(** What a writer wrote, when it did not raise. *)
Definition written (r : Result bytes) : bytes :=
  match r with Ok bs => bs | Raise _ => [] end.

(** A service at 10.0.0.1:12074 that tracks the object whose id is 7; an
    object is its id. *)
Definition own_addr : list Value := [VStr (b "10.0.0.1"); VInt 12074].
Definition peer_addr : list Value := [VStr (b "10.0.0.2"); VInt 12074].

Definition service : Service.State Z :=
  Service.mkState 0 (VSeq KTuple own_addr) {[ 7 := 7 ]} {[ "x"%string := 7 ]}
    ∅ [] [] [] [].

(** [Service.XID] is 0 when the class is defined. *)
Definition fresh : Service.State Z :=
  Service.mkState 0 (VSeq KTuple own_addr) ∅ ∅ ∅ [] [] [] [].

(** A value with one of every kind of object inside. *)
Definition sample_value : Value :=
  VDict
    [ (VStr (b "b"), VSeq KSet [VInt 3; VInt (-1)]);
      (VStr (b "a"),
       VSeq KList
         [VUnicode [8364; 97]; VLong (-1234567890123456789012);
          VFloat 4614253070214989087; VBool true; VNone; VEllipsis;
          VSlice (Some 0) (Some 10) (Some 2);
          VExc (b "ValueError") [VStr (b "nope")];
          VSeq KTuple [VInt 1; VStr (b "x")]]) ].

(** An exception of a class the [exceptions] module does not have, here the
    [NOMError] of [service.py], comes back as a [RemoteException] whose
    arguments start with the name of the class. *)
Definition NOMError : Value := VExc (b "NOMError") [VStr (b "x")].

(** The dictionary [{"b": 1, "a": 2}], and the same with its items the
    other way round. *)
Definition items_ba : list (Value * Value) :=
  [(VStr (b "b"), VInt 1); (VStr (b "a"), VInt 2)].
Definition items_ab : list (Value * Value) :=
  [(VStr (b "a"), VInt 2); (VStr (b "b"), VInt 1)].

(** The reply to a pull the peer does not know: [pull_Unknown] sets
    [error], and the handler sets [result] to what it returned, [None]. *)
Definition unknown_pull_reply : Pkt.Packet :=
  Pkt.mkPacket (Some Service.CMD.PULL)
    (Some (Service.kw [ ("xid", VInt 5); ("op", VStr (b "Frob")); ("oid", VLong 7);
                ("error", VExc (b "NameError") [VStr (b "Unknown pull")]);
                ("result", VNone) ]%string)).

(** A pull of the attribute [_secret]. *)
Definition secret_pull : Pkt.Packet :=
  Pkt.mkPacket (Some Service.CMD.PULL)
    (Some (Service.kw [ ("xid", VInt 5); ("op", VStr (b "GetAttr")); ("oid", VLong 7);
                ("attr", VStr (b "_secret")) ]%string)).

End Sample.

(* ================================================================== *)
(** * serialize.py: the registry of the serializers                    *)
(* ================================================================== *)

Module Registry.
Import Host Codec.

(** The types are keys of [SERIALIZERS]. *)
Definition PyType_code (tp : PyType) : nat :=
  match tp with
  | t_int => 0 | t_long => 1 | t_float => 2 | t_str => 3 | t_unicode => 4
  | t_bool => 5 | t_list => 6 | t_tuple => 7 | t_set => 8 | t_dict => 9
  | t_NoneType => 10 | t_slice => 11 | t_ellipsis => 12 | t_Exception => 13
  | t_BaseException => 14 | t_basestring => 15 | t_object => 16
  end%nat.

Definition PyType_of_code (n : nat) : PyType :=
  match n with
  | 0 => t_int | 1 => t_long | 2 => t_float | 3 => t_str | 4 => t_unicode
  | 5 => t_bool | 6 => t_list | 7 => t_tuple | 8 => t_set | 9 => t_dict
  | 10 => t_NoneType | 11 => t_slice | 12 => t_ellipsis | 13 => t_Exception
  | 14 => t_BaseException | 15 => t_basestring | _ => t_object
  end%nat.

#[global] Instance PyType_countable : Countable PyType.
Proof.
  apply (inj_countable' PyType_code PyType_of_code). now intros [].
Defined.

(** ** class TAG and [RegisterTag] *)

(** The attributes every old-style class answers [hasattr] for, whatever
    its body binds: those of the class object, and the [__doc__] and
    [__module__] the class statement puts in its dictionary. *)
Definition classobj_attributes : list string :=
  ["__dict__"; "__name__"; "__bases__"; "__doc__"; "__module__"]%string.

(** The integer attributes of [TAG], as the class statement binds them. *)
Definition TAG_attrs : gmap string Z :=
  list_to_map
    [ ("INT", TAG.INT); ("LONG", TAG.LONG); ("FLOAT", TAG.FLOAT);
      ("BYTES", TAG.BYTES); ("TEXT", TAG.TEXT); ("BOOL", TAG.BOOL);
      ("SEQ", TAG.SEQ); ("MAP", TAG.MAP); ("BYTE", TAG.BYTE);
      ("NONE", TAG.NONE); ("SLICE", TAG.SLICE); ("ELLIPSIS", TAG.ELLIPSIS);
      ("ERROR", TAG.ERROR); ("USER", TAG.USER) ]%string.

(** [hasattr(TAG, name)] *)
Definition hasattr_TAG (tags : gmap string Z) (name : string) : bool :=
  bool_decide (name ∈ classobj_attributes)
  || bool_decide (is_Some (tags !! name)).

(** [TAG.USER] *)
Definition TAG_USER (tags : gmap string Z) : Result Z :=
  match tags !! "USER"%string with
  | Some u => Ok u
  | None => Raise (AttributeError "class TAG has no attribute 'USER'")
  end.

(** [RegisterTag(name)]: what it returns, and the attributes of [TAG]
    after it. *)
Definition RegisterTag (name : string) (tags : gmap string Z)
    : Result (Z * gmap string Z) :=
  bind (if hasattr_TAG tags name then Ok tags
        else
          bind (TAG_USER tags) (fun u =>
          let tags1 := <[name := u]> tags in
          bind (TAG_USER tags1) (fun u1 =>
          Ok (<["USER"%string := u1 + 1]> tags1)))) (fun tags' =>
  bind (TAG_USER tags') (fun u' =>
  Ok (u' - 1, tags'))).

(** ** The classes whose metaclass is [SerializerMeta] *)

Section Classes.
(** The types serializers are registered for. *)
Context {T : Type} `{Countable T}.

(** A class object: its name, the classes it derives from, nearest first
    ([object] left out), and what its own dictionary binds [__types__] and
    [__tag__] to.  Classes are told apart by where they are in the heap. *)
Record ClassObj : Type := mkClassObj {
  cls_name : string;
  cls_mro : list nat;
  cls_types : option (list T);
  cls_tag : option Z
}.

(** The module's globals [SERIALIZERS], [TAGS] and [CURTAG], the attributes
    of [TAG], and the class objects. *)
Record Registry : Type := mkRegistry {
  classes : list ClassObj;
  SERIALIZERS : gmap T nat;
  TAGS : gmap Z nat;
  CURTAG : Z;
  tags : gmap string Z
}.

(** The first class among [ids] whose own dictionary has the attribute. *)
Fixpoint lookup_attr {A} (own : ClassObj -> option A) (r : Registry)
    (ids : list nat) : option A :=
  match ids with
  | [] => None
  | c :: ids' =>
      match classes r !! c with
      | Some o =>
          match own o with
          | Some a => Some a
          | None => lookup_attr own r ids'
          end
      | None => lookup_attr own r ids'
      end
  end.

(** [getattr(cls, '__types__')] and [getattr(cls, '__tag__')], looked up
    along the [mro] of the class; [None] when [hasattr] is false. *)
Definition getattr_of {A} (own : ClassObj -> option A) (r : Registry)
    (c : nat) : option A :=
  match classes r !! c with
  | Some o => lookup_attr own r (c :: cls_mro o)
  | None => None
  end.

Definition get___types__ : Registry -> nat -> option (list T) :=
  getattr_of cls_types.
Definition get___tag__ : Registry -> nat -> option Z := getattr_of cls_tag.

Definition set_SERIALIZERS (d : gmap T nat) (r : Registry) : Registry :=
  mkRegistry (classes r) d (TAGS r) (CURTAG r) (tags r).
Definition set_TAGS (d : gmap Z nat) (r : Registry) : Registry :=
  mkRegistry (classes r) (SERIALIZERS r) d (CURTAG r) (tags r).

(** [SetSerializer(tp, ser)] *)
Definition SetSerializer (tp : T) (ser : nat) (r : Registry)
    : Result Registry :=
  let r1 := set_SERIALIZERS (<[tp := ser]> (SERIALIZERS r)) r in
  match get___tag__ r1 ser with
  | Some t => Ok (set_TAGS (<[t := ser]> (TAGS r1)) r1)
  | None => Raise (AttributeError "object has no attribute '__tag__'")
  end.

(** [UpdateSerializer(ser)]: the types registered for [ser] are collected
    and taken out of [SERIALIZERS], then each of [ser.__types__] is set. *)
Definition UpdateSerializer (ser : nat) (r : Registry) : Result Registry :=
  let remove :=
    map fst (filter (fun e => snd e = ser) (map_to_list (SERIALIZERS r))) in
  let d1 := fold_left (fun d tp => delete tp d) remove (SERIALIZERS r) in
  match get___types__ r ser with
  | Some types =>
      Ok (set_SERIALIZERS (fold_left (fun d tp => <[tp := ser]> d) types d1)
            r)
  | None => Raise (AttributeError "object has no attribute '__types__'")
  end.

(** A class statement: the name, the class derived from ([None] for
    [object]) and what the body binds. *)
Record ClassStatement : Type := mkClassStatement {
  st_name : string;
  st_base : option nat;
  st_types : option (list T);
  st_tag : option Z
}.

(** [type.__new__(mcs, name, bases, dict)]: the new class object, at the
    end of the heap. *)
Definition type_new (st : ClassStatement) (r : Registry) : nat * Registry :=
  let mro :=
    match st_base st with
    | Some base =>
        match classes r !! base with
        | Some o => base :: cls_mro o
        | None => []
        end
    | None => []
    end in
  (length (classes r),
   mkRegistry
     (classes r ++ [mkClassObj (st_name st) mro (st_types st) (st_tag st)])
     (SERIALIZERS r) (TAGS r) (CURTAG r) (tags r)).

(** [tp.__tag__ = CURTAG] *)
Definition set___tag__ (c : nat) (t : Z) (r : Registry) : Registry :=
  mkRegistry
    (alter (fun o => mkClassObj (cls_name o) (cls_mro o) (cls_types o)
                       (Some t)) c (classes r))
    (SERIALIZERS r) (TAGS r) (CURTAG r) (tags r).

(** [SerializerMeta.__new__]: the class it returns, and the registry
    after it. *)
Definition SerializerMeta___new__ (st : ClassStatement) (r : Registry)
    : Result (nat * Registry) :=
  let (tp, r1) := type_new st r in
  bind (match get___types__ r1 tp with
        | Some _ => UpdateSerializer tp r1
        | None => Ok r1
        end) (fun r2 =>
  let r3 :=
    match get___tag__ r2 tp with
    | Some _ => r2
    | None => set___tag__ tp (CURTAG r2) r2
    end in
  match get___tag__ r3 tp with
  | None => Raise (AttributeError "type object has no attribute '__tag__'")
  | Some t =>
      bind (TAG_USER (tags r3)) (fun user =>
      Ok (tp,
          mkRegistry (classes r3) (SERIALIZERS r3) (<[t := tp]> (TAGS r3))
            (Z.min user (t + 1)) (tags r3)))
  end).

(** The tag a class statement ends up with: the one its body binds, else
    the one of the nearest class it derives from that has one, else
    [CURTAG]. *)
Definition tag_given (st : ClassStatement) (r : Registry) : Z :=
  match st_tag st with
  | Some t => t
  | None =>
      match st_base st with
      | Some base =>
          match get___tag__ r base with
          | Some t => t
          | None => CURTAG r
          end
      | None => CURTAG r
      end
  end.

(** The class statements of a module, one after the other. *)
Fixpoint load (sts : list ClassStatement) (r : Registry) : Result Registry :=
  match sts with
  | [] => Ok r
  | st :: sts' =>
      bind (SerializerMeta___new__ st r) (fun cr => load sts' (snd cr))
  end.

End Classes.

Arguments ClassObj T : clear implicits.
Arguments Registry T {_ _}.
Arguments ClassStatement T : clear implicits.

(** The module before its first class statement: [SERIALIZERS={}],
    [TAGS={}], [CURTAG=0]. *)
Definition initial : Registry PyType := mkRegistry [] ∅ ∅ 0 TAG_attrs.

(** The class statements of the module, in the order of the file:
    [BaseSerializer] derives from [object], the others from
    [BaseSerializer], the first class of the heap. *)
Definition module_classes : list (ClassStatement PyType) :=
  [ mkClassStatement "BaseSerializer" None None None;
    mkClassStatement "IntSerializer" (Some O) (Some [t_int]) (Some TAG.INT);
    mkClassStatement "LongSerializer" (Some O) (Some [t_long])
      (Some TAG.LONG);
    mkClassStatement "FloatSerializer" (Some O) (Some [t_float])
      (Some TAG.FLOAT);
    mkClassStatement "BytesSerializer" (Some O) (Some [t_str])
      (Some TAG.BYTES);
    mkClassStatement "TextSerializer" (Some O) (Some [t_unicode])
      (Some TAG.TEXT);
    mkClassStatement "BoolSerializer" (Some O) (Some [t_bool])
      (Some TAG.BOOL);
    mkClassStatement "SequenceSerializer" (Some O)
      (Some [t_list; t_tuple; t_set]) (Some TAG.SEQ);
    mkClassStatement "MapSerializer" (Some O) (Some [t_dict]) (Some TAG.MAP);
    mkClassStatement "ByteSerializer" (Some O) None (Some TAG.BYTE);
    mkClassStatement "NoneSerializer" (Some O) (Some [t_NoneType])
      (Some TAG.NONE);
    mkClassStatement "SliceSerializer" (Some O) (Some [t_slice])
      (Some TAG.SLICE);
    mkClassStatement "EllipsisSerializer" (Some O) (Some [t_ellipsis])
      (Some TAG.ELLIPSIS);
    mkClassStatement "ErrorSerializer" (Some O) (Some [t_Exception])
      (Some TAG.ERROR) ]%string.

(** The class of the heap a serializer of the codec is: the classes are
    created in the order [Serializer] lists them. *)
Definition class_id (se : Serializer) : nat :=
  match se with
  | BaseSerializer => 0 | IntSerializer => 1 | LongSerializer => 2
  | FloatSerializer => 3 | BytesSerializer => 4 | TextSerializer => 5
  | BoolSerializer => 6 | SequenceSerializer => 7 | MapSerializer => 8
  | ByteSerializer => 9 | NoneSerializer => 10 | SliceSerializer => 11
  | EllipsisSerializer => 12 | ErrorSerializer => 13
  end%nat.

(** The registry once the module is imported. *)
Definition loaded : Registry PyType :=
  match load module_classes initial with
  | Ok r => r
  | Raise _ => initial
  end.

End Registry.


(* ================================================================== *)
(** * packet.py: reading a packet, deleting an attribute               *)
(* ================================================================== *)

Module PktIO.
Import Host Codec Pkt.

(** [Packet.__delattr__(self, attr)]: [del self.attrs[attr]], for [cmd]
    and [attrs] as for any other [attr]; what it raises, if it does, and
    the packet after it. *)
Definition Packet___delattr__ (self : Packet) (attr : string)
    : Result unit * Packet :=
  let (m, self1) := get_attrs self in
  match m !! attr with
  | Some _ => (Ok tt, mkPacket (cmd self1) (Some (delete attr m)))
  | None => (Raise KeyError, self1)
  end.

(** The names an instance answers for without [__getattr__], or sets
    without [attrs]: [cmd] and [attrs], the attributes of the class and
    those of [object]. *)
Definition reserved_names : list string :=
  [ "cmd"; "attrs"; "FromStr"; "Make"; "Has"; "__init__"; "__getattr__";
    "__setattr__"; "__delattr__"; "__str__"; "__repr__"; "__dict__";
    "__module__"; "__weakref__"; "__doc__"; "__class__"; "__format__";
    "__getattribute__"; "__hash__"; "__new__"; "__reduce__";
    "__reduce_ex__"; "__sizeof__"; "__subclasshook__" ]%string.

Definition reserved (attr : string) : bool :=
  bool_decide (attr ∈ reserved_names).

(** The name a [str] key is as a keyword. *)
Definition keyword_of (k : Value) : string :=
  match k with
  | VStr s => string_of_list_byte s
  | _ => ""%string
  end.

Definition is_str (v : Value) : bool :=
  match v with VStr _ => true | _ => false end.

Definition is_unicode (v : Value) : bool :=
  match v with VUnicode _ => true | _ => false end.

(** What [Packet.FromStr] gives: the packet, an exception of the model, or
    the [IndexError] of [s[0]]. *)
Inductive Parsed : Type :=
| ParseOk (p : Packet)
| ParseRaise (e : PyExc)
| ParseIndexError.

Section Parse.
Variable py_eq : Value -> Value -> bool.
Variable set_order : list Value -> list Value.
Variable codec_table : bytes -> option (bytes -> Result (list Z)).
Variable construct : bytes -> list Value -> Result Value.

(** A keyword may be a [unicode] too; a packet of the model has [str]
    keys only, so what the call makes of a mapping with [unicode] keys
    (and no key of another type) is left to [unicode_keywords]. *)
Variable unicode_keywords : list (Value * Value) -> Result (gmap string Value).

(** The keyword arguments [**mapping] passes to [Packet.__init__(self,
    cmd, **kwargs)]: the mapping is a dictionary, its keys are strings, and
    none is the name of a parameter the call has a value for already. *)
Definition keywords (mapping : Value) : Result (gmap string Value) :=
  match mapping with
  | VDict items =>
      if forallb (fun kv => is_str (fst kv)) items then
        let kws := map (fun kv => (keyword_of (fst kv), snd kv)) items in
        if existsb (fun kw => bool_decide (fst kw = "cmd"%string)
                              || bool_decide (fst kw = "self"%string)) kws
        then Raise TypeError
        else Ok (list_to_map kws)
      else if forallb (fun kv => is_str (fst kv) || is_unicode (fst kv)) items
      then unicode_keywords items
      else Raise TypeError
  | _ => Raise TypeError
  end.

(** [cls(ord(s[0]), **serialize.Deserialize(s[1:]))], with what
    [serialize.Deserialize] is in the process. *)
Definition Packet_FromStr_with (Deserialize : bytes -> Result Value)
    (s : bytes) : Parsed :=
  match s with
  | [] => ParseIndexError
  | c :: rest =>
      match bind (Deserialize rest) keywords with
      | Ok kw => ParseOk (Packet___init__ (Z_of_byte c) kw)
      | Raise e => ParseRaise e
      end
  end.

(** [Packet.FromStr(s)], with the serializers of the module. *)
Definition Packet_FromStr (s : bytes) : Parsed :=
  Packet_FromStr_with (Deserialize py_eq set_order codec_table construct) s.

(** [Packet.Make(obj)], for a packet or a string. *)
Definition Packet_Make (obj : Packet + bytes) : Parsed :=
  match obj with
  | inl p => ParseOk p
  | inr s => Packet_FromStr s
  end.

End Parse.

End PktIO.

(* ================================================================== *)
(** * service.py: connections and the reader loop                      *)
(* ================================================================== *)

Module Serve.
Import Host Codec Pkt PktIO Service.

Section Serve.
Variable Obj : Type.
Variable id : Obj -> Z.
Variable py_eq : Value -> Value -> bool.
Variable set_order : list Value -> list Value.
Variable py_lt : Value -> Value -> bool.
Variable sorted_partial : list Value -> Result (list nat).
Variable codec_table : bytes -> option (bytes -> Result (list Z)).
Variable construct : bytes -> list Value -> Result Value.
Variable unicode_keywords : list (Value * Value) -> Result (gmap string Value).


Notation "'let!' x ':=' m 'in' k" := (bindM m (fun x => k))
  (at level 10, x name, m at level 200, k at level 200, only parsing).

(** [Service.__init__]: the address the socket is bound to and four empty
    tables; [XID] and [WAITING] are of the classes, and are left as they
    are.  The translator it registers for [object] and the tag 255 is the
    one [Deserialize_served] reads with. *)
Definition Service___init__ (a : Value) (s : State Obj) : State Obj :=
  mkState (XID s) a ∅ ∅ ∅ [] (WAITING s) (heap s) (events s).

(** [serialize.Deserialize] once [Service.__init__] has called
    [SetSerializer(object, ObjectTranslator(self))]: [TAGS[255]] is the
    translator of the service.  What the translator reads is an object of
    the host or a proxy, and no value of the model: the reader stops at the
    tag with [LocalObject], which is no exception of the program.  Up to
    there it is [Deserialize]. *)
Fixpoint Deserialize_served (fuel : nat) (stream : bytes)
    : Result (Value * bytes) :=
  match fuel with
  | O => Raise OutOfFuel
  | S fuel' =>
      bind (ByteSerializer_Deserialize stream) (fun r =>
      if fst r =? 255 then Raise LocalObject
      else
        match TAGS (fst r) with
        | None => Raise KeyError
        | Some se =>
            se_Deserialize_with py_eq set_order codec_table construct
              (Deserialize_served fuel')
              se (snd r)
        end)
  end.

Definition Deserialize_in_service (s : bytes) : Result Value :=
  bind (Deserialize_served (S (length s)) s) (fun r => Ok (fst r)).

(** [Packet.FromStr(s)] in the process of the service. *)
Definition Packet_FromStr_served (s : bytes) : Parsed :=
  Packet_FromStr_with unicode_keywords Deserialize_in_service s.

(** [Service.Disconnect] *)
Definition Disconnect (a : Value) : M Obj unit :=
  let! cli := GetClient py_eq a in
  let! _ := SendPacket cli (Some CMD.DESYNC) ∅ in
  ret tt.

(** [Service.Connect]; [None] when the thread never returns from [Wait]. *)
Definition Connect (a : Value) (arrivals : list (list Packet))
    : M Obj (option Client) :=
  if hashable a then
    let! cs := gets clients in
    match dict_lookup py_eq cs a with
    | None =>
        let! cli := GetClient py_eq a in
        let! act := SendPacket cli (Some CMD.SYNC) ∅ in
        let! res := DeferredResult_Wait py_eq py_lt sorted_partial act arrivals in
        match res with
        | None => ret None
        | Some _ => ret (Some cli)
        end
    | Some cli => ret (Some cli)
    end
  else raise TypeError.

(** [Service.Resolve] and [Service.List] *)
Definition Resolve (cli : Client) (name : Value)
    (arrivals : list (list Packet)) : M Obj (option Value) :=
  let! act := SendPacket cli (Some CMD.RESOLVE)
                (kw [("name"%string, name)]) in
  DeferredResult_Wait py_eq py_lt sorted_partial act arrivals.

Definition List (cli : Client) (arrivals : list (list Packet))
    : M Obj (option Value) :=
  let! act := SendPacket cli (Some CMD.LIST) ∅ in
  DeferredResult_Wait py_eq py_lt sorted_partial act arrivals.

(** ** The reader thread *)

(** [self.sock.sendto(data, addr)] *)
Definition sendto (data : bytes) (a : Value) : M Obj unit :=
  modify (emit (EvSendto data a)).

(** [self.sock.sendto(str(pkt), cli.addr)] *)
Definition reply (pkt : Packet) (cli : Client) : M Obj unit :=
  let! data := lift (Packet___str__ py_lt sorted_partial pkt) in
  sendto data (cli_addr cli).

(** [del d[key]]; [None] for a [KeyError]. *)
Fixpoint dict_remove {V} (d : list (Value * V)) (key : Value)
    : option (list (Value * V)) :=
  match d with
  | [] => None
  | (k, v) :: d' =>
      if py_eq k key then Some d'
      else option_map (cons (k, v)) (dict_remove d' key)
  end.

(** [del self.clients[cli.addr]] *)
Definition del_client (cli : Client) : M Obj unit := fun s =>
  if hashable (cli_addr cli) then
    match dict_remove (clients s) (cli_addr cli) with
    | Some cs => (Ok tt, set_clients cs s)
    | None => (Raise KeyError, s)
    end
  else (Raise TypeError, s).

(** [Service.cmd_SYNC], with the authorizer the service has when it is
    given none. *)
Definition cmd_SYNC (pkt : Packet) (cli : Client) : M Obj unit :=
  if CanClientSync cli then
    let! x := lift (get pkt "xid") in
    reply (Packet___init__ CMD.SYNC
             (kw [("xid"%string, x); ("result"%string, VBool true)])) cli
  else
    let! x := lift (get pkt "xid") in
    let! _ := reply (Packet___init__ CMD.SYNC
                (kw [("xid"%string, x); ("result"%string, VBool false)]))
                cli in
    del_client cli.

(** [Service.cmd_DESYNC] *)
Definition cmd_DESYNC (pkt : Packet) (cli : Client) : M Obj unit :=
  del_client cli.

(** [self.pubmap.keys()]: the names, in the order the dictionary of the
    host has them. *)
Variable pubmap_keys : gmap string Z -> list string.

(** [Service.cmd_LIST] *)
Definition cmd_LIST (pkt : Packet) (cli : Client) : M Obj unit :=
  let! names := gets (fun s => pubmap_keys (pubmap s)) in
  reply (set pkt "result" (VSeq KList (map (fun n => VStr (b n)) names))) cli.

(** [Service.cmd_Unknown] *)
Definition cmd_Unknown (pkt : Packet) (cli : Client) : M Obj unit :=
  reply (set pkt "error" (VExc (b "NameError") [VStr (b "Unknown command")]))
    cli.

(** The key of [pubmap] a name is equal to, if it can be to one: the keys
    are [str], and a [unicode] is equal to the [str] of the same ASCII
    characters.  A name that cannot be hashed raises [TypeError]. *)
Definition pubmap_key (name : Value) : Result (option string) :=
  match name with
  | VStr s => Ok (Some (string_of_list_byte s))
  | VUnicode s =>
      if forallb (fun c => (0 <=? c) && (c <? 128)) s
      then Ok (Some (string_of_list_byte (map byte_of_Z s)))
      else Ok None
  | _ => if hashable name then Ok None else Raise TypeError
  end.

(** The handlers that send a local object, which no packet of the model
    holds: the rest of [cmd_RESOLVE] once the object is found, and
    [cmd_PULL], which starts a thread. *)
Variable reply_with_object : Packet -> Obj -> Client -> M Obj unit.
Variable cmd_PULL : Packet -> Client -> M Obj unit.

(** [Service.cmd_RESOLVE] *)
Definition cmd_RESOLVE (pkt : Packet) (cli : Client) : M Obj unit :=
  let! name := lift (get pkt "name") in
  let! key := lift (pubmap_key name) in
  let! pm := gets pubmap in
  match match key with Some k => pm !! k | None => None end with
  | Some oid =>
      let! om := gets omap in
      match om !! oid with
      | Some obj => reply_with_object pkt obj cli
      | None => raise KeyError
      end
  | None =>
      reply (set pkt "error" (VExc (b "NameError") [VStr (b "No such name")]))
        cli
  end.

(** [CMD.NAMES[cmd]]: the name of the member of [CMD] whose value is
    [cmd]; the two other keys of the dictionary are no integers. *)
Definition CMD_NAMES (c : Z) : Result string :=
  match List.find (fun m => snd m =? c) CMD.members with
  | Some m => Ok (fst m)
  | None => Raise KeyError
  end.

(** [getattr(self, 'cmd_' + name, self.cmd_Unknown)] *)
Definition cmd_handler (name : string) : Packet -> Client -> M Obj unit :=
  if String.eqb name "SYNC" then cmd_SYNC
  else if String.eqb name "DESYNC" then cmd_DESYNC
  else if String.eqb name "PULL" then cmd_PULL
  else if String.eqb name "RESOLVE" then cmd_RESOLVE
  else if String.eqb name "LIST" then cmd_LIST
  else cmd_Unknown.

(** What the loop does with a datagram in which the reader came to a
    handle, from the client [cli] on: the handle is looked up in [omap], or
    a proxy is made for it and its service becomes a client, and the packet
    that holds the object is handled, if the rest of the datagram is
    read. *)
Variable handle_turn : bytes -> Client -> M Obj unit.

(** One turn of the loop of [Service.run], on the datagram [data] received
    from [src]. *)
Definition run_turn (data : bytes) (src : Value) : M Obj unit :=
  let! cli := GetClient py_eq src in
  match Packet_FromStr_served data with
  | ParseOk pkt =>
      if Has pkt ["result"%string] || Has pkt ["error"%string]
      then SendAll py_eq pkt
      else
        let! c := lift (bind (get_cmd pkt) (fun r => Ok (fst r))) in
        let! name := lift (CMD_NAMES c) in
        cmd_handler name pkt cli
  | ParseRaise LocalObject => handle_turn data cli
  | ParseRaise _ | ParseIndexError => ret tt
  end.

(** ** What the properties of the reader are stated with *)

(** The datagrams sent, oldest first. *)
Definition sent (s : State Obj) : list (bytes * Value) :=
  flat_map (fun e => match e with
                     | EvSendto data a => [(data, a)]
                     | _ => []
                     end) (events s).

(** A packet that is no reply to the transaction [x]: it has a
    transaction number, and it is another. *)
Definition elsewhere (x : Z) (ev : Packet) : Prop :=
  exists xv, get ev "xid" = Ok xv /\ py_eq xv (VInt x) = false.

(** Every public name is the name of an object the service tracks. *)
Definition names_tracked (s : State Obj) : Prop :=
  map_Forall (fun _ oid => is_Some (Service.omap s !! oid)) (pubmap s).

(** What the owner of the tables does with them. *)
Inductive TableOp : Type :=
| OpRegister (obj : Obj) (name : string)
| OpUnregister (name : string)
| OpSerialize (obj : Obj).

Definition table_op (o : TableOp) (s : State Obj) : State Obj :=
  match o with
  | OpRegister obj name => snd (Register id obj name s)
  | OpUnregister name => snd (Unregister name s)
  | OpSerialize obj => snd (ObjectTranslator_Serialize id py_lt sorted_partial obj s)
  end.

End Serve.

Arguments Service___init__ {Obj}.
Arguments Disconnect {Obj}.
Arguments Connect {Obj}.
Arguments Resolve {Obj}.
Arguments List {Obj}.
Arguments sendto {Obj}.
Arguments reply {Obj}.
Arguments del_client {Obj}.
Arguments cmd_SYNC {Obj}.
Arguments cmd_DESYNC {Obj}.
Arguments cmd_LIST {Obj}.
Arguments cmd_Unknown {Obj}.
Arguments cmd_RESOLVE {Obj}.
Arguments cmd_handler {Obj}.
Arguments run_turn {Obj}.
Arguments sent {Obj}.
Arguments names_tracked {Obj}.
Arguments table_op {Obj}.

End Serve.

(* ================================================================== *)
(** * More of the sample host                                          *)
(* ================================================================== *)

Module Examples.
Import Host Codec Pkt PktIO Service Serve.

(** The sample host takes no [unicode] keyword. *)
Definition unicode_keywords (items : list (Value * Value))
    : Result (gmap string Value) :=
  Raise TypeError.

(** The attributes of a pull of the item 3 of the object 7. *)
Definition pull_attrs : gmap string Value :=
  <["xid"%string := VInt 5]>
    (<["op"%string := VStr (b "GetItem")]>
       (<["oid"%string := VLong 7]> (<["item"%string := VInt 3]> ∅))).

(** The objects of the sample service are [int]s, and an object is its
    id: the reply that resolves a name carries the [int]. *)
Definition reply_with_object (pkt : Packet) (obj : Z) (cli : Client)
    : M Z unit :=
  reply Sample.py_lt Sample.sorted_partial (set pkt "result" (VInt obj)) cli.

(** The thread [cmd_PULL] starts is not followed. *)
Definition cmd_PULL (pkt : Packet) (cli : Client) : M Z unit := ret tt.

(** Neither is a datagram that holds a handle. *)
Definition handle_turn (data : bytes) (cli : Client) : M Z unit := ret tt.

(** The sample host lists the names in the order of the table. *)
Definition pubmap_keys (m : gmap string Z) : list string :=
  map fst (map_to_list m).

(** The sample service after 2^31 requests. *)
Definition worn : State Z :=
  mkState 2147483648 (VSeq KTuple Sample.own_addr) ∅ ∅ ∅ [] [] [] [].

(** The peer as a client, and the sample service with the peer as its one
    client. *)
Definition peer : Client := mkClient (VSeq KTuple Sample.peer_addr).

Definition visited : State Z :=
  mkState 0 (VSeq KTuple Sample.own_addr) ∅ ∅ ∅
    [(VSeq KTuple Sample.peer_addr, peer)] [] [] [].

(** The attributes of a request that has a transaction number only, and
    the bytes they are written as. *)
Definition xid_only : gmap string Value := kw [("xid"%string, VInt 5)].

Definition xid_only_body : bytes :=
  Sample.written (Serialize Sample.py_lt Sample.sorted_partial (dict_of xid_only)).

(** What the first request of a service is sent with. *)
Definition xid_zero : gmap string Value := kw [("xid"%string, VInt 0)].

(** The reply to the first [LIST] of a service: no name is public. *)
Definition list_reply : Packet :=
  Packet___init__ CMD.LIST
    (kw [("xid"%string, VInt 0); ("result"%string, VSeq KList [])]).

End Examples.

(* ================================================================== *)
(** * Facts about the host runtime                                     *)
(* ================================================================== *)

Module HostFacts.
Import Host.


(** ** Bytes and big-endian words *)

Lemma Z_of_byte_range (x : byte) : 0 <= Z_of_byte x < 256.
Proof.
  unfold Z_of_byte. pose proof (Byte.to_N_bounded x). lia.
Qed.

Lemma Z_of_byte_of_Z (z : Z) : Z_of_byte (byte_of_Z z) = z mod 256.
Proof.
  unfold Z_of_byte, byte_of_Z.
  assert (Hr : 0 <= z mod 256 < 256) by (apply Z.mod_pos_bound; lia).
  destruct (Byte.of_N (Z.to_N (z mod 256))) as [x|] eqn:E.
  - apply Byte.to_of_N in E. rewrite E. lia.
  - apply Byte.of_N_None_iff in E. lia.
Qed.

Lemma Z_of_byte_of_small (z : Z) : 0 <= z < 256 -> Z_of_byte (byte_of_Z z) = z.
Proof. intros H. rewrite Z_of_byte_of_Z. apply Z.mod_small. lia. Qed.

Lemma be_decode_acc (bs : bytes) (acc : Z) :
  fold_left (fun a x => a * 256 + Z_of_byte x) bs acc
  = acc * 256 ^ Z.of_nat (length bs) + be_decode bs.
Proof.
  unfold be_decode. revert acc.
  induction bs as [|x bs IH]; intros acc; simpl fold_left.
  - simpl. lia.
  - rewrite IH. rewrite (IH (0 * 256 + Z_of_byte x)).
    replace (Z.of_nat (length (x :: bs))) with (Z.of_nat (length bs) + 1)
      by (simpl length; lia).
    rewrite Z.pow_add_r by lia. lia.
Qed.

Lemma length_be_encode (n : nat) (u : Z) : length (be_encode n u) = n.
Proof. induction n; simpl; congruence. Qed.

Lemma be_decode_encode (n : nat) (u : Z) :
  be_decode (be_encode n u) = u mod 256 ^ Z.of_nat n.
Proof.
  induction n as [|n IH].
  - simpl. now rewrite Z.mod_1_r.
  - simpl be_encode. unfold be_decode. simpl fold_left.
    rewrite be_decode_acc, IH, length_be_encode, Z_of_byte_of_Z.
    replace (Z.of_nat (S n)) with (Z.of_nat n + 1) by lia.
    rewrite Z.pow_add_r by lia. change (256 ^ 1) with 256.
    assert (0 < 256 ^ Z.of_nat n) by (apply Z.pow_pos_nonneg; lia).
    rewrite (Z.rem_mul_r u (256 ^ Z.of_nat n) 256) by lia.
    lia.
Qed.

(** ** [struct] *)

Lemma struct_l_roundtrip (n : Z) (bs : bytes) :
  struct_pack_l n = Ok bs -> length bs = 4%nat /\ struct_unpack_l bs = Ok n.
Proof.
  unfold struct_pack_l, struct_unpack_l.
  destruct ((- 2 ^ 31 <=? n) && (n <? 2 ^ 31)) eqn:E; [|discriminate].
  pose proof (length_be_encode 4 (n mod 2 ^ 32)) as Hl.
  pose proof (be_decode_encode 4 (n mod 2 ^ 32)) as Hd.
  remember (be_encode 4 (n mod 2 ^ 32)) as w eqn:Hw. clear Hw.
  intros H. assert (bs = w) by congruence. subst bs. clear H.
  split; [exact Hl|]. rewrite Hl, Hd. simpl Nat.eqb. cbv iota.
  apply andb_prop in E as [E1 E2].
  apply Z.leb_le in E1. apply Z.ltb_lt in E2.
  change (256 ^ Z.of_nat 4) with 4294967296.
  change (2 ^ 32) with 4294967296. change (2 ^ 31) with 2147483648 in *.
  f_equal.
  destruct (Z.ltb_spec ((n mod 4294967296) mod 4294967296) 2147483648);
    Z.div_mod_to_equations; lia.
Qed.

Lemma struct_pack_l_Ok (n : Z) :
  - 2 ^ 31 <= n < 2 ^ 31 -> exists bs, struct_pack_l n = Ok bs.
Proof.
  intros [H1 H2]. unfold struct_pack_l.
  apply Z.leb_le in H1. apply Z.ltb_lt in H2. rewrite H1, H2. simpl. eauto.
Qed.

Lemma struct_B_roundtrip (n : Z) (bs : bytes) :
  struct_pack_B n = Ok bs -> length bs = 1%nat /\ struct_unpack_B bs = Ok n.
Proof.
  unfold struct_pack_B, struct_unpack_B.
  destruct ((0 <=? n) && (n <? 256)) eqn:E; [|discriminate].
  pose proof (length_be_encode 1 n) as Hl.
  pose proof (be_decode_encode 1 n) as Hd.
  remember (be_encode 1 n) as w eqn:Hw. clear Hw.
  intros H. assert (bs = w) by congruence. subst bs. clear H.
  split; [exact Hl|]. rewrite Hl, Hd. simpl Nat.eqb. cbv iota.
  apply andb_prop in E as [E1 E2].
  apply Z.leb_le in E1. apply Z.ltb_lt in E2.
  change (256 ^ Z.of_nat 1) with 256. f_equal. apply Z.mod_small. lia.
Qed.

Lemma struct_d_roundtrip (bits : Z) :
  0 <= bits < 2 ^ 64 ->
  length (struct_pack_d bits) = 8%nat
  /\ struct_unpack_d (struct_pack_d bits) = Ok bits.
Proof.
  intros Hb. unfold struct_pack_d, struct_unpack_d.
  pose proof (length_be_encode 8 (bits mod 2 ^ 64)) as Hl.
  pose proof (be_decode_encode 8 (bits mod 2 ^ 64)) as Hd.
  remember (be_encode 8 (bits mod 2 ^ 64)) as w eqn:Hw. clear Hw.
  split; [exact Hl|]. rewrite Hl, Hd. simpl Nat.eqb. cbv iota.
  change (256 ^ Z.of_nat 8) with (2 ^ 64).
  rewrite Z.mod_mod by lia. f_equal. apply Z.mod_small. lia.
Qed.

(** ** [read] *)

Lemma read_app (n : Z) (bs rest : bytes) :
  n = Z.of_nat (length bs) -> read n (bs ++ rest) = (bs, rest).
Proof.
  intros ->. unfold read.
  destruct (Z.ltb_spec (Z.of_nat (length bs)) 0); [lia|].
  rewrite Nat2Z.id. now rewrite take_app_length, drop_app_length.
Qed.

(** ** [str] and [long] *)

Definition digit (c : byte) : bool :=
  match c with
  | "0" | "1" | "2" | "3" | "4" | "5" | "6" | "7" | "8" | "9" => true
  | _ => false
  end%byte.

Lemma bytes_of_uint_digits (d : Decimal.uint) :
  Forall (fun c => digit c = true) (bytes_of_uint d).
Proof. induction d; simpl; constructor; auto. Qed.

Lemma uint_of_bytes_of_uint (d : Decimal.uint) :
  uint_of_bytes (bytes_of_uint d) = Some d.
Proof. induction d; simpl; try rewrite IHd; reflexivity. Qed.

Lemma bytes_of_uint_nonnil (d : Decimal.uint) :
  d <> Decimal.Nil -> bytes_of_uint d <> [].
Proof. destruct d; simpl; congruence. Qed.

Lemma digit_not_space (c : byte) : digit c = true -> is_space c = false.
Proof. destruct c; simpl; congruence. Qed.

Lemma lstrip_id (c : byte) (s : bytes) :
  is_space c = false -> lstrip (c :: s) = c :: s.
Proof. intros H. simpl. now rewrite H. Qed.

(** A string that ends in a digit and starts with no blank is what
    [strip] and [drop_L_suffix] leave of it. *)
Lemma strip_id (c : byte) (s : bytes) :
  is_space c = false ->
  (exists s0 z, c :: s = s0 ++ [z] /\ digit z = true) ->
  strip (c :: s) = c :: s /\ drop_L_suffix (c :: s) = c :: s.
Proof.
  intros Hc (s0 & z & E & Hz). unfold strip, drop_L_suffix.
  rewrite (lstrip_id c s Hc), E, rev_app_distr.
  change (rev [z]) with [z]. cbn [app]. rewrite (lstrip_id z _ (digit_not_space z Hz)).
  split.
  - change (z :: rev s0) with ([z] ++ rev s0).
    now rewrite rev_app_distr, rev_involutive.
  - destruct z; simpl in Hz; try discriminate; reflexivity.
Qed.

Lemma digits_end (s : bytes) :
  Forall (fun c => digit c = true) s -> s <> [] ->
  exists s0 z, s = s0 ++ [z] /\ digit z = true.
Proof.
  intros HF Hne. destruct s as [|z s0 _] using rev_ind; [congruence|].
  exists s0, z. split; [reflexivity|].
  apply Forall_app in HF as [_ HF]. now inversion HF.
Qed.

Lemma digits_to_Z_of_uint (neg : bool) (d : Decimal.uint) :
  d <> Decimal.Nil ->
  digits_to_Z neg (bytes_of_uint d)
  = Ok (if neg then - Z.of_uint d else Z.of_uint d).
Proof.
  intros Hd. unfold digits_to_Z. rewrite uint_of_bytes_of_uint.
  destruct (bytes_of_uint d) eqn:E; [|reflexivity].
  now apply bytes_of_uint_nonnil in E.
Qed.

Lemma to_int_nonnil (n : Z) :
  match Z.to_int n with Decimal.Pos d | Decimal.Neg d => d <> Decimal.Nil end.
Proof.
  destruct n; simpl; [congruence| |]; apply Unsigned.to_uint_nonnil.
Qed.

Lemma long_of_str_of_long (n : Z) : long_of_str (str_of_long n) = Ok n.
Proof.
  pose proof (DecimalZ.of_to n) as Hn. pose proof (to_int_nonnil n) as Hd.
  unfold long_of_str, str_of_long.
  destruct (Z.to_int n) as [d|d]; simpl in Hn.
  - pose proof (bytes_of_uint_digits d) as HF.
    pose proof (digits_to_Z_of_uint false d Hd) as HZ.
    destruct (bytes_of_uint d) as [|c s] eqn:E.
    { now apply bytes_of_uint_nonnil in E. }
    assert (Hc : digit c = true) by now inversion HF.
    destruct (strip_id c s (digit_not_space c Hc)) as [-> ->].
    { apply digits_end; [exact HF|congruence]. }
    destruct c; simpl in Hc; try discriminate; rewrite HZ; now subst.
  - pose proof (bytes_of_uint_digits d) as HF.
    pose proof (digits_to_Z_of_uint true d Hd) as HZ.
    destruct (strip_id "-"%byte (bytes_of_uint d) eq_refl) as [-> ->].
    { destruct (digits_end _ HF (bytes_of_uint_nonnil d Hd)) as (s0 & z & E & Hz).
      exists ("-"%byte :: s0), z. now rewrite E. }
    rewrite HZ. now subst.
Qed.


Ltac zbool :=
  repeat (match goal with
  | |- context [?a <? ?b] => destruct (Z.ltb_spec a b); try lia
  | |- context [?a <=? ?b] => destruct (Z.leb_spec a b); try lia
  | |- context [?a =? ?b] => destruct (Z.eqb_spec a b); try lia
  end; cbn [andb negb orb]).

Lemma utf8_decode_1 (x0 : byte) (rest : bytes) :
  Z_of_byte x0 < 128 ->
  utf8_decode (x0 :: rest) = Z_of_byte x0 :: utf8_decode rest.
Proof.
  intros H. cbn [utf8_decode]. generalize dependent (Z_of_byte x0).
  intros a0 H. cbv zeta. zbool; reflexivity.
Qed.

Lemma utf8_decode_2 (x0 x1 : byte) (rest : bytes) :
  194 <= Z_of_byte x0 < 224 -> 128 <= Z_of_byte x1 < 192 ->
  utf8_decode (x0 :: x1 :: rest)
  = ((Z_of_byte x0 - 192) * 64 + (Z_of_byte x1 - 128)) :: utf8_decode rest.
Proof.
  intros H0 H1. cbn [utf8_decode]. unfold is_cont, cont_bits.
  generalize dependent (Z_of_byte x1). generalize dependent (Z_of_byte x0).
  intros a0 H0 a1 H1. cbv zeta. zbool; reflexivity.
Qed.

Lemma utf8_decode_3 (x0 x1 x2 : byte) (rest : bytes) :
  224 <= Z_of_byte x0 < 240 -> 128 <= Z_of_byte x1 < 192 ->
  128 <= Z_of_byte x2 < 192 ->
  (Z_of_byte x0 = 224 -> 160 <= Z_of_byte x1) ->
  utf8_decode (x0 :: x1 :: x2 :: rest)
  = ((Z_of_byte x0 - 224) * 4096 + (Z_of_byte x1 - 128) * 64
     + (Z_of_byte x2 - 128)) :: utf8_decode rest.
Proof.
  intros H0 H1 H2 H3.
  change (utf8_decode (x0 :: x1 :: x2 :: rest)) with
    (let c0 := Z_of_byte x0 in
     if c0 <? 128 then c0 :: utf8_decode (x1 :: x2 :: rest)
     else if (194 <=? c0) && (c0 <? 224) then
       if is_cont x1
       then ((c0 - 192) * 64 + cont_bits x1) :: utf8_decode (x2 :: rest)
       else REPLACEMENT :: utf8_decode (x1 :: x2 :: rest)
     else if (224 <=? c0) && (c0 <? 240) then
       if is_cont x1 && is_cont x2
          && negb ((c0 =? 224) && (Z_of_byte x1 <? 160))
       then ((c0 - 224) * 4096 + cont_bits x1 * 64 + cont_bits x2)
              :: utf8_decode rest
       else REPLACEMENT :: utf8_decode (x1 :: x2 :: rest)
     else if (240 <=? c0) && (c0 <? 245) then
       match rest with
       | x3 :: s4 =>
           if is_cont x1 && is_cont x2 && is_cont x3
              && negb ((c0 =? 240) && (Z_of_byte x1 <? 144))
              && negb ((c0 =? 244) && (143 <? Z_of_byte x1))
           then ((c0 - 240) * 262144 + cont_bits x1 * 4096
                 + cont_bits x2 * 64 + cont_bits x3) :: utf8_decode s4
           else REPLACEMENT :: utf8_decode (x1 :: x2 :: rest)
       | _ => REPLACEMENT :: utf8_decode (x1 :: x2 :: rest)
       end
     else REPLACEMENT :: utf8_decode (x1 :: x2 :: rest)).
  cbv zeta. unfold is_cont, cont_bits.
  generalize (utf8_decode (x1 :: x2 :: rest)) (utf8_decode (x2 :: rest)).
  intros t1 t2.
  generalize dependent (Z_of_byte x2). generalize dependent (Z_of_byte x1).
  generalize dependent (Z_of_byte x0).
  intros a0 H0 a1 H1 H3 a2 H2. zbool; reflexivity.
Qed.

Lemma utf8_decode_4 (x0 x1 x2 x3 : byte) (rest : bytes) :
  240 <= Z_of_byte x0 < 245 -> 128 <= Z_of_byte x1 < 192 ->
  128 <= Z_of_byte x2 < 192 -> 128 <= Z_of_byte x3 < 192 ->
  (Z_of_byte x0 = 240 -> 144 <= Z_of_byte x1) ->
  (Z_of_byte x0 = 244 -> Z_of_byte x1 <= 143) ->
  utf8_decode (x0 :: x1 :: x2 :: x3 :: rest)
  = ((Z_of_byte x0 - 240) * 262144 + (Z_of_byte x1 - 128) * 4096
     + (Z_of_byte x2 - 128) * 64 + (Z_of_byte x3 - 128)) :: utf8_decode rest.
Proof.
  intros H0 H1 H2 H3 H4 H5.
  change (utf8_decode (x0 :: x1 :: x2 :: x3 :: rest)) with
    (let c0 := Z_of_byte x0 in
     if c0 <? 128 then c0 :: utf8_decode (x1 :: x2 :: x3 :: rest)
     else if (194 <=? c0) && (c0 <? 224) then
       if is_cont x1
       then ((c0 - 192) * 64 + cont_bits x1)
              :: utf8_decode (x2 :: x3 :: rest)
       else REPLACEMENT :: utf8_decode (x1 :: x2 :: x3 :: rest)
     else if (224 <=? c0) && (c0 <? 240) then
       if is_cont x1 && is_cont x2
          && negb ((c0 =? 224) && (Z_of_byte x1 <? 160))
       then ((c0 - 224) * 4096 + cont_bits x1 * 64 + cont_bits x2)
              :: utf8_decode (x3 :: rest)
       else REPLACEMENT :: utf8_decode (x1 :: x2 :: x3 :: rest)
     else if (240 <=? c0) && (c0 <? 245) then
       if is_cont x1 && is_cont x2 && is_cont x3
          && negb ((c0 =? 240) && (Z_of_byte x1 <? 144))
          && negb ((c0 =? 244) && (143 <? Z_of_byte x1))
       then ((c0 - 240) * 262144 + cont_bits x1 * 4096
             + cont_bits x2 * 64 + cont_bits x3) :: utf8_decode rest
       else REPLACEMENT :: utf8_decode (x1 :: x2 :: x3 :: rest)
     else REPLACEMENT :: utf8_decode (x1 :: x2 :: x3 :: rest)).
  cbv zeta. unfold is_cont, cont_bits.
  generalize (utf8_decode (x1 :: x2 :: x3 :: rest))
    (utf8_decode (x2 :: x3 :: rest)) (utf8_decode (x3 :: rest)).
  intros t1 t2 t3.
  generalize dependent (Z_of_byte x3).
  generalize dependent (Z_of_byte x2). generalize dependent (Z_of_byte x1).
  generalize dependent (Z_of_byte x0).
  intros a0 H0 a1 H1 H4 H5 a2 H2 a3 H3. zbool; reflexivity.
Qed.

Ltac divmod c d q r :=
  pose proof (Z.div_mod c d ltac:(lia));
  pose proof (Z.mod_pos_bound c d ltac:(lia));
  generalize dependent (c mod d); generalize dependent (c / d);
  intros q r; intros.

Lemma utf8_decode_encode_cp (c : Z) (rest : bytes) :
  0 <= c <= 1114111 ->
  utf8_decode (utf8_encode_cp c ++ rest) = c :: utf8_decode rest.
Proof.
  intros Hc. unfold utf8_encode_cp.
  destruct (Z.ltb_spec c 128); [|destruct (Z.ltb_spec c 2048);
    [|destruct (Z.ltb_spec c 65536)]]; cbn [app].
  - rewrite utf8_decode_1; rewrite Z_of_byte_of_small by lia;
      [reflexivity|lia].
  - divmod c 64 q r.
    rewrite utf8_decode_2; rewrite ?Z_of_byte_of_small by lia;
      [f_equal; lia|lia|lia].
  - pose proof (Z.div_mod c 4096 ltac:(lia)) as E1.
    pose proof (Z.mod_pos_bound c 4096 ltac:(lia)) as B1.
    pose proof (Z.div_mod c 64 ltac:(lia)) as E2.
    pose proof (Z.mod_pos_bound c 64 ltac:(lia)) as B2.
    pose proof (Z.div_mod (c / 64) 64 ltac:(lia)) as E3.
    pose proof (Z.mod_pos_bound (c / 64) 64 ltac:(lia)) as B3.
    assert (E4 : c / 64 / 64 = c / 4096)
      by (rewrite Z.div_div by lia; reflexivity).
    rewrite E4 in E3. clear E4.
    generalize dependent ((c / 64) mod 64). generalize dependent (c / 64).
    generalize dependent (c mod 64). generalize dependent (c mod 4096).
    generalize dependent (c / 4096). intros.
    rewrite utf8_decode_3; rewrite ?Z_of_byte_of_small by lia;
      [f_equal; lia|lia..].
  - pose proof (Z.div_mod c 262144 ltac:(lia)) as E1.
    pose proof (Z.mod_pos_bound c 262144 ltac:(lia)) as B1.
    pose proof (Z.div_mod c 64 ltac:(lia)) as E2.
    pose proof (Z.mod_pos_bound c 64 ltac:(lia)) as B2.
    pose proof (Z.div_mod (c / 64) 64 ltac:(lia)) as E3.
    pose proof (Z.mod_pos_bound (c / 64) 64 ltac:(lia)) as B3.
    pose proof (Z.div_mod (c / 4096) 64 ltac:(lia)) as E5.
    pose proof (Z.mod_pos_bound (c / 4096) 64 ltac:(lia)) as B5.
    assert (E4 : c / 64 / 64 = c / 4096)
      by (rewrite Z.div_div by lia; reflexivity).
    assert (E6 : c / 4096 / 64 = c / 262144)
      by (rewrite Z.div_div by lia; reflexivity).
    rewrite E4 in E3. rewrite E6 in E5. clear E4 E6.
    generalize dependent ((c / 4096) mod 64).
    generalize dependent ((c / 64) mod 64). generalize dependent (c / 64).
    generalize dependent (c / 4096).
    generalize dependent (c mod 64). generalize dependent (c mod 262144).
    generalize dependent (c / 262144). intros.
    rewrite utf8_decode_4; rewrite ?Z_of_byte_of_small by lia;
      [f_equal; lia|lia..].
Qed.

Lemma utf8_encode_no_pair (s : list Z) :
  no_pair s = true -> utf8_encode s = concat (map utf8_encode_cp s).
Proof.
  induction s as [|c s IH]; [reflexivity|].
  destruct s as [|c2 s]; intros H.
  - cbn. now rewrite app_nil_r.
  - cbn [no_pair] in H. apply andb_prop in H as [H1 H2].
    apply negb_true_iff in H1.
    change (utf8_encode (c :: c2 :: s))
      with (if high_surrogate c && low_surrogate c2
            then utf8_encode_cp ((c - 55296) * 1024 + (c2 - 56320) + 65536)
                   ++ utf8_encode s
            else utf8_encode_cp c ++ utf8_encode (c2 :: s)).
    rewrite H1, (IH H2). reflexivity.
Qed.

Lemma utf8_decode_encode (s : list Z) :
  Forall (fun c => 0 <= c <= 1114111) s -> no_pair s = true ->
  utf8_decode (utf8_encode s) = s.
Proof.
  intros Hs Hp. rewrite (utf8_encode_no_pair s Hp).
  clear Hp. induction Hs as [|c s Hc _ IH]; [reflexivity|].
  simpl concat. rewrite utf8_decode_encode_cp by exact Hc. now rewrite IH.
Qed.

Section SortedFacts.
Context {A K : Type} (lt : K -> K -> bool) (key : A -> K).

Lemma insort_perm (x : A) (l : list A) : insort lt key x l ≡ₚ x :: l.
Proof.
  induction l as [|y l IH]; simpl; [reflexivity|].
  destruct (lt (key y) (key x)); [|reflexivity].
  rewrite IH. apply perm_swap.
Qed.

Lemma sorted_perm (l : list A) : sorted lt key l ≡ₚ l.
Proof.
  induction l as [|x l IH]; simpl; [reflexivity|].
  now rewrite insort_perm, IH.
Qed.

Lemma length_sorted (l : list A) : length (sorted lt key l) = length l.
Proof. apply Permutation_length, sorted_perm. Qed.

Section Ordered.
Variable ks : list K.
Hypothesis Hord : strict_total_on lt ks.

Lemma insort_sorted (x : A) (l : list A) :
  key x ∈ ks -> Forall (fun y => key y ∈ ks) l ->
  key x ∉ map key l ->
  StronglySorted (key_lt lt key) l -> StronglySorted (key_lt lt key) (insort lt key x l).
Proof.
  destruct Hord as (Hirr & Htr & Htot).
  intros Hx Hl Hnew HS. induction HS as [|y l HS IH Hy].
  - simpl. repeat constructor.
  - apply Forall_cons in Hl as [Hyk Hl].
    assert (Hne : key x <> key y) by (intros E; apply Hnew; rewrite E; simpl; left).
    assert (Hnew' : key x ∉ map key l) by (intros E; apply Hnew; simpl; now right).
    simpl. destruct (lt (key y) (key x)) eqn:E.
    + constructor; [now apply IH|].
      rewrite insort_perm. constructor; [exact E|exact Hy].
    + assert (Hxy : key_lt lt key x y).
      { destruct (Htot (key x) (key y) Hx Hyk Hne) as [H|H]; [exact H|congruence]. }
      constructor; [now constructor|].
      constructor; [exact Hxy|].
      rewrite Forall_forall in Hy, Hl |- *. intros z Hz.
      apply (Htr (key x) (key y) (key z)); auto.
      apply Hy, Hz.
Qed.

Lemma sorted_sorted (l : list A) :
  Forall (fun y => key y ∈ ks) l -> NoDup (map key l) ->
  StronglySorted (key_lt lt key) (sorted lt key l).
Proof.
  induction l as [|x l IH]; intros Hl Hnd; simpl; [constructor|].
  apply Forall_cons in Hl as [Hx Hl]. apply NoDup_cons in Hnd as [Hnew Hnd].
  apply insort_sorted; auto.
  - rewrite sorted_perm. exact Hl.
  - now rewrite sorted_perm.
Qed.

Lemma sorted_unique (l1 l2 : list A) :
  Forall (fun y => key y ∈ ks) l1 ->
  StronglySorted (key_lt lt key) l1 -> StronglySorted (key_lt lt key) l2 -> l1 ≡ₚ l2 -> l1 = l2.
Proof.
  destruct Hord as (Hirr & Htr & Htot).
  intros Hl H1. revert l2. induction H1 as [|x l1 H1 IH Hx]; intros l2 H2 HP.
  - now apply Permutation_nil_l in HP.
  - destruct H2 as [|y l2 H2 Hy].
    { now apply Permutation_nil_r in HP. }
    apply Forall_cons in Hl as [Hxk Hl].
    assert (Hyk : key y ∈ ks).
    { assert (Hin : y ∈ x :: l1) by (rewrite HP; left).
      apply elem_of_cons in Hin as [->|Hin]; [exact Hxk|].
      rewrite Forall_forall in Hl. now apply Hl. }
    assert (x = y) as <-.
    { assert (Hin1 : x ∈ y :: l2) by (rewrite <- HP; left).
      assert (Hin2 : y ∈ x :: l1) by (rewrite HP; left).
      apply elem_of_cons in Hin1 as [E|Hin1]; [exact E|].
      apply elem_of_cons in Hin2 as [E|Hin2]; [now symmetry|].
      rewrite Forall_forall in Hx, Hy.
      pose proof (Hx y Hin2) as Hxy. pose proof (Hy x Hin1) as Hyx.
      unfold key_lt in *.
      pose proof (Htr _ _ _ Hxk Hyk Hxk Hxy Hyx) as Hxx.
      rewrite (Hirr _ Hxk) in Hxx. discriminate. }
    f_equal. apply IH; [exact Hl|exact H2|].
    now apply Permutation_cons_inv in HP.
Qed.

(** Equal as maps, whatever the order of the items: sorted the same. *)
Lemma sorted_canonical (l1 l2 : list A) :
  Forall (fun y => key y ∈ ks) l1 -> NoDup (map key l1) -> l1 ≡ₚ l2 ->
  sorted lt key l1 = sorted lt key l2.
Proof.
  intros Hl Hnd HP.
  assert (Hl2 : Forall (fun y => key y ∈ ks) l2) by now rewrite <- HP.
  assert (Hnd2 : NoDup (map key l2)) by now rewrite <- HP.
  apply sorted_unique.
  - now rewrite sorted_perm.
  - now apply sorted_sorted.
  - now apply sorted_sorted.
  - now rewrite !sorted_perm.
Qed.
End Ordered.

End SortedFacts.

(** [sorted] looks at the keys only. *)
Lemma sorted_map {A B K} (lt : K -> K -> bool) (keyA : A -> K) (keyB : B -> K)
    (f : A -> B) (l : list A) :
  (forall x, keyB (f x) = keyA x) ->
  sorted lt keyB (map f l) = map f (sorted lt keyA l).
Proof.
  intros Hk. induction l as [|x l IH]; simpl; [reflexivity|].
  rewrite IH. generalize (sorted lt keyA l). intros s.
  induction s as [|y s IHs]; simpl; [reflexivity|].
  rewrite !Hk. destruct (lt (keyA y) (keyA x)); simpl; [now rewrite IHs|reflexivity].
Qed.

End HostFacts.

(* ================================================================== *)
(** * Facts about the codec                                            *)
(* ================================================================== *)

Module CodecFacts.
Import Host HostFacts Codec.

(** ** Induction on values *)
Section ValueInd.
Variable P : Value -> Prop.
Hypothesis Hint : forall n, P (VInt n).
Hypothesis Hlong : forall n, P (VLong n).
Hypothesis Hfloat : forall x, P (VFloat x).
Hypothesis Hstr : forall s, P (VStr s).
Hypothesis Hunicode : forall s, P (VUnicode s).
Hypothesis Hbool : forall x, P (VBool x).
Hypothesis Hseq : forall k items, Forall P items -> P (VSeq k items).
Hypothesis Hdict : forall items,
  Forall (fun kv => P (fst kv) /\ P (snd kv)) items -> P (VDict items).
Hypothesis Hnone : P VNone.
Hypothesis Hslice : forall a b c, P (VSlice a b c).
Hypothesis Hellipsis : P VEllipsis.
Hypothesis Hexc : forall name args, Forall P args -> P (VExc name args).

Fixpoint Value_ind (v : Value) : P v :=
  match v with
  | VInt n => Hint n
  | VLong n => Hlong n
  | VFloat x => Hfloat x
  | VStr s => Hstr s
  | VUnicode s => Hunicode s
  | VBool x => Hbool x
  | VSeq k items =>
      Hseq k items
        ((fix go (l : list Value) : Forall P l :=
            match l with
            | [] => @List.Forall_nil _ P
            | x :: l' => @List.Forall_cons _ P x l' (Value_ind x) (go l')
            end) items)
  | VDict items =>
      Hdict items
        ((fix go (l : list (Value * Value))
            : Forall (fun kv => P (fst kv) /\ P (snd kv)) l :=
            match l with
            | [] => @List.Forall_nil _ _
            | kv :: l' =>
                @List.Forall_cons _ _ kv l'
                  (conj (Value_ind (fst kv)) (Value_ind (snd kv))) (go l')
            end) items)
  | VNone => Hnone
  | VSlice a b c => Hslice a b c
  | VEllipsis => Hellipsis
  | VExc name args =>
      Hexc name args
        ((fix go (l : list Value) : Forall P l :=
            match l with
            | [] => @List.Forall_nil _ P
            | x :: l' => @List.Forall_cons _ P x l' (Value_ind x) (go l')
            end) args)
  end.
End ValueInd.

Section Spec.
Variable py_eq : Value -> Value -> bool.
Variable set_order : list Value -> list Value.
Variable py_lt : Value -> Value -> bool.
Variable sorted_partial : list Value -> Result (list nat).

Lemma write_all_map {A B} (f : A -> B) (w : B -> Result bytes) (l : list A) :
  write_all w (map f l) = write_all (fun x => w (f x)) l.
Proof. induction l as [|x l IH]; simpl; [reflexivity|]. now rewrite IH. Qed.

Lemma omap_lookup_map {A B} (f : A -> B) (l : list A) (places : list nat) :
  omap (fun i => map f l !! i) places
  = map f (omap (fun i => l !! i) places).
Proof.
  induction places as [|i places IH]; [reflexivity|]. cbn [omap list_omap].
  change (map f l) with (f <$> l) at 1. rewrite list_lookup_fmap.
  change (f <$> l) with (map f l). rewrite IH.
  destruct (l !! i); reflexivity.
Qed.

Lemma py_sorted_map {A B} (key : A -> Value) (key' : B -> Value)
    (f : A -> B) (l : list A) :
  (forall x, key' (f x) = key x) ->
  py_sorted py_lt sorted_partial key' (map f l)
  = bind (py_sorted py_lt sorted_partial key l) (fun r => Ok (map f r)).
Proof.
  intros Hk. unfold py_sorted.
  assert (E : map key' (map f l) = map key l).
  { rewrite map_map. apply map_ext. exact Hk. }
  rewrite E. destruct (comparable (map key l)).
  - cbn [bind]. now rewrite (sorted_map py_lt key key' f l Hk).
  - destruct (sorted_partial (map key l)) as [places|e]; cbn [bind];
      [|reflexivity].
    now rewrite omap_lookup_map.
Qed.

(** Where [<] raises on no two keys, [sorted] returns. *)
Lemma py_sorted_comparable {A} (key : A -> Value) (l : list A) :
  comparable (map key l) = true ->
  py_sorted py_lt sorted_partial key l = Ok (sorted py_lt key l).
Proof. unfold py_sorted. now intros ->. Qed.

Lemma MapSerializer_Serialize_rec_eq (ser : Value -> Result bytes) items :
  MapSerializer_Serialize_rec py_lt sorted_partial ser items
  = MapSerializer_Serialize_with py_lt sorted_partial ser items.
Proof.
  unfold MapSerializer_Serialize_rec, MapSerializer_Serialize_with.
  rewrite (py_sorted_map fst fst) by reflexivity.
  destruct (IntSerializer_Serialize (len items)); [|reflexivity].
  cbn [bind].
  destruct (py_sorted py_lt sorted_partial fst items) as [l|e];
    [|reflexivity].
  cbn [bind]. now rewrite write_all_map.
Qed.

(** [Serialize] writes the tag of the object's serializer, then what that
    serializer writes. *)
Lemma Serialize_eq (v : Value) :
  Serialize py_lt sorted_partial v
  = bind (body_of py_lt sorted_partial v) (fun body => Ok (tag_byte v :: body)).
Proof.
  destruct v as [| | | | | |k| | | | |]; try reflexivity.
  - destruct k; reflexivity.
  - change (Serialize py_lt sorted_partial (VDict items)) with
      (bind (ByteSerializer_Serialize 8) (fun bt =>
       bind (MapSerializer_Serialize_rec py_lt sorted_partial
               (Serialize py_lt sorted_partial) items)
            (fun body => Ok (bt ++ body)))).
    now rewrite MapSerializer_Serialize_rec_eq.
Qed.
End Spec.

Lemma bind_Ok {A B} (m : Result A) (k : A -> Result B) (y : B) :
  bind m k = Ok y -> exists a, m = Ok a /\ k a = Ok y.
Proof. destruct m as [a|e]; simpl; [eauto|discriminate]. Qed.

Ltac inv_bind H :=
  let a := fresh "w" in
  let Ha := fresh "Hw" in
  apply bind_Ok in H as (a & Ha & H).

Ltac inv_Ok H := injection H as H; subst.

(** ** The primitive readers read back what the writers wrote *)

Lemma Int_rt (n : Z) (bs rest : bytes) :
  IntSerializer_Serialize n = Ok bs ->
  IntSerializer_Deserialize (bs ++ rest) = Ok (n, rest).
Proof.
  unfold IntSerializer_Serialize, IntSerializer_Deserialize. intros H.
  apply struct_l_roundtrip in H as [Hl Hu].
  rewrite (read_app 4 bs rest) by (rewrite Hl; reflexivity).
  now rewrite Hu.
Qed.

Lemma Byte_rt (n : Z) (bs rest : bytes) :
  ByteSerializer_Serialize n = Ok bs ->
  ByteSerializer_Deserialize (bs ++ rest) = Ok (n, rest).
Proof.
  unfold ByteSerializer_Serialize, ByteSerializer_Deserialize. intros H.
  apply struct_B_roundtrip in H as [Hl Hu].
  rewrite (read_app 1 bs rest) by (rewrite Hl; reflexivity).
  now rewrite Hu.
Qed.

Lemma Float_rt (x : Z) (bs rest : bytes) :
  0 <= x < 2 ^ 64 -> FloatSerializer_Serialize x = Ok bs ->
  FloatSerializer_Deserialize (bs ++ rest) = Ok (x, rest).
Proof.
  unfold FloatSerializer_Serialize, FloatSerializer_Deserialize.
  intros Hx H. inv_Ok H. destruct (struct_d_roundtrip x Hx) as [Hl Hu].
  rewrite (read_app 8 _ rest) by (rewrite Hl; reflexivity).
  now rewrite Hu.
Qed.

Lemma Bytes_rt (s bs rest : bytes) :
  BytesSerializer_Serialize s = Ok bs ->
  BytesSerializer_Deserialize (bs ++ rest) = Ok (s, rest).
Proof.
  unfold BytesSerializer_Serialize, BytesSerializer_Deserialize. intros H.
  inv_bind H. inv_Ok H. rewrite <- app_assoc.
  rewrite (Int_rt _ _ _ Hw). simpl. f_equal. now apply read_app.
Qed.

Lemma Long_rt (n : Z) (bs rest : bytes) :
  LongSerializer_Serialize n = Ok bs ->
  LongSerializer_Deserialize (bs ++ rest) = Ok (n, rest).
Proof.
  unfold LongSerializer_Serialize, LongSerializer_Deserialize. intros H.
  rewrite (Bytes_rt _ _ _ H). simpl. now rewrite long_of_str_of_long.
Qed.

Lemma Text_rt table (s : list Z) (bs rest : bytes) :
  forallb code_point s = true -> no_pair s = true ->
  TextSerializer_Serialize s = Ok bs ->
  TextSerializer_Deserialize table (bs ++ rest) = Ok (s, rest).
Proof.
  unfold TextSerializer_Serialize, TextSerializer_Deserialize. intros Hs Hp H.
  inv_bind H. inv_bind H. inv_Ok H. rewrite <- app_assoc.
  rewrite (Bytes_rt _ _ _ Hw). cbn [bind fst snd].
  rewrite (Bytes_rt _ _ _ Hw0). cbn [bind fst snd].
  unfold text_decode. rewrite bool_decide_eq_true_2 by reflexivity.
  cbn [bind]. rewrite utf8_decode_encode; [reflexivity| |exact Hp].
  apply Forall_forall. intros c Hc. rewrite forallb_forall in Hs.
  apply list_elem_of_In in Hc. apply Hs in Hc. unfold code_point in Hc. lia.
Qed.

Lemma Bool_rt (x : bool) (bs rest : bytes) :
  BoolSerializer_Serialize x = Ok bs ->
  BoolSerializer_Deserialize (bs ++ rest) = Ok (x, rest).
Proof.
  unfold BoolSerializer_Serialize, BoolSerializer_Deserialize. intros H.
  rewrite (Int_rt _ _ _ H). simpl. now destruct x.
Qed.

Lemma Slice_rt (a b c : option Z) (bs rest : bytes) :
  SliceSerializer_Serialize a b c = Ok bs ->
  SliceSerializer_Deserialize (bs ++ rest) = Ok (VSlice a b c, rest).
Proof.
  unfold SliceSerializer_Serialize, SliceSerializer_Deserialize. intros H.
  inv_bind H. inv_bind H. inv_bind H. inv_Ok H.
  destruct a as [a|], b as [b|], c as [c|]; try discriminate.
  simpl in *. rewrite <- !app_assoc.
  rewrite (Int_rt _ _ _ Hw). simpl. rewrite (Int_rt _ _ _ Hw0). simpl.
  now rewrite (Int_rt _ _ _ Hw1).
Qed.

(** ** Sequences of items *)

Lemma read_n_write_all {A B} (ser : A -> Result bytes) (deser : Reader B)
    (f : A -> B) (items : list A) (bi rest : bytes) :
  Forall (fun x => forall bx rest,
            ser x = Ok bx -> deser (bx ++ rest) = Ok (f x, rest)) items ->
  write_all ser items = Ok bi ->
  read_n deser (length items) (bi ++ rest) = Ok (map f items, rest).
Proof.
  intros HF. revert bi. induction HF as [|x items Hx _ IH]; intros bi H.
  - simpl in *. now inv_Ok H.
  - simpl in H. inv_bind H. inv_bind H. inv_Ok H.
    simpl. rewrite <- app_assoc. rewrite (Hx _ _ Hw). simpl.
    now rewrite (IH _ Hw0).
Qed.

Lemma short_len {A} (l : list A) :
  short l = true -> Z.to_nat (len l) = length l.
Proof. intros _. unfold len. apply Nat2Z.id. Qed.

Section Composite.
Variable py_eq : Value -> Value -> bool.
Variable set_order : list Value -> list Value.
Variable ser : Value -> Result bytes.
Variable deser : Reader Value.
Variable f : Value -> Value.

Lemma Sequence_rt (k : SeqKind) (items : list Value) (bs rest : bytes) :
  Forall (fun x => forall bx rest,
            ser x = Ok bx -> deser (bx ++ rest) = Ok (f x, rest)) items ->
  SequenceSerializer_Serialize_with ser k items = Ok bs ->
  SequenceSerializer_Deserialize_with py_eq set_order deser (bs ++ rest)
  = match k with
    | KSet => bind (py_set py_eq set_order (map f items))
                (fun s => Ok (VSeq KSet s, rest))
    | k => Ok (VSeq k (map f items), rest)
    end.
Proof.
  unfold SequenceSerializer_Serialize_with, SequenceSerializer_Deserialize_with.
  intros HF H. inv_bind H. inv_bind H. inv_bind H. inv_Ok H.
  rewrite <- !app_assoc. rewrite (Int_rt _ _ _ Hw). simpl.
  rewrite (Byte_rt _ _ _ Hw0). simpl.
  unfold len. rewrite Nat2Z.id.
  rewrite (read_n_write_all ser deser f items _ rest HF Hw1).
  destruct k; reflexivity.
Qed.
End Composite.

Section Roundtrip.
Variable py_eq : Value -> Value -> bool.
Variable set_order : list Value -> list Value.
Variable py_lt : Value -> Value -> bool.
Variable sorted_partial : list Value -> Result (list nat).
Variable codec_table : bytes -> option (bytes -> Result (list Z)).
Variable construct : bytes -> list Value -> Result Value.


Lemma hashable_decoded (v : Value) : hashable ((decoded py_eq set_order py_lt) v) = hashable v.
Proof.
  induction v as [| | | | | |k items IH|items IH| | | |name args IH]
    using Value_ind; try reflexivity.
  - destruct k; try reflexivity. simpl.
    induction IH as [|x items Hx _ IHl]; simpl; [reflexivity|].
    now rewrite Hx, IHl.
  - simpl. unfold rebuilt. now destruct (in_exceptions name).
Qed.

Section Items.
Variable ser : Value -> Result bytes.
Variable deser : Reader Value.
Variable f : Value -> Value.

Definition reads_back (x : Value) : Prop :=
  forall bx rest, ser x = Ok bx -> deser (bx ++ rest) = Ok (f x, rest).

Lemma read_item_rt (d : list (Value * Value)) (kv : Value * Value)
    (bs rest : bytes) :
  reads_back (fst kv) -> reads_back (snd kv) ->
  hashable (f (fst kv)) = true ->
  write_pair ser kv = Ok bs ->
  read_item py_eq set_order deser d (bs ++ rest)
  = Ok (dict_store py_eq d (f (fst kv)) (f (snd kv)), rest).
Proof.
  intros Hk Hv Hh H. unfold read_item, write_pair in *.
  rewrite (Sequence_rt py_eq set_order ser deser f KTuple _ _ rest)
    with (2 := H).
  - simpl. unfold dict_setitem. now rewrite Hh.
  - repeat constructor; assumption.
Qed.

Lemma read_items_rt (l : list (Value * Value)) (d : list (Value * Value))
    (bi rest : bytes) :
  Forall (fun kv => reads_back (fst kv) /\ reads_back (snd kv)
                    /\ hashable (f (fst kv)) = true) l ->
  write_all (write_pair ser) l = Ok bi ->
  read_items py_eq set_order deser (length l) d (bi ++ rest)
  = Ok (fold_left (fun d kv => dict_store py_eq d (f (fst kv)) (f (snd kv)))
          l d, rest).
Proof.
  intros HF. revert d bi.
  induction HF as [|kv l (Hk & Hv & Hh) _ IH]; intros d bi H.
  - simpl in *. now inv_Ok H.
  - simpl in H. inv_bind H. inv_bind H. inv_Ok H.
    simpl. rewrite <- app_assoc.
    rewrite (read_item_rt d kv _ _ Hk Hv Hh Hw). simpl.
    now rewrite (IH _ _ Hw0).
Qed.

Lemma Map_rt (items : list (Value * Value)) (bs rest : bytes) :
  Forall (fun kv => reads_back (fst kv) /\ reads_back (snd kv)
                    /\ hashable (f (fst kv)) = true) items ->
  comparable (map fst items) = true ->
  MapSerializer_Serialize_with py_lt sorted_partial ser items = Ok bs ->
  MapSerializer_Deserialize_with py_eq set_order deser (bs ++ rest)
  = Ok (VDict (fold_left
                 (fun d kv => dict_store py_eq d (f (fst kv)) (f (snd kv)))
                 (sorted py_lt fst items) []), rest).
Proof.
  unfold MapSerializer_Serialize_with, MapSerializer_Deserialize_with.
  intros HF Hcmp H. rewrite (py_sorted_comparable _ _ _ _ Hcmp) in H.
  inv_bind H. cbn [bind] in H. inv_bind H. inv_Ok H.
  rewrite <- app_assoc. rewrite (Int_rt _ _ _ Hw). simpl.
  unfold len. rewrite Nat2Z.id. rewrite <- (length_sorted py_lt fst items).
  rewrite (read_items_rt (sorted py_lt fst items) [] _ rest);
    [reflexivity| |exact Hw0].
  now rewrite sorted_perm.
Qed.

Lemma Error_rt (name : bytes) (args : list Value) (bs rest : bytes) :
  Forall reads_back args ->
  ErrorSerializer_Serialize_with ser name args = Ok bs ->
  ErrorSerializer_Deserialize_with py_eq set_order construct deser (bs ++ rest)
  = bind (make_error construct name (map f args)) (fun e => Ok (e, rest)).
Proof.
  unfold ErrorSerializer_Serialize_with, ErrorSerializer_Deserialize_with.
  intros HF H. inv_bind H. inv_bind H. inv_Ok H.
  rewrite <- app_assoc. rewrite (Bytes_rt _ _ _ Hw). simpl.
  now rewrite (Sequence_rt py_eq set_order ser deser f KTuple _ _ rest HF
                 Hw0).
Qed.
End Items.

Lemma decoded_dict (items : list (Value * Value)) :
  (decoded py_eq set_order py_lt) (VDict items)
  = VDict (fold_left
             (fun d kv => dict_store py_eq d ((decoded py_eq set_order py_lt) (fst kv)) ((decoded py_eq set_order py_lt) (snd kv)))
             (sorted py_lt fst items) []).
Proof.
  simpl. f_equal.
  rewrite (sorted_map py_lt fst fst
             (fun kv => (fst kv, ((decoded py_eq set_order py_lt) (fst kv), (decoded py_eq set_order py_lt) (snd kv)))))
    by reflexivity.
  rewrite map_map. simpl.
  generalize (sorted py_lt fst items) (@nil (Value * Value)).
  intros l. induction l as [|kv l IH]; intros d; simpl; [reflexivity|].
  apply IH.
Qed.

Lemma Deserialize_fuel_tag (fuel : nat) (t : byte) (s : bytes) :
  (Deserialize_fuel py_eq set_order codec_table construct) (S fuel) (t :: s)
  = match TAGS (Z_of_byte t) with
    | None => Raise KeyError
    | Some se =>
        se_Deserialize_with py_eq set_order codec_table construct
          ((Deserialize_fuel py_eq set_order codec_table construct) fuel) se s
    end.
Proof. reflexivity. Qed.

Lemma depth_item (x : Value) (items : list Value) :
  x ∈ items ->
  (depth x <= foldr (fun x d => Nat.max (depth x) d) O items)%nat.
Proof.
  induction 1 as [x l|x y l _ IH]; simpl; lia.
Qed.

Lemma depth_pair (kv : Value * Value) (items : list (Value * Value)) :
  kv ∈ items ->
  (Nat.max (depth (fst kv)) (depth (snd kv))
   <= foldr (fun kv d => Nat.max (Nat.max (depth (fst kv)) (depth (snd kv))) d)
        O items)%nat.
Proof.
  induction 1 as [x l|x y l _ IH]; simpl; lia.
Qed.

Lemma constructs_item (x : Value) (items : list Value) :
  fold_right (fun x P => (constructs py_eq set_order py_lt construct) x /\ P) True items ->
  x ∈ items -> (constructs py_eq set_order py_lt construct) x.
Proof.
  intros H Hx. induction Hx as [x l|x y l _ IH]; simpl in H; [tauto|].
  apply IH. tauto.
Qed.

Lemma constructs_pair (kv : Value * Value) (items : list (Value * Value)) :
  fold_right (fun kv P => (constructs py_eq set_order py_lt construct) (fst kv) /\ (constructs py_eq set_order py_lt construct) (snd kv) /\ P)
    True items ->
  kv ∈ items -> (constructs py_eq set_order py_lt construct) (fst kv) /\ (constructs py_eq set_order py_lt construct) (snd kv).
Proof.
  intros H Hx. induction Hx as [x l|x y l _ IH]; simpl in H; [tauto|].
  apply IH. tauto.
Qed.

(** Reading what [Serialize] wrote, with fuel past the depth of the value. *)
Theorem Deserialize_fuel_Serialize (v : Value) :
  wf v = true -> (constructs py_eq set_order py_lt construct) v ->
  forall bs fuel rest,
    Serialize py_lt sorted_partial v = Ok bs -> (depth v < fuel)%nat ->
    (Deserialize_fuel py_eq set_order codec_table construct) fuel (bs ++ rest) = Ok ((decoded py_eq set_order py_lt) v, rest).
Proof.
  induction v as [n|n|x|s|s|x|k items IH|items IH| |a b c| |name args IH]
    using Value_ind;
    intros Hwf Hc bs fuel rest H Hfuel; rewrite Serialize_eq in H;
    inv_bind H; inv_Ok H;
    (destruct fuel as [|fuel]; [lia|]);
    cbn [app]; rewrite Deserialize_fuel_tag;
    cbn [tag_byte body_of] in *.
  - change (TAGS (Z_of_byte x01)) with (Some IntSerializer).
    cbn [se_Deserialize_with]. now rewrite (Int_rt _ _ _ Hw).
  - change (TAGS (Z_of_byte x02)) with (Some LongSerializer).
    cbn [se_Deserialize_with]. now rewrite (Long_rt _ _ _ Hw).
  - change (TAGS (Z_of_byte x03)) with (Some FloatSerializer).
    cbn [se_Deserialize_with]. simpl in Hwf.
    rewrite (Float_rt x _ rest); [reflexivity|lia|exact Hw].
  - change (TAGS (Z_of_byte x04)) with (Some BytesSerializer).
    cbn [se_Deserialize_with]. now rewrite (Bytes_rt _ _ _ Hw).
  - change (TAGS (Z_of_byte x05)) with (Some TextSerializer).
    cbn [se_Deserialize_with]. simpl in Hwf.
    apply andb_prop in Hwf as [Hcp _]. apply andb_prop in Hcp as [Hcp Hp].
    now rewrite (Text_rt codec_table s _ rest Hcp Hp Hw).
  - change (TAGS (Z_of_byte x06)) with (Some BoolSerializer).
    cbn [se_Deserialize_with]. now rewrite (Bool_rt _ _ _ Hw).
  - change (TAGS (Z_of_byte x07)) with (Some SequenceSerializer).
    cbn [se_Deserialize_with].
    simpl in Hwf. apply andb_prop in Hwf as [Hwf Hhash].
    apply andb_prop in Hwf as [_ Hwf].
    rewrite (Sequence_rt py_eq set_order (Serialize py_lt sorted_partial)
               ((Deserialize_fuel py_eq set_order codec_table construct) fuel) (decoded py_eq set_order py_lt) k items _ rest)
      with (2 := Hw).
    + destruct k; try reflexivity.
      unfold py_set.
      assert (Hh : forallb hashable (map (decoded py_eq set_order py_lt) items) = true).
      { rewrite forallb_forall in Hhash |- *. intros y Hy.
        apply in_map_iff in Hy as (x & <- & Hx).
        rewrite hashable_decoded. now apply Hhash. }
      now rewrite Hh.
    + rewrite Forall_forall in IH |- *. intros x Hx bx rest' Hbx.
      apply IH; [exact Hx| | |exact Hbx|].
      * rewrite forallb_forall in Hwf. apply Hwf. now apply list_elem_of_In.
      * apply (constructs_item x items); [destruct k; exact Hc|exact Hx].
      * pose proof (depth_item x items Hx). simpl in Hfuel. lia.
  - change (TAGS (Z_of_byte x08)) with (Some MapSerializer).
    cbn [se_Deserialize_with]. rewrite decoded_dict.
    simpl in Hwf. apply andb_prop in Hwf as [Hwf Hcmp].
    apply andb_prop in Hwf as [_ Hwf].
    apply (Map_rt (Serialize py_lt sorted_partial) ((Deserialize_fuel py_eq set_order codec_table construct) fuel)
             (decoded py_eq set_order py_lt)); [|exact Hcmp|exact Hw].
    rewrite Forall_forall in IH |- *. intros kv Hkv.
    rewrite forallb_forall in Hwf.
    pose proof (Hwf kv (proj1 (list_elem_of_In _ _) Hkv)) as Hkvwf.
    apply andb_prop in Hkvwf as [Hkvwf Hh].
    apply andb_prop in Hkvwf as [Hwk Hwv].
    pose proof (depth_pair kv items Hkv). simpl in Hfuel.
    destruct (IH kv Hkv) as [IHk IHv].
    destruct (constructs_pair kv items Hc Hkv) as [Hck Hcv].
    split; [|split].
    + intros bx rest' Hbx. apply IHk; [exact Hwk|exact Hck|exact Hbx|lia].
    + intros bx rest' Hbx. apply IHv; [exact Hwv|exact Hcv|exact Hbx|lia].
    + now rewrite hashable_decoded.
  - change (TAGS (Z_of_byte x0a)) with (Some NoneSerializer).
    cbn [se_Deserialize_with]. unfold NoneSerializer_Serialize in Hw.
    now inv_Ok Hw.
  - change (TAGS (Z_of_byte x0b)) with (Some SliceSerializer).
    cbn [se_Deserialize_with]. now rewrite (Slice_rt _ _ _ _ _ Hw).
  - change (TAGS (Z_of_byte x0c)) with (Some EllipsisSerializer).
    cbn [se_Deserialize_with]. unfold EllipsisSerializer_Serialize in Hw.
    now inv_Ok Hw.
  - change (TAGS (Z_of_byte x0d)) with (Some ErrorSerializer).
    cbn [se_Deserialize_with].
    simpl in Hwf. apply andb_prop in Hwf as [Hname Hwf].
    do 2 apply andb_prop in Hname as [Hname _].
    apply negb_true_iff in Hname.
    rewrite (Error_rt (Serialize py_lt sorted_partial)
               ((Deserialize_fuel py_eq set_order codec_table construct) fuel) (decoded py_eq set_order py_lt) name args w rest);
      [|clear Hname|exact Hw].
    { unfold make_error. rewrite Hname. cbn [Codec.decoded].
      unfold rebuilt.
      destruct Hc as [Hc _].
      destruct (in_exceptions name); [now rewrite Hc|reflexivity]. }
    destruct Hc as [_ Hc].
    rewrite Forall_forall in IH |- *. intros x Hx bx rest' Hbx.
    apply IH; [exact Hx| | |exact Hbx|].
    + rewrite forallb_forall in Hwf. apply Hwf. now apply list_elem_of_In.
    + now apply (constructs_item x args).
    + pose proof (depth_item x args Hx). simpl in Hfuel. lia.
Qed.
End Roundtrip.

(** ** The writers succeed on well-formed values *)

Lemma Int_ok (n : Z) :
  i32 n = true -> exists bs, IntSerializer_Serialize n = Ok bs.
Proof.
  unfold i32, IntSerializer_Serialize, struct_pack_l. intros ->. eauto.
Qed.

Lemma short_i32 {A} (l : list A) : short l = true -> i32 (len l) = true.
Proof.
  unfold short, i32, len. intros H. apply Z.ltb_lt in H.
  apply andb_true_intro. split; [apply Z.leb_le|apply Z.ltb_lt]; lia.
Qed.

Lemma Bytes_ok (s : bytes) :
  short s = true -> exists bs, BytesSerializer_Serialize s = Ok bs.
Proof.
  intros H. unfold BytesSerializer_Serialize.
  destruct (Int_ok _ (short_i32 s H)) as [bl ->]. simpl. eauto.
Qed.

Lemma write_all_ok {A} (ser : A -> Result bytes) (l : list A) :
  Forall (fun x => exists bx, ser x = Ok bx) l ->
  exists bi, write_all ser l = Ok bi.
Proof.
  induction 1 as [|x l [bx Hx] _ [bi IH]]; simpl; [eauto|].
  rewrite Hx, IH. simpl. eauto.
Qed.

Lemma Sequence_ok (ser : Value -> Result bytes) (k : SeqKind)
    (items : list Value) :
  short items = true ->
  Forall (fun x => exists bx, ser x = Ok bx) items ->
  exists bs, SequenceSerializer_Serialize_with ser k items = Ok bs.
Proof.
  intros Hs HF. unfold SequenceSerializer_Serialize_with.
  destruct (Int_ok _ (short_i32 items Hs)) as [bl ->].
  destruct (write_all_ok ser items HF) as [bi Hbi].
  destruct k; simpl; rewrite Hbi; simpl; eauto.
Qed.

Section Ok.
Variable py_lt : Value -> Value -> bool.
Variable sorted_partial : list Value -> Result (list nat).

Theorem Serialize_ok (v : Value) :
  wf v = true -> exists bs, Serialize py_lt sorted_partial v = Ok bs.
Proof.
  induction v as [n|n|x|s|s|x|k items IH|items IH| |a b c| |name args IH]
    using Value_ind;
    intros Hwf; rewrite Serialize_eq; cbn [body_of]; simpl in Hwf.
  - destruct (Int_ok n Hwf) as [bs ->]. simpl. eauto.
  - unfold LongSerializer_Serialize.
    destruct (Bytes_ok _ Hwf) as [bs ->]. simpl. eauto.
  - simpl. eauto.
  - destruct (Bytes_ok _ Hwf) as [bs ->]. simpl. eauto.
  - apply andb_prop in Hwf as [_ Hs]. unfold TextSerializer_Serialize.
    destruct (Bytes_ok PREFERRED_ENCODING eq_refl) as [bc ->].
    destruct (Bytes_ok _ Hs) as [bd ->]. simpl. eauto.
  - destruct x; simpl; eauto.
  - apply andb_prop in Hwf as [Hwf _]. apply andb_prop in Hwf as [Hs Hwf].
    destruct (Sequence_ok (Serialize py_lt sorted_partial) k items Hs)
      as [bs Hbs].
    + rewrite Forall_forall in IH |- *. intros x Hx. apply IH; [exact Hx|].
      rewrite forallb_forall in Hwf. apply Hwf. now apply list_elem_of_In.
    + unfold SequenceSerializer_Serialize. rewrite Hbs. simpl. eauto.
  - apply andb_prop in Hwf as [Hwf Hcmp]. apply andb_prop in Hwf as [Hs Hwf].
    unfold MapSerializer_Serialize, MapSerializer_Serialize_with.
    rewrite (py_sorted_comparable _ _ _ _ Hcmp).
    destruct (Int_ok _ (short_i32 items Hs)) as [bl ->].
    destruct (write_all_ok (write_pair (Serialize py_lt sorted_partial))
                (sorted py_lt fst items)) as [bi Hbi].
    + rewrite sorted_perm. rewrite Forall_forall in IH |- *. intros kv Hkv.
      rewrite forallb_forall in Hwf.
      pose proof (Hwf kv (proj1 (list_elem_of_In _ _) Hkv)) as Hkvwf.
      apply andb_prop in Hkvwf as [Hkvwf _].
      apply andb_prop in Hkvwf as [Hwk Hwv].
      destruct (IH kv Hkv) as [IHk IHv].
      apply (Sequence_ok (Serialize py_lt sorted_partial) KTuple);
        [reflexivity|].
      repeat constructor; auto.
    + simpl. rewrite Hbi. simpl. eauto.
  - simpl. eauto.
  - apply andb_prop in Hwf as [Hwf Hc]. apply andb_prop in Hwf as [Ha Hb].
    destruct a as [a|], b as [b|], c as [c|]; try discriminate.
    unfold SliceSerializer_Serialize. simpl in *.
    destruct (Int_ok a Ha) as [b1 ->]. destruct (Int_ok b Hb) as [b2 ->].
    destruct (Int_ok c Hc) as [b3 ->]. simpl. eauto.
  - simpl. eauto.
  - apply andb_prop in Hwf as [Hwf Hargs]. apply andb_prop in Hwf as [Hn Hs].
    apply andb_prop in Hn as [_ Hn].
    unfold ErrorSerializer_Serialize, ErrorSerializer_Serialize_with.
    destruct (Bytes_ok name Hn) as [bn ->].
    destruct (Sequence_ok (Serialize py_lt sorted_partial) KTuple args Hs)
      as [ba Hba].
    + rewrite Forall_forall in IH |- *. intros x Hx. apply IH; [exact Hx|].
      rewrite forallb_forall in Hargs. apply Hargs. now apply list_elem_of_In.
    + simpl. rewrite Hba. simpl. eauto.
Qed.

(** ** The bytes written are more than the value is deep *)

Lemma write_all_elem {A} (ser : A -> Result bytes) (l : list A) (bi : bytes)
    (x : A) :
  write_all ser l = Ok bi -> x ∈ l ->
  exists bx, ser x = Ok bx /\ (length bx <= length bi)%nat.
Proof.
  intros H Hx. revert bi H.
  induction Hx as [x l|x y l _ IH]; intros bi H; simpl in H;
    inv_bind H; inv_bind H; inv_Ok H; rewrite length_app.
  - exists w. split; [exact Hw|lia].
  - destruct (IH _ Hw0) as (bx & Hbx & Hle). exists bx. split; [exact Hbx|lia].
Qed.

Lemma foldr_max_le {A} (m : A -> nat) (l : list A) (N : nat) :
  (forall x, x ∈ l -> (m x <= N)%nat) ->
  (foldr (fun x d => Nat.max (m x) d) O l <= N)%nat.
Proof.
  induction l as [|x l IH]; intros H; simpl; [lia|].
  apply Nat.max_lub; [apply H; left|apply IH; intros y Hy; apply H; now right].
Qed.

Lemma Sequence_depth (k : SeqKind) (items : list Value) (bs : bytes) :
  Forall (fun x => forall bx,
            Serialize py_lt sorted_partial x = Ok bx ->
            (depth x < length bx)%nat) items ->
  SequenceSerializer_Serialize_with (Serialize py_lt sorted_partial) k items
  = Ok bs ->
  (foldr (fun x d => Nat.max (depth x) d) O items < length bs)%nat.
Proof.
  intros HF H. unfold SequenceSerializer_Serialize_with in H.
  inv_bind H. inv_bind H. inv_bind H. inv_Ok H.
  rewrite !length_app. apply Nat.le_lt_trans with (length w1).
  - apply foldr_max_le. intros x Hx.
    destruct (write_all_elem _ _ _ x Hw1 Hx) as (bx & Hbx & Hle).
    rewrite Forall_forall in HF. pose proof (HF x Hx bx Hbx). lia.
  - apply struct_B_roundtrip in Hw0 as [Hl _]. lia.
Qed.

Lemma wf_sortable (v : Value) : wf v = true -> sortable v = true.
Proof.
  induction v as [| | | | | |k items IH|items IH| | | |name args IH]
    using Value_ind; intros Hwf; try reflexivity; simpl in Hwf |- *.
  - apply andb_prop in Hwf as [Hwf _]. apply andb_prop in Hwf as [_ Hwf].
    rewrite forallb_forall in Hwf |- *. intros x Hx.
    rewrite Forall_forall in IH. apply IH; [now apply list_elem_of_In|].
    now apply Hwf.
  - apply andb_prop in Hwf as [Hwf Hcmp]. apply andb_prop in Hwf as [_ Hwf].
    rewrite Hcmp. cbn [andb].
    rewrite forallb_forall in Hwf |- *. intros kv Hkv.
    rewrite Forall_forall in IH.
    destruct (IH kv (proj2 (list_elem_of_In _ _) Hkv)) as [IHk IHv].
    pose proof (Hwf kv Hkv) as Hkvwf.
    apply andb_prop in Hkvwf as [Hkvwf _].
    apply andb_prop in Hkvwf as [Hwk Hwv].
    now rewrite IHk, IHv.
  - apply andb_prop in Hwf as [_ Hwf].
    rewrite forallb_forall in Hwf |- *. intros x Hx.
    rewrite Forall_forall in IH. apply IH; [now apply list_elem_of_In|].
    now apply Hwf.
Qed.

Lemma sortable_items (items : list Value) (P : Value -> Prop) :
  forallb sortable items = true ->
  Forall (fun x => sortable x = true -> P x) items -> Forall P items.
Proof.
  intros Hs HF. rewrite Forall_forall in HF |- *. intros x Hx.
  apply HF; [exact Hx|]. rewrite forallb_forall in Hs. apply Hs.
  now apply list_elem_of_In.
Qed.

Theorem depth_lt_length (v : Value) :
  sortable v = true ->
  forall bs, Serialize py_lt sorted_partial v = Ok bs ->
             (depth v < length bs)%nat.
Proof.
  induction v as [n|n|x|s|s|x|k items IH|items IH| |a b c| |name args IH]
    using Value_ind;
    intros Hs bs H; rewrite Serialize_eq in H; inv_bind H; inv_Ok H;
    cbn [body_of] in Hw; cbn [length]; try (simpl; lia).
  - apply Sequence_depth in Hw; [simpl; lia|].
    now apply (sortable_items items).
  - unfold MapSerializer_Serialize, MapSerializer_Serialize_with in Hw.
    cbn [sortable] in Hs. apply andb_prop in Hs as [Hcmp Hs].
    rewrite (py_sorted_comparable _ _ _ _ Hcmp) in Hw.
    inv_bind Hw. cbn [bind] in Hw. inv_bind Hw. inv_Ok Hw.
    rewrite length_app.
    cbn [depth]. apply -> Nat.succ_lt_mono.
    apply Nat.le_lt_trans with (length w1);
      [|apply struct_l_roundtrip in Hw0 as [Hl _]; lia].
    apply (foldr_max_le (fun kv => Nat.max (depth (fst kv)) (depth (snd kv)))).
    intros kv Hkv. rewrite Forall_forall in IH.
    destruct (IH kv Hkv) as [IHk IHv].
    rewrite forallb_forall in Hs.
    pose proof (Hs kv (proj1 (list_elem_of_In _ _) Hkv)) as Hkvs.
    apply andb_prop in Hkvs as [Hsk Hsv].
    assert (Hkv' : kv ∈ sorted py_lt fst items) by now rewrite sorted_perm.
    destruct (write_all_elem _ _ _ kv Hw1 Hkv') as (bp & Hbp & Hle).
    unfold write_pair, SequenceSerializer_Serialize_with in Hbp.
    apply bind_Ok in Hbp as (b1 & _ & Hbp).
    apply bind_Ok in Hbp as (b2 & _ & Hbp).
    apply bind_Ok in Hbp as (b3 & Hb3 & Hbp). inv_Ok Hbp.
    simpl in Hb3.
    apply bind_Ok in Hb3 as (bk & Hbk & Hb3).
    apply bind_Ok in Hb3 as (bv' & Hbv & Hb3). inv_Ok Hb3.
    apply bind_Ok in Hbv as (bv & Hbv & Hb3). simpl in Hb3. inv_Ok Hb3.
    pose proof (IHk Hsk _ Hbk). pose proof (IHv Hsv _ Hbv).
    rewrite !length_app in Hle. lia.
  - unfold ErrorSerializer_Serialize, ErrorSerializer_Serialize_with in Hw.
    inv_bind Hw. inv_bind Hw. inv_Ok Hw. rewrite length_app.
    apply Sequence_depth in Hw1; [simpl; lia|].
    now apply (sortable_items args).
Qed.
End Ok.

Section Canonical.
Variable py_eq : Value -> Value -> bool.
Variable set_order : list Value -> list Value.
Variable py_lt : Value -> Value -> bool.
Variable sorted_partial : list Value -> Result (list nat).
Variable codec_table : bytes -> option (bytes -> Result (list Z)).
Variable construct : bytes -> list Value -> Result Value.


(** A set holds the elements that were added to it. *)
Hypothesis set_order_perm : forall l, set_order l ≡ₚ l.

Lemma forallb_elem {A} (f : A -> bool) (l : list A) (x : A) :
  forallb f l = true -> x ∈ l -> f x = true.
Proof.
  intros H Hx. rewrite forallb_forall in H. apply H. now apply list_elem_of_In.
Qed.

Lemma map_id_on {A} (f : A -> A) (l : list A) :
  Forall (fun x => f x = x) l -> map f l = l.
Proof. induction 1; simpl; congruence. Qed.

Lemma decoded_id (v : Value) :
  order_free v = true -> platform_errors v = true -> (decoded py_eq set_order py_lt) v = v.
Proof.
  induction v as [| | | | | |k items IH|items IH| | | |name args IH]
    using Value_ind; intros Hof Hpe; try reflexivity.
  - destruct k; try discriminate; simpl in *; f_equal; apply map_id_on;
      rewrite Forall_forall in IH |- *; intros x Hx;
      apply IH; eauto using forallb_elem.
  - discriminate.
  - simpl in *. apply andb_prop in Hpe as [Hn Hpe].
    unfold rebuilt. rewrite Hn. f_equal. apply map_id_on.
    rewrite Forall_forall in IH |- *; intros x Hx;
      apply IH; eauto using forallb_elem.
Qed.

Lemma distinct_cons (x : Value) (l : list Value) :
  distinct py_eq (x :: l) = true ->
  Forall (fun y => py_eq x y = false /\ py_eq y x = false) l
  /\ distinct py_eq l = true.
Proof.
  simpl. intros H. apply andb_prop in H as [H1 H2]. split; [|exact H2].
  apply Forall_forall. intros y Hy. rewrite forallb_forall in H1.
  apply list_elem_of_In in Hy. apply H1 in Hy.
  apply andb_prop in Hy as [Ha Hb].
  split; [now apply negb_true_iff in Ha|now apply negb_true_iff in Hb].
Qed.

Lemma distinct_perm (l1 l2 : list Value) :
  l1 ≡ₚ l2 -> distinct py_eq l1 = distinct py_eq l2.
Proof.
  induction 1 as [|x l1 l2 HP IH|x y l|l1 l2 l3 _ IH1 _ IH2].
  - reflexivity.
  - simpl. rewrite IH. f_equal.
    apply eq_true_iff_eq. rewrite !forallb_forall.
    split; intros H z Hz; apply H; [now rewrite HP|now rewrite <- HP].
  - simpl. destruct (py_eq x y), (py_eq y x); simpl; try reflexivity.
    rewrite !andb_assoc. f_equal. apply andb_comm.
  - congruence.
Qed.

Lemma set_add_fresh (acc l : list Value) :
  Forall (fun y => Forall (fun x => py_eq y x = false) l) acc ->
  distinct py_eq l = true ->
  fold_left (set_add py_eq) l acc = acc ++ l.
Proof.
  revert acc. induction l as [|x l IH]; intros acc Hacc Hd.
  - simpl. now rewrite app_nil_r.
  - apply distinct_cons in Hd as [Hx Hd]. simpl.
    assert (E : set_add py_eq acc x = acc ++ [x]).
    { unfold set_add. destruct (existsb (fun y => py_eq y x) acc) eqn:Ex;
        [|reflexivity].
      apply existsb_exists in Ex as (y & Hy & Hyx).
      rewrite Forall_forall in Hacc. apply list_elem_of_In in Hy.
      pose proof (Hacc y Hy) as Hf. apply Forall_cons in Hf as [Hf _].
      congruence. }
    rewrite E, IH, <- app_assoc; [reflexivity| |exact Hd].
    apply Forall_app. split.
    + apply (Forall_impl _ _ _ Hacc). intros y Hy. now apply Forall_cons in Hy.
    + constructor; [|constructor].
      apply (Forall_impl _ _ _ Hx). now intros y [? _].
Qed.

Lemma dict_store_fresh (d : list (Value * Value)) (k v : Value) :
  Forall (fun kv => py_eq (fst kv) k = false) d ->
  dict_store py_eq d k v = d ++ [(k, v)].
Proof.
  induction 1 as [|[k' v'] d Hk _ IH]; simpl in *; [reflexivity|].
  now rewrite Hk, IH.
Qed.

Lemma dict_store_all_fresh (acc l : list (Value * Value)) :
  Forall (fun kv => Forall (fun kv' => py_eq (fst kv) (fst kv') = false) l)
    acc ->
  distinct py_eq (map fst l) = true ->
  fold_left (fun d kv => dict_store py_eq d (fst kv) (snd kv)) l acc
  = acc ++ l.
Proof.
  revert acc. induction l as [|[k v] l IH]; intros acc Hacc Hd.
  - simpl. now rewrite app_nil_r.
  - simpl in Hd. change (distinct py_eq (k :: map fst l) = true) in Hd.
    apply distinct_cons in Hd as [Hx Hd]. simpl.
    rewrite dict_store_fresh.
    + rewrite IH, <- app_assoc; [reflexivity| |exact Hd].
      apply Forall_app. split.
      * apply (Forall_impl _ _ _ Hacc). intros y Hy.
        now apply Forall_cons in Hy.
      * constructor; [|constructor]. simpl.
        apply Forall_fmap in Hx. apply (Forall_impl _ _ _ Hx).
        now intros y [? _].
    + apply (Forall_impl _ _ _ Hacc). intros y Hy.
      now apply Forall_cons in Hy as [? _].
Qed.

Lemma Forall2_refl_on {A} (R : A -> A -> Prop) (f : A -> A) (l : list A) :
  Forall (fun x => R x (f x)) l -> Forall2 R l (map f l).
Proof. induction 1; simpl; constructor; auto. Qed.

(** What comes back is the value, up to the order of sets and
    dictionaries. *)
Theorem decoded_equiv (v : Value) :
  keys_ok py_eq v = true -> platform_errors v = true ->
  value_equiv v ((decoded py_eq set_order py_lt) v).
Proof.
  induction v as [| | | | | |k items IH|items IH| | | |name args IH]
    using Value_ind; intros Hk Hpe; try apply equiv_refl.
  - simpl in Hk, Hpe. apply andb_prop in Hk as [Hk Hset].
    assert (HF : Forall (fun x => value_equiv x ((decoded py_eq set_order py_lt) x)) items).
    { rewrite Forall_forall in IH |- *. intros x Hx.
      apply IH; eauto using forallb_elem. }
    destruct k; try (simpl; apply equiv_seq; now apply Forall2_refl_on).
    apply andb_prop in Hset as [Hof Hd].
    assert (E : map (decoded py_eq set_order py_lt) items = items).
    { apply map_id_on. apply Forall_forall. intros x Hx.
      apply decoded_id; eauto using forallb_elem. }
    simpl. rewrite E, set_add_fresh; [|constructor|exact Hd].
    cbn [app]. apply equiv_set with (set_iter set_order items).
    + symmetry. unfold set_iter. destruct items; [reflexivity|].
      apply set_order_perm.
    + clear. induction (set_iter set_order items); constructor;
        [apply equiv_refl|assumption].
  - rewrite decoded_dict. simpl in Hk, Hpe.
    apply andb_prop in Hk as [Hk Hd].
    set (g := fun kv : Value * Value => (fst kv, (decoded py_eq set_order py_lt) (snd kv))).
    assert (E : fold_left
                  (fun d kv => dict_store py_eq d ((decoded py_eq set_order py_lt) (fst kv))
                                 ((decoded py_eq set_order py_lt) (snd kv)))
                  (sorted py_lt fst items) []
                = map g (sorted py_lt fst items)).
    { transitivity (fold_left
                      (fun d kv => dict_store py_eq d (fst kv) (snd kv))
                      (map g (sorted py_lt fst items)) []).
      - assert (Hs : Forall (fun kv => (decoded py_eq set_order py_lt) (fst kv) = fst kv)
                       (sorted py_lt fst items)).
        { rewrite sorted_perm. apply Forall_forall. intros kv Hkv.
          pose proof (forallb_elem _ _ kv Hk Hkv) as H1.
          pose proof (forallb_elem _ _ kv Hpe Hkv) as H2. simpl in H1, H2.
          apply andb_prop in H1 as [_ H1]. apply andb_prop in H2 as [H2 _].
          now apply decoded_id. }
        generalize (@nil (Value * Value)).
        induction Hs as [|kv l Hkv _ IHl]; intros d; simpl; [reflexivity|].
        rewrite Hkv. apply IHl.
      - rewrite dict_store_all_fresh; [reflexivity|constructor|].
        rewrite map_map. simpl.
        rewrite <- (distinct_perm (map fst items)); [exact Hd|].
        apply Permutation_map. symmetry. apply sorted_perm. }
    rewrite E. apply equiv_dict with (sorted py_lt fst items).
    + symmetry. apply sorted_perm.
    + apply Forall2_refl_on. rewrite sorted_perm.
      rewrite Forall_forall in IH |- *. intros kv Hkv.
      pose proof (forallb_elem _ _ kv Hk Hkv) as H1.
      pose proof (forallb_elem _ _ kv Hpe Hkv) as H2. simpl in H1, H2.
      apply andb_prop in H1 as [H1 _]. apply andb_prop in H1 as [_ H1].
      apply andb_prop in H2 as [_ H2].
      split; [apply equiv_refl|]. now apply (IH kv Hkv).
  - simpl in Hk, Hpe. apply andb_prop in Hpe as [Hn Hpe].
    simpl. unfold rebuilt. rewrite Hn. apply equiv_exc.
    apply Forall2_refl_on. rewrite Forall_forall in IH |- *. intros x Hx.
    apply IH; eauto using forallb_elem.
Qed.

(** [Deserialize(Serialize(v))] is [(decoded py_eq set_order py_lt) v]. *)
Theorem Deserialize_Serialize (v : Value) :
  wf v = true -> constructs py_eq set_order py_lt construct v ->
  exists bs, Serialize py_lt sorted_partial v = Ok bs
             /\ Deserialize py_eq set_order codec_table construct bs
                = Ok ((decoded py_eq set_order py_lt) v).
Proof.
  intros Hwf Hc.
  destruct (Serialize_ok py_lt sorted_partial v Hwf) as [bs Hbs].
  exists bs. split; [exact Hbs|].
  unfold Deserialize, Deserialize_stream.
  pose proof (Deserialize_fuel_Serialize py_eq set_order py_lt sorted_partial
                codec_table construct v Hwf Hc bs
                (S (length bs)) [] Hbs) as H.
  rewrite app_nil_r in H. rewrite H; [reflexivity|].
  pose proof (depth_lt_length py_lt sorted_partial v (wf_sortable v Hwf) bs
                Hbs). lia.
Qed.
End Canonical.

Section Claims.
Variable py_eq : Value -> Value -> bool.
Variable set_order : list Value -> list Value.
Variable py_lt : Value -> Value -> bool.
Variable sorted_partial : list Value -> Result (list nat).
Variable codec_table : bytes -> option (bytes -> Result (list Z)).
Variable construct : bytes -> list Value -> Result Value.

Lemma comparable_spec (keys : list Value) :
  comparable keys = true
  <-> forall x y, x ∈ keys -> y ∈ keys -> lt_may_raise x y = false.
Proof.
  unfold comparable. rewrite forallb_forall. split.
  - intros H x y Hx Hy. apply list_elem_of_In in Hx, Hy.
    specialize (H x Hx). rewrite forallb_forall in H.
    apply negb_true_iff. now apply H.
  - intros H x Hx. apply forallb_forall. intros y Hy.
    apply negb_true_iff. apply H; now apply list_elem_of_In.
Qed.

Lemma comparable_perm (l1 l2 : list Value) :
  l1 ≡ₚ l2 -> comparable l1 = true -> comparable l2 = true.
Proof.
  intros HP. rewrite !comparable_spec. intros H x y Hx Hy.
  apply H; now rewrite HP.
Qed.


(** C2 (as amended).  [MapSerializer.Serialize] writes the items of a
    dictionary in ascending order of the host's [<] on the keys themselves:
    whenever that order is a strict total order on the keys of the
    dictionary, [<] raising on no two of them, the items written are a
    rearrangement of the items of the dictionary in which every key is
    below the keys after it, and two dictionaries with the same items, in
    whatever order they hold them, are written as the same bytes. *)
Theorem map_canonical (items1 items2 : list (Value * Value)) :
  items1 ≡ₚ items2 ->
  NoDup (map fst items1) ->
  comparable (map fst items1) = true ->
  strict_total_on py_lt (map fst items1) ->
  sorted py_lt fst items1 ≡ₚ items1
  /\ StronglySorted (key_lt py_lt fst) (sorted py_lt fst items1)
  /\ MapSerializer_Serialize py_lt sorted_partial items1
     = bind (IntSerializer_Serialize (len items1)) (fun bl =>
       bind (write_all (write_pair (Serialize py_lt sorted_partial))
               (sorted py_lt fst items1)) (fun bi =>
       Ok (bl ++ bi)))
  /\ MapSerializer_Serialize py_lt sorted_partial items1
     = MapSerializer_Serialize py_lt sorted_partial items2
  /\ Serialize py_lt sorted_partial (VDict items1)
     = Serialize py_lt sorted_partial (VDict items2).
Proof.
  intros HP Hnd Hcmp Hord.
  assert (Hcmp2 : comparable (map fst items2) = true).
  { apply (comparable_perm (map fst items1)); [|exact Hcmp].
    now apply Permutation_map. }
  assert (Hin : Forall (fun kv => fst kv ∈ map fst items1) items1).
  { apply Forall_forall. intros kv Hkv. apply list_elem_of_fmap. eauto. }
  assert (E : MapSerializer_Serialize py_lt sorted_partial items1
              = MapSerializer_Serialize py_lt sorted_partial items2).
  { unfold MapSerializer_Serialize, MapSerializer_Serialize_with.
    rewrite (py_sorted_comparable _ _ _ _ Hcmp).
    rewrite (py_sorted_comparable _ _ _ _ Hcmp2).
    rewrite (sorted_canonical py_lt fst (map fst items1) Hord items1 items2
               Hin Hnd HP).
    unfold len. now rewrite (Permutation_length HP). }
  split; [apply sorted_perm|].
  split; [now apply (sorted_sorted py_lt fst (map fst items1) Hord)|].
  split.
  { unfold MapSerializer_Serialize, MapSerializer_Serialize_with.
    now rewrite (py_sorted_comparable _ _ _ _ Hcmp). }
  split; [exact E|].
  rewrite !Serialize_eq. cbn [body_of tag_byte]. now rewrite E.
Qed.
End Claims.

(** ** The examples *)



Lemma strict_total_on_ba :
  strict_total_on Sample.py_lt (map fst Sample.items_ba).
Proof.
  assert (H : forall x, x ∈ map fst Sample.items_ba ->
                x = VStr (b "b") \/ x = VStr (b "a")).
  { intros x Hx. simpl in Hx.
    apply elem_of_cons in Hx as [->|Hx]; [now left|].
    apply elem_of_cons in Hx as [->|Hx]; [now right|]. inversion Hx. }
  split; [|split].
  - intros x Hx. destruct (H x Hx) as [-> | ->]; reflexivity.
  - intros x y z Hx Hy Hz.
    destruct (H x Hx) as [-> | ->], (H y Hy) as [-> | ->],
      (H z Hz) as [-> | ->]; vm_compute; congruence.
  - intros x y Hx Hy Hne.
    destruct (H x Hx) as [-> | ->], (H y Hy) as [-> | ->];
      try congruence; vm_compute; auto.
Qed.

Lemma map_canonical_witness :
  sorted Sample.py_lt fst Sample.items_ba ≡ₚ Sample.items_ba
  /\ StronglySorted (key_lt Sample.py_lt fst)
       (sorted Sample.py_lt fst Sample.items_ba)
  /\ MapSerializer_Serialize Sample.py_lt Sample.sorted_partial Sample.items_ba
     = bind (IntSerializer_Serialize (len Sample.items_ba)) (fun bl =>
       bind (write_all
               (write_pair (Serialize Sample.py_lt Sample.sorted_partial))
               (sorted Sample.py_lt fst Sample.items_ba)) (fun bi =>
       Ok (bl ++ bi)))
  /\ MapSerializer_Serialize Sample.py_lt Sample.sorted_partial Sample.items_ba
     = MapSerializer_Serialize Sample.py_lt Sample.sorted_partial Sample.items_ab
  /\ Serialize Sample.py_lt Sample.sorted_partial (VDict Sample.items_ba)
     = Serialize Sample.py_lt Sample.sorted_partial (VDict Sample.items_ab).
Proof.
  apply (map_canonical Sample.py_lt Sample.sorted_partial Sample.items_ba
           Sample.items_ab).
  - apply perm_swap.
  - simpl. apply NoDup_cons. split; [|apply NoDup_singleton].
    intros H. apply list_elem_of_singleton in H. vm_compute in H.
    discriminate.
  - reflexivity.
  - exact strict_total_on_ba.
Defined.

(** The dictionary [{1: None, -1: None}]: the pair of [-1] is written before
    the pair of [1], and the serialized form of [-1] is above that of [1]
    byte by byte. *)
Lemma map_order_not_bytewise :
  Serialize Sample.py_lt Sample.sorted_partial
    (VDict [(VInt 1, VNone); (VInt (-1), VNone)])
  = Ok ([x08; x00; x00; x00; x02]
        ++ [x00; x00; x00; x02; x01] ++ [x01; xff; xff; xff; xff] ++ [x0a]
        ++ [x00; x00; x00; x02; x01] ++ [x01; x00; x00; x00; x01] ++ [x0a])
  /\ Serialize Sample.py_lt Sample.sorted_partial (VInt (-1))
     = Ok [x01; xff; xff; xff; xff]
  /\ Serialize Sample.py_lt Sample.sorted_partial (VInt 1)
     = Ok [x01; x00; x00; x00; x01]
  /\ Sample.bytes_ltb [x01; x00; x00; x00; x01] [x01; xff; xff; xff; xff]
     = true.
Proof. repeat split; vm_compute; reflexivity. Qed.

(** The dictionary [{u'a': 1, '\xff': 2}] is not written: [sorted]
    compares the two keys, and the comparison raises. *)
Lemma mixed_keys_not_written :
  Serialize Sample.py_lt Sample.sorted_partial
    (VDict [(VUnicode [97], VInt 1); (VStr [xff], VInt 2)])
  = Raise UnicodeDecodeError.
Proof. vm_compute. reflexivity. Qed.

(** A high surrogate before a low one is written as the one code point the
    two stand for, and is read back as that code point. *)
Lemma surrogate_pair_joined :
  bind (Serialize Sample.py_lt Sample.sorted_partial
          (VUnicode [55296; 56320]))
    (Deserialize Sample.py_eq Sample.set_order Sample.codec_table
       Sample.construct)
  = Ok (VUnicode [65536]).
Proof. vm_compute. reflexivity. Qed.

(** ** The registry is a dictionary: its iteration order does not matter *)

Lemma pick_ideal (obj : Value) (best : PyType * Serializer)
    (reg : list (PyType * Serializer)) (cur : option Serializer * nat) :
  isinstance obj (fst best) = true ->
  Forall (fun e => isinstance obj (fst e) = true ->
                   e = best
                   \/ (length (mro (fst e)) < length (mro (fst best)))%nat) reg ->
  cur = (Some (snd best), length (mro (fst best)))
  \/ (best ∈ reg /\ (snd cur < length (mro (fst best)))%nat) ->
  fold_left (GetIdealSerializer_step obj) reg cur
  = (Some (snd best), length (mro (fst best))).
Proof.
  intros Hi HF. revert cur.
  induction HF as [|e reg He HF IH]; intros cur Hcur.
  - destruct Hcur as [-> | [Hin _]]; [reflexivity|inversion Hin].
  - simpl. apply IH. unfold GetIdealSerializer_step.
    destruct (isinstance obj (fst e)) eqn:Hie; simpl.
    + specialize (He eq_refl).
      destruct (Nat.ltb_spec (snd cur) (length (mro (fst e)))) as [Hlt|Hge].
      * destruct He as [-> | Hlt']; [now left|]. right.
        destruct Hcur as [-> | [Hin Hc]]; [simpl in Hlt; lia|].
        split; [|exact Hlt'].
        apply elem_of_cons in Hin as [-> | Hin]; [lia|exact Hin].
      * destruct Hcur as [-> | [Hin Hc]]; [now left|]. right.
        split; [|exact Hc].
        apply elem_of_cons in Hin as [-> | Hin]; [|exact Hin].
        destruct He as [_ | Hlt']; lia.
    + destruct Hcur as [-> | [Hin Hc]]; [now left|]. right.
      split; [|exact Hc].
      apply elem_of_cons in Hin as [-> | Hin]; [congruence|exact Hin].
Qed.

Lemma ideal_in_spec (reg : list (PyType * Serializer)) (obj : Value)
    (best : PyType * Serializer) :
  ideal_in reg obj best = true ->
  GetIdealSerializer_in reg obj = Some (snd best).
Proof.
  unfold ideal_in. intros H.
  apply andb_prop in H as [H Hall]. apply andb_prop in H as [Hin Hi].
  apply bool_decide_eq_true in Hin.
  unfold GetIdealSerializer_in.
  rewrite (pick_ideal obj best reg (None, O) Hi); [reflexivity| |].
  - apply Forall_forall. intros e He Hie.
    rewrite forallb_forall in Hall.
    specialize (Hall e (proj1 (list_elem_of_In _ _) He)).
    rewrite Hie in Hall. simpl in Hall.
    apply orb_prop in Hall as [Hall|Hall].
    + left. now apply bool_decide_eq_true in Hall.
    + right. now apply Nat.ltb_lt in Hall.
  - right. split; [exact Hin|]. simpl. destruct (fst best); simpl; lia.
Qed.

Lemma ideal_in_perm (reg reg' : list (PyType * Serializer)) (obj : Value)
    (best : PyType * Serializer) :
  reg ≡ₚ reg' -> ideal_in reg obj best = true -> ideal_in reg' obj best = true.
Proof.
  unfold ideal_in. intros HP H.
  apply andb_prop in H as [H Hall]. apply andb_prop in H as [Hin Hi].
  apply bool_decide_eq_true in Hin.
  rewrite Hi, andb_true_r. apply andb_true_intro. split.
  - apply bool_decide_eq_true. now rewrite <- HP.
  - rewrite forallb_forall in Hall |- *. intros e He. apply Hall.
    apply list_elem_of_In. apply list_elem_of_In in He. now rewrite HP.
Qed.

Lemma ideal_entry_ideal (obj : Value) :
  ideal_in SERIALIZERS obj (ideal_entry obj) = true.
Proof. destruct obj as [| | | | | |[] | | | | |]; vm_compute; reflexivity. Qed.

(** [SERIALIZERS] is a dictionary, and [GetIdealSerializer] goes through it
    in the order the dictionary happens to have: it finds the same
    serializer in any order, the one registered for the type of the
    object. *)
Lemma GetIdealSerializer_any_order (reg : list (PyType * Serializer))
    (obj : Value) :
  reg ≡ₚ SERIALIZERS ->
  GetIdealSerializer_in reg obj = GetIdealSerializer obj
  /\ GetIdealSerializer obj = Some (snd (ideal_entry obj)).
Proof.
  intros HP. unfold GetIdealSerializer.
  rewrite (ideal_in_spec SERIALIZERS obj _ (ideal_entry_ideal obj)).
  split; [|reflexivity].
  apply ideal_in_spec. apply (ideal_in_perm SERIALIZERS); [now symmetry|].
  apply ideal_entry_ideal.
Qed.

(** An exception of a class named as a string attribute of the module
    [exceptions] is written; reading it back calls the string, which
    raises [TypeError]. *)
Lemma error_named_as_module_string :
  is_Ok (Serialize Sample.py_lt Sample.sorted_partial (VExc (b "__doc__") [])) = true
  /\ Deserialize Sample.py_eq Sample.set_order Sample.codec_table Sample.construct
       (Sample.written (Serialize Sample.py_lt Sample.sorted_partial (VExc (b "__doc__") [])))
     = Raise TypeError.
Proof. split; vm_compute; reflexivity. Qed.

(** ** The fuel of [(Deserialize_fuel py_eq set_order codec_table construct)] does not show *)

(** A reader leaves no more of the stream than it was given. *)
Definition shrinks {A} (rd : Reader A) : Prop :=
  forall fin a rest, rd fin = Ok (a, rest) -> (length rest <= length fin)%nat.

(** Two readers do the same on the streams of at most [n] bytes. *)
Definition agree_upto {A} (n : nat) (r1 r2 : Reader A) : Prop :=
  forall fin, (length fin <= n)%nat -> r1 fin = r2 fin.

Lemma read_length (n : Z) (fin : bytes) :
  (length (snd (read n fin)) <= length fin)%nat.
Proof.
  unfold read. destruct (n <? 0); simpl; [lia|]. rewrite length_drop. lia.
Qed.

Lemma Int_shrinks : shrinks IntSerializer_Deserialize.
Proof.
  intros fin a rest. unfold IntSerializer_Deserialize.
  pose proof (read_length 4 fin) as L. destruct (read 4 fin) as [data fin1].
  intros H. apply bind_Ok in H as (x & _ & H). injection H as _ <-. exact L.
Qed.

Lemma Byte_shrinks_strictly (fin : bytes) (a : Z) (rest : bytes) :
  ByteSerializer_Deserialize fin = Ok (a, rest) ->
  length fin = S (length rest).
Proof.
  unfold ByteSerializer_Deserialize.
  change (read 1 fin) with (take 1 fin, drop 1 fin).
  intros H. apply bind_Ok in H as (x & Hx & H). injection H as _ <-.
  unfold struct_unpack_B in Hx.
  destruct (Nat.eqb_spec (length (take 1 fin)) 1) as [E|]; [|discriminate].
  destruct fin as [|c fin]; [discriminate|]. simpl. now rewrite drop_0.
Qed.

Lemma Byte_shrinks : shrinks ByteSerializer_Deserialize.
Proof.
  intros fin a rest H. apply Byte_shrinks_strictly in H. lia.
Qed.

Lemma Float_shrinks : shrinks FloatSerializer_Deserialize.
Proof.
  intros fin a rest. unfold FloatSerializer_Deserialize.
  pose proof (read_length 8 fin) as L. destruct (read 8 fin) as [data fin1].
  intros H. apply bind_Ok in H as (x & _ & H). injection H as _ <-. exact L.
Qed.

Lemma Bytes_shrinks : shrinks BytesSerializer_Deserialize.
Proof.
  intros fin a rest. unfold BytesSerializer_Deserialize.
  intros H. apply bind_Ok in H as ([l fin1] & Hl & H).
  apply Int_shrinks in Hl. pose proof (read_length l fin1) as L.
  injection H as H. rewrite H in L. simpl in L. lia.
Qed.

Lemma Long_shrinks : shrinks LongSerializer_Deserialize.
Proof.
  intros fin a rest. unfold LongSerializer_Deserialize.
  intros H. apply bind_Ok in H as ([s fin1] & Hs & H).
  apply Bytes_shrinks in Hs.
  apply bind_Ok in H as (n & _ & H). injection H as _ <-. exact Hs.
Qed.

Lemma Bool_shrinks : shrinks BoolSerializer_Deserialize.
Proof.
  intros fin a rest. unfold BoolSerializer_Deserialize.
  intros H. apply bind_Ok in H as ([n fin1] & Hn & H).
  apply Int_shrinks in Hn. injection H as _ <-. exact Hn.
Qed.

Lemma Slice_shrinks : shrinks SliceSerializer_Deserialize.
Proof.
  intros fin a rest. unfold SliceSerializer_Deserialize.
  intros H. apply bind_Ok in H as ([n1 f1] & H1 & H).
  apply bind_Ok in H as ([n2 f2] & H2 & H).
  apply bind_Ok in H as ([n3 f3] & H3 & H).
  apply Int_shrinks in H1, H2, H3. simpl in *. injection H as _ <-. lia.
Qed.

Lemma Text_shrinks
    (codec_table : bytes -> option (bytes -> Result (list Z))) :
  shrinks (TextSerializer_Deserialize codec_table).
Proof.
  intros fin a rest. unfold TextSerializer_Deserialize.
  intros H. apply bind_Ok in H as ([c f1] & H1 & H).
  apply bind_Ok in H as ([d f2] & H2 & H).
  apply bind_Ok in H as (text & _ & H).
  apply Bytes_shrinks in H1, H2. simpl in *. injection H as _ <-. lia.
Qed.

Section Nested.
Variable py_eq : Value -> Value -> bool.
Variable set_order : list Value -> list Value.
Variable codec_table : bytes -> option (bytes -> Result (list Z)).
Variable construct : bytes -> list Value -> Result Value.

Lemma read_n_shrinks {A} (rd : Reader A) (n : nat) :
  shrinks rd -> shrinks (read_n rd n).
Proof.
  intros Hrd. induction n as [|n IH]; intros fin a rest; simpl.
  - intros H. injection H as _ <-. lia.
  - intros H. apply bind_Ok in H as ([x f1] & H1 & H).
    apply bind_Ok in H as ([xs f2] & H2 & H).
    apply Hrd in H1. apply IH in H2. simpl in *. injection H as _ <-. lia.
Qed.

Lemma read_n_agree {A} (d1 d2 : Reader A) (n : nat) (k : nat) :
  shrinks d1 -> agree_upto n d1 d2 ->
  agree_upto n (read_n d1 k) (read_n d2 k).
Proof.
  intros Hs Ha. induction k as [|k IH]; intros fin Hfin; simpl; [reflexivity|].
  rewrite <- (Ha fin Hfin). destruct (d1 fin) as [[x f1]|e] eqn:E;
    [|reflexivity].
  simpl. apply Hs in E. rewrite (IH f1) by lia. reflexivity.
Qed.

Section Inner.
Variables d1 d2 : Reader Value.
Variable n : nat.
Hypothesis Hs : shrinks d1.
Hypothesis Ha : agree_upto n d1 d2.

Lemma Sequence_shrinks :
  shrinks (SequenceSerializer_Deserialize_with py_eq set_order d1).
Proof.
  intros fin a rest. unfold SequenceSerializer_Deserialize_with.
  intros H. apply bind_Ok in H as ([l f1] & H1 & H).
  apply bind_Ok in H as ([t f2] & H2 & H).
  apply bind_Ok in H as (tp & _ & H).
  apply bind_Ok in H as ([xs f3] & H3 & H).
  apply Int_shrinks in H1. apply Byte_shrinks in H2.
  apply (read_n_shrinks d1 _ Hs) in H3. simpl in *.
  destruct tp.
  - injection H as _ <-. lia.
  - injection H as _ <-. lia.
  - apply bind_Ok in H as (s & _ & H). injection H as _ <-. lia.
Qed.

Lemma Sequence_agree :
  agree_upto n (SequenceSerializer_Deserialize_with py_eq set_order d1)
    (SequenceSerializer_Deserialize_with py_eq set_order d2).
Proof.
  intros fin Hfin. unfold SequenceSerializer_Deserialize_with.
  destruct (IntSerializer_Deserialize fin) as [[l f1]|e] eqn:H1;
    [|reflexivity].
  simpl. destruct (ByteSerializer_Deserialize f1) as [[t f2]|e] eqn:H2;
    [|reflexivity].
  simpl. destruct (SEQ_TYPE_MAP t) as [tp|e]; [|reflexivity].
  simpl. apply Int_shrinks in H1. apply Byte_shrinks in H2.
  rewrite (read_n_agree d1 d2 n (Z.to_nat l) Hs Ha f2) by lia.
  reflexivity.
Qed.

Lemma read_item_shrinks (ret : list (Value * Value)) :
  shrinks (read_item py_eq set_order d1 ret).
Proof.
  intros fin a rest. unfold read_item.
  intros H. apply bind_Ok in H as ([v f1] & H1 & H).
  apply bind_Ok in H as (kv & _ & H).
  apply Sequence_shrinks in H1. simpl in *.
  destruct kv as [|key [|val [|]]]; try discriminate.
  apply bind_Ok in H as (ret' & _ & H). injection H as _ <-. exact H1.
Qed.

Lemma read_item_agree (ret : list (Value * Value)) :
  agree_upto n (read_item py_eq set_order d1 ret)
    (read_item py_eq set_order d2 ret).
Proof.
  intros fin Hfin. unfold read_item. now rewrite (Sequence_agree fin Hfin).
Qed.

Lemma read_items_shrinks (k : nat) (ret : list (Value * Value)) :
  shrinks (read_items py_eq set_order d1 k ret).
Proof.
  revert ret. induction k as [|k IH]; intros ret fin a rest; simpl.
  - intros H. injection H as _ <-. lia.
  - intros H. apply bind_Ok in H as ([r f1] & H1 & H).
    apply read_item_shrinks in H1. apply IH in H. simpl in *. lia.
Qed.

Lemma read_items_agree (k : nat) (ret : list (Value * Value)) :
  agree_upto n (read_items py_eq set_order d1 k ret) (read_items py_eq set_order d2 k ret).
Proof.
  revert ret. induction k as [|k IH]; intros ret fin Hfin; simpl;
    [reflexivity|].
  rewrite <- (read_item_agree ret fin Hfin).
  destruct (read_item py_eq set_order d1 ret fin) as [[r f1]|e] eqn:E; [|reflexivity].
  simpl. apply read_item_shrinks in E. apply IH. lia.
Qed.

Lemma Map_shrinks : shrinks (MapSerializer_Deserialize_with py_eq set_order d1).
Proof.
  intros fin a rest. unfold MapSerializer_Deserialize_with.
  intros H. apply bind_Ok in H as ([l f1] & H1 & H).
  apply bind_Ok in H as ([r f2] & H2 & H).
  apply Int_shrinks in H1. apply read_items_shrinks in H2. simpl in *.
  injection H as _ <-. lia.
Qed.

Lemma Map_agree :
  agree_upto n (MapSerializer_Deserialize_with py_eq set_order d1)
    (MapSerializer_Deserialize_with py_eq set_order d2).
Proof.
  intros fin Hfin. unfold MapSerializer_Deserialize_with.
  destruct (IntSerializer_Deserialize fin) as [[l f1]|e] eqn:H1;
    [|reflexivity].
  simpl. apply Int_shrinks in H1.
  rewrite (read_items_agree (Z.to_nat l) [] f1) by lia. reflexivity.
Qed.

Lemma Error_shrinks :
  shrinks (ErrorSerializer_Deserialize_with py_eq set_order construct d1).
Proof.
  intros fin a rest. unfold ErrorSerializer_Deserialize_with.
  intros H. apply bind_Ok in H as ([nm f1] & H1 & H).
  apply bind_Ok in H as ([v f2] & H2 & H).
  apply bind_Ok in H as (args & _ & H).
  apply bind_Ok in H as (e & _ & H).
  apply Bytes_shrinks in H1. apply Sequence_shrinks in H2. simpl in *.
  injection H as _ <-. lia.
Qed.

Lemma Error_agree :
  agree_upto n (ErrorSerializer_Deserialize_with py_eq set_order construct d1)
    (ErrorSerializer_Deserialize_with py_eq set_order construct d2).
Proof.
  intros fin Hfin. unfold ErrorSerializer_Deserialize_with.
  destruct (BytesSerializer_Deserialize fin) as [[nm f1]|e] eqn:H1;
    [|reflexivity].
  simpl. apply Bytes_shrinks in H1.
  rewrite (Sequence_agree f1) by lia. reflexivity.
Qed.

Lemma se_shrinks (se : Serializer) :
  shrinks (se_Deserialize_with py_eq set_order codec_table construct d1 se).
Proof.
  intros fin a rest. destruct se; cbn [se_Deserialize_with]; intros H;
    try discriminate;
    try (apply bind_Ok in H as ([x f1] & H1 & H); injection H as _ <-).
  - now apply Int_shrinks in H1.
  - now apply Long_shrinks in H1.
  - now apply Float_shrinks in H1.
  - now apply Bytes_shrinks in H1.
  - now apply Text_shrinks in H1.
  - now apply Bool_shrinks in H1.
  - now apply Sequence_shrinks in H.
  - now apply Map_shrinks in H.
  - now apply Byte_shrinks in H1.
  - injection H as _ <-. lia.
  - now apply Slice_shrinks in H.
  - injection H as _ <-. lia.
  - now apply Error_shrinks in H.
Qed.

Lemma se_agree (se : Serializer) :
  agree_upto n (se_Deserialize_with py_eq set_order codec_table construct d1 se)
    (se_Deserialize_with py_eq set_order codec_table construct d2 se).
Proof.
  intros fin Hfin. destruct se; cbn [se_Deserialize_with]; try reflexivity.
  - now apply Sequence_agree.
  - now apply Map_agree.
  - now apply Error_agree.
Qed.
End Inner.


Lemma Deserialize_fuel_shrinks (fuel : nat) : shrinks ((Deserialize_fuel py_eq set_order codec_table construct) fuel).
Proof.
  induction fuel as [|fuel IH]; intros fin a rest; simpl; [discriminate|].
  intros H. apply bind_Ok in H as ([t f1] & H1 & H).
  apply Byte_shrinks in H1. simpl in H.
  destruct (TAGS t) as [se|]; [|discriminate].
  apply (se_shrinks _ IH) in H. lia.
Qed.

(** With more fuel than the stream has bytes, the fuel makes no
    difference: [Deserialize_stream] gives the reader enough. *)
Theorem Deserialize_fuel_enough (fuel : nat) (stream : bytes) :
  (length stream < fuel)%nat ->
  (Deserialize_fuel py_eq set_order codec_table construct) fuel stream
  = Deserialize_stream py_eq set_order codec_table construct stream.
Proof.
  unfold Deserialize_stream.
  assert (G : forall f1 f2 s, (length s < f1)%nat -> (length s < f2)%nat ->
                (Deserialize_fuel py_eq set_order codec_table construct) f1 s = (Deserialize_fuel py_eq set_order codec_table construct) f2 s).
  { induction f1 as [|f1 IH]; intros f2 s L1 L2; [lia|].
    destruct f2 as [|f2]; [lia|]. simpl.
    destruct (ByteSerializer_Deserialize s) as [[t s1]|e] eqn:H1;
      [|reflexivity].
    simpl. destruct (TAGS t) as [se|]; [|reflexivity].
    apply Byte_shrinks_strictly in H1.
    apply (se_agree ((Deserialize_fuel py_eq set_order codec_table construct) f1) ((Deserialize_fuel py_eq set_order codec_table construct) f2) (length s1));
      [apply Deserialize_fuel_shrinks| |lia].
    intros s' Hs'. apply IH; lia. }
  intros L. apply G; lia.
Qed.

End Nested.

(** ** The reader does not run out of fuel *)

(** A result other than the end of the fuel. *)
Definition fuelled {A} (r : Result A) : Prop := r <> Raise OutOfFuel.

Lemma bind_fuelled {A B} (m : Result A) (k : A -> Result B) :
  fuelled m -> (forall a, m = Ok a -> fuelled (k a)) -> fuelled (bind m k).
Proof.
  unfold fuelled. destruct m as [a|e]; simpl; [auto|congruence].
Qed.

Lemma Ok_fuelled {A} (a : A) : fuelled (Ok a).
Proof. discriminate. Qed.

Lemma Int_fuelled (fin : bytes) : fuelled (IntSerializer_Deserialize fin).
Proof.
  unfold IntSerializer_Deserialize, struct_unpack_l.
  destruct (read 4 fin) as [data f1].
  destruct (length data =? 4)%nat; discriminate.
Qed.

Lemma Byte_fuelled (fin : bytes) : fuelled (ByteSerializer_Deserialize fin).
Proof.
  unfold ByteSerializer_Deserialize, struct_unpack_B.
  destruct (read 1 fin) as [data f1].
  destruct (length data =? 1)%nat; discriminate.
Qed.

Lemma Float_fuelled (fin : bytes) : fuelled (FloatSerializer_Deserialize fin).
Proof.
  unfold FloatSerializer_Deserialize, struct_unpack_d.
  destruct (read 8 fin) as [data f1].
  destruct (length data =? 8)%nat; discriminate.
Qed.

Lemma Bytes_fuelled (fin : bytes) : fuelled (BytesSerializer_Deserialize fin).
Proof.
  unfold BytesSerializer_Deserialize. apply bind_fuelled; [apply Int_fuelled|].
  intros [l f1] _. apply Ok_fuelled.
Qed.

Lemma digits_to_Z_fuelled (neg : bool) (s : bytes) : fuelled (digits_to_Z neg s).
Proof.
  unfold digits_to_Z. destruct s; [discriminate|].
  destruct (uint_of_bytes _); discriminate.
Qed.

Lemma long_of_str_fuelled (s : bytes) : fuelled (long_of_str s).
Proof.
  unfold long_of_str. destruct (drop_L_suffix (strip s)) as [|c r];
    [apply digits_to_Z_fuelled|].
  destruct c; apply digits_to_Z_fuelled.
Qed.

Lemma Long_fuelled (fin : bytes) : fuelled (LongSerializer_Deserialize fin).
Proof.
  unfold LongSerializer_Deserialize.
  apply bind_fuelled; [apply Bytes_fuelled|]. intros [s f1] _.
  apply bind_fuelled; [apply long_of_str_fuelled|]. intros n _.
  apply Ok_fuelled.
Qed.

Lemma Bool_fuelled (fin : bytes) : fuelled (BoolSerializer_Deserialize fin).
Proof.
  unfold BoolSerializer_Deserialize.
  apply bind_fuelled; [apply Int_fuelled|]. intros [n f1] _. apply Ok_fuelled.
Qed.

Lemma Slice_fuelled (fin : bytes) : fuelled (SliceSerializer_Deserialize fin).
Proof.
  unfold SliceSerializer_Deserialize.
  apply bind_fuelled; [apply Int_fuelled|]. intros r1 _.
  apply bind_fuelled; [apply Int_fuelled|]. intros r2 _.
  apply bind_fuelled; [apply Int_fuelled|]. intros r3 _. apply Ok_fuelled.
Qed.

Lemma Text_fuelled
    (codec_table : bytes -> option (bytes -> Result (list Z)))
    (fin : bytes) :
  (forall codec dec data, codec_table codec = Some dec -> fuelled (dec data)) ->
  fuelled (TextSerializer_Deserialize codec_table fin).
Proof.
  intros Hdec. unfold TextSerializer_Deserialize.
  apply bind_fuelled; [apply Bytes_fuelled|]. intros r1 _.
  apply bind_fuelled; [apply Bytes_fuelled|]. intros r2 _.
  apply bind_fuelled; [|intros; apply Ok_fuelled].
  unfold text_decode. destruct (bool_decide _); [apply Ok_fuelled|].
  destruct (codec_table (fst r1)) as [dec|] eqn:E; [|apply Ok_fuelled].
  specialize (Hdec _ _ (fst r2) E).
  destruct (dec (fst r2)) as [t|e]; [apply Ok_fuelled|].
  destruct e; try exact Hdec; apply Ok_fuelled.
Qed.

Section Fuelled.
Variable py_eq : Value -> Value -> bool.
Variable set_order : list Value -> list Value.
Variable codec_table : bytes -> option (bytes -> Result (list Z)).
Variable construct : bytes -> list Value -> Result Value.
Hypothesis construct_fuelled : forall name args, fuelled (construct name args).
Hypothesis codec_fuelled :
  forall codec dec data, codec_table codec = Some dec -> fuelled (dec data).

Section Inner.
Variable d : Reader Value.
Variable n : nat.
Hypothesis Hs : shrinks d.
Hypothesis Hf : forall fin, (length fin <= n)%nat -> fuelled (d fin).

Lemma read_n_fuelled (k : nat) (fin : bytes) :
  (length fin <= n)%nat -> fuelled (read_n d k fin).
Proof.
  revert fin. induction k as [|k IH]; intros fin L; simpl;
    [apply Ok_fuelled|].
  apply bind_fuelled; [now apply Hf|]. intros [x f1] E. apply Hs in E.
  apply bind_fuelled; [apply IH; simpl; lia|]. intros rs _. apply Ok_fuelled.
Qed.

Lemma Sequence_fuelled (fin : bytes) :
  (length fin <= n)%nat ->
  fuelled (SequenceSerializer_Deserialize_with py_eq set_order d fin).
Proof.
  intros L. unfold SequenceSerializer_Deserialize_with.
  apply bind_fuelled; [apply Int_fuelled|]. intros [l f1] E1.
  apply bind_fuelled; [apply Byte_fuelled|]. intros [t f2] E2.
  apply Int_shrinks in E1. apply Byte_shrinks in E2. simpl in *.
  apply bind_fuelled.
  { unfold SEQ_TYPE_MAP.
    destruct (t =? 0); [discriminate|]. destruct (t =? 1); [discriminate|].
    destruct (t =? 2); discriminate. }
  intros tp _. apply bind_fuelled; [apply read_n_fuelled; lia|].
  intros r3 _. destruct tp; try apply Ok_fuelled.
  apply bind_fuelled; [|intros; apply Ok_fuelled].
  unfold py_set. destruct (forallb hashable (fst r3)); discriminate.
Qed.

Lemma read_item_fuelled (ret : list (Value * Value)) (fin : bytes) :
  (length fin <= n)%nat -> fuelled (read_item py_eq set_order d ret fin).
Proof.
  intros L. unfold read_item.
  apply bind_fuelled; [now apply Sequence_fuelled|]. intros r _.
  apply bind_fuelled.
  { unfold items_of. destruct (fst r); discriminate. }
  intros kv _. destruct kv as [|key [|val [|]]]; try discriminate.
  apply bind_fuelled; [|intros; apply Ok_fuelled].
  unfold dict_setitem. destruct (hashable key); discriminate.
Qed.

Lemma read_items_fuelled (k : nat) (ret : list (Value * Value)) (fin : bytes) :
  (length fin <= n)%nat -> fuelled (read_items py_eq set_order d k ret fin).
Proof.
  revert ret fin. induction k as [|k IH]; intros ret fin L; simpl;
    [apply Ok_fuelled|].
  apply bind_fuelled; [now apply read_item_fuelled|]. intros [r f1] E.
  apply (read_item_shrinks py_eq set_order d Hs) in E. apply IH. simpl. lia.
Qed.

Lemma Map_fuelled (fin : bytes) :
  (length fin <= n)%nat ->
  fuelled (MapSerializer_Deserialize_with py_eq set_order d fin).
Proof.
  intros L. unfold MapSerializer_Deserialize_with.
  apply bind_fuelled; [apply Int_fuelled|]. intros [l f1] E1.
  apply Int_shrinks in E1. simpl.
  apply bind_fuelled; [apply read_items_fuelled; lia|]. intros r2 _.
  apply Ok_fuelled.
Qed.

Lemma Error_fuelled (fin : bytes) :
  (length fin <= n)%nat ->
  fuelled (ErrorSerializer_Deserialize_with py_eq set_order construct d fin).
Proof.
  intros L. unfold ErrorSerializer_Deserialize_with.
  apply bind_fuelled; [apply Bytes_fuelled|]. intros [nm f1] E1.
  apply Bytes_shrinks in E1. simpl.
  apply bind_fuelled; [apply Sequence_fuelled; lia|]. intros r2 _.
  apply bind_fuelled.
  { unfold items_of. destruct (fst r2); discriminate. }
  intros args _. apply bind_fuelled; [|intros; apply Ok_fuelled].
  unfold make_error. destruct (in_exceptions_strings nm); [discriminate|].
  destruct (in_exceptions nm); [apply construct_fuelled|discriminate].
Qed.

Lemma se_fuelled (se : Serializer) (fin : bytes) :
  (length fin <= n)%nat ->
  fuelled (se_Deserialize_with py_eq set_order codec_table construct d se fin).
Proof.
  intros L. destruct se; cbn [se_Deserialize_with]; try discriminate;
    try (apply bind_fuelled; [|intros; apply Ok_fuelled]).
  - apply Int_fuelled.
  - apply Long_fuelled.
  - apply Float_fuelled.
  - apply Bytes_fuelled.
  - now apply Text_fuelled.
  - apply Bool_fuelled.
  - now apply Sequence_fuelled.
  - now apply Map_fuelled.
  - apply Byte_fuelled.
  - apply Slice_fuelled.
  - now apply Error_fuelled.
Qed.
End Inner.

Lemma Deserialize_fuel_fuelled (fuel : nat) (stream : bytes) :
  (length stream < fuel)%nat ->
  fuelled (Codec.Deserialize_fuel py_eq set_order codec_table construct fuel stream).
Proof.
  revert stream. induction fuel as [|fuel IH]; intros stream L; [lia|].
  simpl. apply bind_fuelled; [apply Byte_fuelled|]. intros [t s1] E.
  apply Byte_shrinks_strictly in E. simpl.
  destruct (TAGS t) as [se|]; [|discriminate].
  apply (se_fuelled _ (length s1));
    [apply Deserialize_fuel_shrinks| |lia].
  intros fin Hfin. apply IH. lia.
Qed.

(** [Deserialize] does not run out of fuel, when the constructors and the
    decoders of the host do not say so: what it raises is what the code
    raises. *)
Theorem Deserialize_fuelled (s : bytes) :
  fuelled (Deserialize py_eq set_order codec_table construct s).
Proof.
  unfold Deserialize. apply bind_fuelled; [|intros; apply Ok_fuelled].
  apply Deserialize_fuel_fuelled. lia.
Qed.
End Fuelled.

(** ** What [Serialize] takes *)

Lemma is_Ok_bind {A B} (m : Result A) (k : A -> Result B) :
  is_Ok (bind m k) = match m with Ok a => is_Ok (k a) | Raise _ => false end.
Proof. now destruct m. Qed.

Lemma Int_is_Ok (n : Z) : is_Ok (IntSerializer_Serialize n) = i32 n.
Proof.
  unfold IntSerializer_Serialize, struct_pack_l, i32.
  now destruct ((- 2 ^ 31 <=? n) && (n <? 2 ^ 31)).
Qed.

Lemma len_is_Ok {A} (l : list A) :
  is_Ok (IntSerializer_Serialize (len l)) = short l.
Proof.
  rewrite Int_is_Ok. unfold i32, short, len.
  destruct (Z.leb_spec (- 2 ^ 31) (Z.of_nat (length l))); [reflexivity|lia].
Qed.

Lemma Bytes_is_Ok (s : bytes) : is_Ok (BytesSerializer_Serialize s) = short s.
Proof.
  unfold BytesSerializer_Serialize. rewrite is_Ok_bind, <- len_is_Ok.
  now destruct (IntSerializer_Serialize (len s)).
Qed.

Lemma write_all_is_Ok {A} (w : A -> Result bytes) (l : list A) :
  is_Ok (write_all w l) = forallb (fun x => is_Ok (w x)) l.
Proof.
  induction l as [|x l IH]; simpl; [reflexivity|].
  rewrite is_Ok_bind. destruct (w x); simpl; [|reflexivity].
  rewrite is_Ok_bind, <- IH. now destruct (write_all w l).
Qed.

Lemma Sequence_is_Ok (ser : Value -> Result bytes) (k : SeqKind)
    (items : list Value) :
  is_Ok (SequenceSerializer_Serialize_with ser k items)
  = short items && forallb (fun x => is_Ok (ser x)) items.
Proof.
  unfold SequenceSerializer_Serialize_with.
  rewrite is_Ok_bind, <- len_is_Ok.
  destruct (IntSerializer_Serialize (len items)); simpl; [|reflexivity].
  rewrite is_Ok_bind, <- write_all_is_Ok.
  destruct k; simpl; rewrite is_Ok_bind; now destruct (write_all ser items).
Qed.

Lemma forallb_Permutation {A} (f : A -> bool) (l l' : list A) :
  l ≡ₚ l' -> forallb f l = forallb f l'.
Proof.
  induction 1 as [|x l l' _ IH|x y l|l l' l'' _ IH1 _ IH2]; simpl;
    [reflexivity|now rewrite IH| |congruence].
  now destruct (f x), (f y).
Qed.

Lemma forallb_ext_Forall {A} (f g : A -> bool) (l : list A) :
  Forall (fun x => f x = g x) l -> forallb f l = forallb g l.
Proof.
  induction 1 as [|x l Hx _ IH]; simpl; [reflexivity|]. now rewrite Hx, IH.
Qed.

Lemma is_Ok_bind_Ok {A B} (m : Result A) (f : A -> B) :
  is_Ok (bind m (fun a => Ok (f a))) = is_Ok m.
Proof. now destruct m. Qed.

Lemma Map_is_Ok (py_lt : Value -> Value -> bool)
    (sorted_partial : list Value -> Result (list nat))
    (ser : Value -> Result bytes) (items : list (Value * Value)) :
  comparable (map fst items) = true ->
  is_Ok (MapSerializer_Serialize_with py_lt sorted_partial ser items)
  = short items
    && forallb (fun kv => is_Ok (ser (fst kv)) && is_Ok (ser (snd kv))) items.
Proof.
  intros Hcmp. unfold MapSerializer_Serialize_with.
  rewrite is_Ok_bind, <- len_is_Ok.
  destruct (IntSerializer_Serialize (len items)); simpl; [|reflexivity].
  rewrite (py_sorted_comparable py_lt sorted_partial fst items Hcmp).
  cbn [bind]. rewrite is_Ok_bind_Ok, write_all_is_Ok.
  rewrite (forallb_Permutation _ _ items) by apply sorted_perm.
  apply forallb_ext_Forall, Forall_forall. intros [k v] _.
  unfold write_pair. rewrite Sequence_is_Ok. simpl.
  now rewrite andb_true_r.
Qed.

Section Encodable.
Variable py_lt : Value -> Value -> bool.
Variable sorted_partial : list Value -> Result (list nat).

Lemma is_Ok_Serialize (v : Value) :
  sortable v = true ->
  is_Ok (Serialize py_lt sorted_partial v) = encodable v.
Proof.
  induction v as [n|n|x|s|s|x|k items IH|items IH| |a b c| |name args IH]
    using Value_ind; intros Hs;
    rewrite Serialize_eq, is_Ok_bind_Ok; cbn [body_of encodable];
    cbn [sortable] in Hs.
  - apply Int_is_Ok.
  - apply Bytes_is_Ok.
  - reflexivity.
  - apply Bytes_is_Ok.
  - unfold TextSerializer_Serialize.
    change (BytesSerializer_Serialize PREFERRED_ENCODING)
      with (@Ok bytes ([x00; x00; x00; x05] ++ PREFERRED_ENCODING)).
    cbn [bind]. rewrite is_Ok_bind_Ok. apply Bytes_is_Ok.
  - now destruct x.
  - unfold SequenceSerializer_Serialize. rewrite Sequence_is_Ok.
    f_equal. apply forallb_ext_Forall.
    rewrite forallb_forall in Hs. rewrite Forall_forall in IH |- *.
    intros x Hx. apply IH; [exact Hx|]. apply Hs. now apply list_elem_of_In.
  - apply andb_prop in Hs as [Hcmp Hs].
    unfold MapSerializer_Serialize. rewrite Map_is_Ok by exact Hcmp.
    f_equal. apply forallb_ext_Forall.
    rewrite forallb_forall in Hs. rewrite Forall_forall in IH |- *.
    intros kv Hkv. destruct (IH kv Hkv) as [Hk Hv].
    specialize (Hs kv (proj1 (list_elem_of_In _ _) Hkv)).
    apply andb_prop in Hs as [Hs1 Hs2]. now rewrite Hk, Hv.
  - reflexivity.
  - unfold SliceSerializer_Serialize, pack_slice_attr, i32_attr.
    destruct a as [a|], b as [b|], c as [c|];
      rewrite ?andb_false_r, <- ?Int_is_Ok;
      repeat match goal with
             | |- context [IntSerializer_Serialize ?n] =>
                 destruct (IntSerializer_Serialize n); simpl
             end; reflexivity.
  - reflexivity.
  - unfold ErrorSerializer_Serialize, ErrorSerializer_Serialize_with.
    rewrite is_Ok_bind, <- Bytes_is_Ok.
    destruct (BytesSerializer_Serialize name); simpl; [|reflexivity].
    rewrite is_Ok_bind_Ok, Sequence_is_Ok. f_equal.
    apply forallb_ext_Forall.
    rewrite forallb_forall in Hs. rewrite Forall_forall in IH |- *.
    intros x Hx. apply IH; [exact Hx|]. apply Hs. now apply list_elem_of_In.
Qed.

Lemma Serialize_raises (v : Value) (e : PyExc) :
  sortable v = true ->
  Serialize py_lt sorted_partial v = Raise e -> encodable v = false.
Proof. intros Hs H. rewrite <- is_Ok_Serialize by exact Hs. now rewrite H. Qed.

(** X1.  Of the values in which [<] raises on no two keys of a dictionary,
    [Serialize] writes exactly those whose integers, slices and lengths
    [struct.pack('!l', _)] takes, and raises on every other, whatever the
    order of the host on the keys. *)
Theorem Serialize_succeeds_iff (v : Value) :
  sortable v = true ->
  (exists bs, Serialize py_lt sorted_partial v = Ok bs) <-> encodable v = true.
Proof.
  intros Hs. rewrite <- is_Ok_Serialize by exact Hs.
  destruct (Serialize py_lt sorted_partial v) as [bs|e]; cbn.
  - split; eauto.
  - split; [now intros [? ?]|discriminate].
Qed.
End Encodable.

(** ** What [Deserialize] does with a stream *)

Section Streams.
Variable py_eq : Value -> Value -> bool.
Variable set_order : list Value -> list Value.
Variable py_lt : Value -> Value -> bool.
Variable sorted_partial : list Value -> Result (list nat).
Variable codec_table : bytes -> option (bytes -> Result (list Z)).
Variable construct : bytes -> list Value -> Result Value.


Lemma Deserialize_stream_written (v : Value) (bs rest : bytes) :
  wf v = true -> constructs py_eq set_order py_lt construct v ->
  Serialize py_lt sorted_partial v = Ok bs ->
  Deserialize_stream py_eq set_order codec_table construct (bs ++ rest)
  = Ok (decoded py_eq set_order py_lt v, rest).
Proof.
  intros Hwf Hc Hbs. unfold Codec.Deserialize_stream.
  apply (Deserialize_fuel_Serialize py_eq set_order py_lt sorted_partial
           codec_table construct v Hwf Hc); [exact Hbs|].
  pose proof (depth_lt_length py_lt sorted_partial v (wf_sortable v Hwf)
                bs Hbs).
  rewrite length_app. lia.
Qed.


(** X3.  A successful read takes at least the tag byte off the stream. *)
Theorem Deserialize_consumes (s : bytes) (v : Value) (rest : bytes) :
  Deserialize_stream py_eq set_order codec_table construct s = Ok (v, rest) ->
  (length rest < length s)%nat.
Proof.
  unfold Codec.Deserialize_stream. cbn [Deserialize_fuel].
  intros H. apply bind_Ok in H as ([t s1] & H1 & H).
  apply Byte_shrinks_strictly in H1. cbn [fst snd] in H.
  destruct (TAGS t) as [se|]; [|discriminate].
  apply (se_shrinks py_eq set_order codec_table construct _
           (Deserialize_fuel_shrinks py_eq set_order codec_table construct _)) in H.
  lia.
Qed.

Lemma TAGS_user (t : byte) :
  (14 <=? Z_of_byte t) = true -> TAGS (Z_of_byte t) = None.
Proof. destruct t; intros H; try discriminate H; reflexivity. Qed.

(** X4.  What is no serialized object: the empty string raises
    [struct.error], a string that starts with the tag of [BaseSerializer]
    raises [NotImplementedError], and one that starts with a tag from
    [TAG.USER] on, for which the module has no serializer, raises
    [KeyError]. *)
Theorem Deserialize_malformed (t : byte) (rest : bytes) :
  (14 <=? Z_of_byte t) = true ->
  Deserialize py_eq set_order codec_table construct [] = Raise StructError
  /\ Deserialize py_eq set_order codec_table construct (x00 :: rest)
     = Raise NotImplementedError
  /\ Deserialize py_eq set_order codec_table construct (t :: rest) = Raise KeyError.
Proof.
  intros Ht. split; [reflexivity|]. split; [reflexivity|].
  unfold Codec.Deserialize, Codec.Deserialize_stream.
  rewrite Deserialize_fuel_tag. now rewrite (TAGS_user t Ht).
Qed.

Lemma read_all (l : Z) (fin : bytes) :
  l < 0 \/ Z.of_nat (length fin) <= l -> read l fin = (fin, []).
Proof.
  unfold read. intros [H|H].
  - destruct (Z.ltb_spec l 0); [reflexivity|lia].
  - destruct (Z.ltb_spec l 0); [reflexivity|].
    rewrite take_ge, drop_ge by lia. reflexivity.
Qed.

(** X5.  [BytesSerializer.Deserialize] does not check the length it reads
    against the stream: with a length that is negative, or is more than what
    is left, the string read is all that is left, and nothing is raised. *)
Theorem Bytes_read_past_end (l : Z) (bl fin : bytes) :
  IntSerializer_Serialize l = Ok bl ->
  l < 0 \/ Z.of_nat (length fin) <= l ->
  BytesSerializer_Deserialize (bl ++ fin) = Ok (fin, [])
  /\ Deserialize py_eq set_order codec_table construct (x04 :: bl ++ fin) = Ok (VStr fin).
Proof.
  intros Hl Hlen.
  assert (E : BytesSerializer_Deserialize (bl ++ fin) = Ok (fin, [])).
  { unfold BytesSerializer_Deserialize. rewrite (Int_rt l bl fin Hl).
    cbn [bind]. now rewrite read_all. }
  split; [exact E|].
  unfold Codec.Deserialize, Codec.Deserialize_stream.
  rewrite Deserialize_fuel_tag.
  change (TAGS (Z_of_byte x04)) with (Some BytesSerializer).
  cbn [se_Deserialize_with]. now rewrite E.
Qed.

Lemma Byte_read (t : byte) (rest : bytes) :
  ByteSerializer_Deserialize (t :: rest) = Ok (Z_of_byte t, rest).
Proof. reflexivity. Qed.

Lemma SEQ_TYPE_MAP_unknown (t : byte) :
  (3 <=? Z_of_byte t) = true -> SEQ_TYPE_MAP (Z_of_byte t) = Raise KeyError.
Proof. destruct t; intros H; try discriminate H; reflexivity. Qed.

(** X6.  [SequenceSerializer.Deserialize] looks the type of the sequence up
    before it reads the items: with a type byte that [SEQ_TYPE_MAP] does not
    have it raises [KeyError], whatever the count and the items are. *)
Theorem Sequence_unknown_type (l : Z) (bl : bytes) (t : byte) (rest : bytes) :
  IntSerializer_Serialize l = Ok bl ->
  (3 <=? Z_of_byte t) = true ->
  Deserialize py_eq set_order codec_table construct (x07 :: bl ++ t :: rest)
  = Raise KeyError.
Proof.
  intros Hl Ht.
  unfold Codec.Deserialize, Codec.Deserialize_stream.
  rewrite Deserialize_fuel_tag.
  change (TAGS (Z_of_byte x07)) with (Some SequenceSerializer).
  cbn [se_Deserialize_with]. unfold SequenceSerializer_Deserialize_with.
  rewrite (Int_rt l bl _ Hl). cbn [bind fst snd].
  rewrite Byte_read. cbn [bind fst snd].
  now rewrite (SEQ_TYPE_MAP_unknown t Ht).
Qed.

(** X7.  A count that is zero or negative reads as the empty container:
    [xrange(l)] is empty, no item is read and nothing is raised. *)
Theorem nonpositive_count_reads_empty (l : Z) (bl : bytes) (t : byte)
    (k : SeqKind) (rest : bytes) :
  IntSerializer_Serialize l = Ok bl -> l <= 0 ->
  SEQ_TYPE_MAP (Z_of_byte t) = Ok k ->
  Deserialize_stream py_eq set_order codec_table construct (x07 :: bl ++ t :: rest)
  = Ok (VSeq k [], rest)
  /\ Deserialize_stream py_eq set_order codec_table construct (x08 :: bl ++ rest)
     = Ok (VDict [], rest).
Proof.
  intros Hl Hneg Hk. unfold Codec.Deserialize_stream.
  rewrite !Deserialize_fuel_tag.
  change (TAGS (Z_of_byte x07)) with (Some SequenceSerializer).
  change (TAGS (Z_of_byte x08)) with (Some MapSerializer).
  cbn [se_Deserialize_with].
  unfold SequenceSerializer_Deserialize_with, MapSerializer_Deserialize_with.
  rewrite !(Int_rt l bl _ Hl). cbn [bind fst snd]. rewrite Byte_read.
  cbn [bind fst snd]. rewrite Hk.
  replace (Z.to_nat l) with O by lia. cbn [bind read_n read_items fst snd].
  split; [|reflexivity]. now destruct k.
Qed.
End Streams.

(** ** The registry with a serializer for [object] *)

Lemma SERIALIZERS_set_fresh (tp : PyType) (ser : Serializer)
    (reg : list (PyType * Serializer)) :
  tp ∉ map fst reg -> SERIALIZERS_set tp ser reg ≡ₚ (tp, ser) :: reg.
Proof.
  induction reg as [|[tp' ser'] reg IH]; simpl; intros Hn; [reflexivity|].
  apply not_elem_of_cons in Hn as [Hne Hn].
  rewrite bool_decide_eq_false_2 by congruence.
  rewrite (IH Hn). apply perm_swap.
Qed.

Lemma ideal_entry_with_object (ser : Serializer) (obj : Value) :
  ideal_in ((t_object, ser) :: SERIALIZERS) obj (ideal_entry obj) = true.
Proof.
  pose proof (ideal_entry_ideal obj) as H. unfold ideal_in in *.
  apply andb_prop in H as [H Hall]. apply andb_prop in H as [Hin Hi].
  apply bool_decide_eq_true in Hin.
  rewrite Hi, andb_true_r. apply andb_true_intro. split.
  - apply bool_decide_eq_true. now right.
  - cbn [forallb]. rewrite Hall, andb_true_r.
    apply implb_true_iff. intros _. apply orb_true_iff. right.
    destruct obj as [| | | | | |[] | | | | |]; reflexivity.
Qed.

(** X8.  [GetIdealSerializer] goes through the dictionary [SERIALIZERS] in
    whatever order the dictionary has, and finds the serializer registered
    for the type of the object in any order: [BoolSerializer] for a [bool],
    which is an [int] too. It still does after a serializer is set for
    [object], as [Service.__init__] sets one: every object is an [object],
    and the [mro] of [object] is the shortest. *)
Theorem GetIdealSerializer_most_specific (reg : list (PyType * Serializer))
    (ser : Serializer) (obj : Value) :
  reg ≡ₚ SERIALIZERS ->
  GetIdealSerializer_in reg obj = Some (snd (ideal_entry obj))
  /\ GetIdealSerializer_in (SERIALIZERS_set t_object ser reg) obj
     = Some (snd (ideal_entry obj)).
Proof.
  intros HP. split.
  - apply ideal_in_spec. apply (ideal_in_perm SERIALIZERS); [now symmetry|].
    apply ideal_entry_ideal.
  - apply ideal_in_spec.
    apply (ideal_in_perm ((t_object, ser) :: SERIALIZERS)).
    + rewrite SERIALIZERS_set_fresh.
      * now rewrite HP.
      * rewrite HP. vm_compute. intros H.
        repeat (apply elem_of_cons in H as [H|H]; [discriminate H|]).
        inversion H.
    + apply ideal_entry_with_object.
Qed.

(** ** The examples of the stream properties *)

Lemma Serialize_succeeds_iff_witness :
  (exists bs,
     Serialize Sample.py_lt Sample.sorted_partial Sample.sample_value = Ok bs)
  <-> encodable Sample.sample_value = true.
Proof.
  apply (Serialize_succeeds_iff Sample.py_lt Sample.sorted_partial
           Sample.sample_value).
  reflexivity.
Defined.


Lemma Deserialize_consumes_witness : (length (@nil byte) < length [x0a])%nat.
Proof.
  apply (Deserialize_consumes Sample.py_eq Sample.set_order Sample.codec_table Sample.construct
           [x0a] VNone []).
  reflexivity.
Defined.

Lemma Deserialize_malformed_witness :
  Deserialize Sample.py_eq Sample.set_order Sample.codec_table Sample.construct []
  = Raise StructError
  /\ Deserialize Sample.py_eq Sample.set_order Sample.codec_table Sample.construct [x00; x01]
     = Raise NotImplementedError
  /\ Deserialize Sample.py_eq Sample.set_order Sample.codec_table Sample.construct [xff; x01]
     = Raise KeyError.
Proof.
  apply (Deserialize_malformed Sample.py_eq Sample.set_order Sample.codec_table Sample.construct
           xff [x01]).
  reflexivity.
Defined.

Lemma Bytes_read_past_end_witness :
  BytesSerializer_Deserialize ([x00; x00; x00; x64] ++ b "abc")
  = Ok (b "abc", [])
  /\ Deserialize Sample.py_eq Sample.set_order Sample.codec_table Sample.construct
       (x04 :: [x00; x00; x00; x64] ++ b "abc")
     = Ok (VStr (b "abc")).
Proof.
  apply (Bytes_read_past_end Sample.py_eq Sample.set_order Sample.codec_table Sample.construct
           100 [x00; x00; x00; x64] (b "abc")).
  - reflexivity.
  - right. vm_compute. discriminate.
Defined.

Lemma Sequence_unknown_type_witness :
  Deserialize Sample.py_eq Sample.set_order Sample.codec_table Sample.construct
    (x07 :: [x00; x00; x00; x01] ++ x03 :: [x0a])
  = Raise KeyError.
Proof.
  apply (Sequence_unknown_type Sample.py_eq Sample.set_order Sample.codec_table Sample.construct
           1 [x00; x00; x00; x01] x03 [x0a]); reflexivity.
Defined.

Lemma nonpositive_count_reads_empty_witness :
  Deserialize_stream Sample.py_eq Sample.set_order Sample.codec_table Sample.construct
    (x07 :: [xff; xff; xff; xff] ++ x02 :: [x0a])
  = Ok (VSeq KSet [], [x0a])
  /\ Deserialize_stream Sample.py_eq Sample.set_order Sample.codec_table Sample.construct
       (x08 :: [xff; xff; xff; xff] ++ [x0a])
     = Ok (VDict [], [x0a]).
Proof.
  apply (nonpositive_count_reads_empty Sample.py_eq Sample.set_order Sample.codec_table
           Sample.construct (-1) [xff; xff; xff; xff] x02 KSet [x0a]).
  - reflexivity.
  - lia.
  - reflexivity.
Defined.

Lemma GetIdealSerializer_most_specific_witness :
  GetIdealSerializer_in (rev SERIALIZERS) (VBool true) = Some BoolSerializer
  /\ GetIdealSerializer_in
       (SERIALIZERS_set t_object BaseSerializer (rev SERIALIZERS))
       (VBool true)
     = Some BoolSerializer.
Proof.
  apply (GetIdealSerializer_most_specific (rev SERIALIZERS) BaseSerializer
           (VBool true)).
  symmetry. apply Permutation_rev.
Defined.

End CodecFacts.

(* ================================================================== *)
(** * Facts about the packets and the service                          *)
(* ================================================================== *)

Module ServiceFacts.
Import Host HostFacts Codec CodecFacts Pkt Service.

Section ServiceFacts.
Variable Obj : Type.
Variable id : Obj -> Z.
Variable py_eq : Value -> Value -> bool.
Variable set_order : list Value -> list Value.
Variable py_lt : Value -> Value -> bool.
Variable sorted_partial : list Value -> Result (list nat).
Variable codec_table : bytes -> option (bytes -> Result (list Z)).
Variable construct : bytes -> list Value -> Result Value.


(** ** NewXID *)

Lemma land_mask (x : Z) : Z.land x 4294967295 = x mod 2 ^ 32.
Proof. change 4294967295 with (Z.ones 32). apply Z.land_ones. lia. Qed.

(** What a call of [NewXID] returns and leaves. *)
Lemma NewXID_spec (s : State Obj) :
  NewXID s
  = (Ok ((XID s + 1) mod 2 ^ 32 - 1),
     set_XID ((XID s + 1) mod 2 ^ 32) s).
Proof. unfold NewXID. now rewrite land_mask. Qed.

Lemma NewXID_range (s : State Obj) (x : Z) :
  fst (NewXID s) = Ok x -> -1 <= x < 2 ^ 32 - 1.
Proof.
  rewrite NewXID_spec. simpl. intros [= <-].
  pose proof (Z.mod_pos_bound (XID s + 1) (2 ^ 32) ltac:(lia)). lia.
Qed.

Lemma XID_after_calls (n : nat) (s : State Obj) :
  0 <= XID s < 2 ^ 32 ->
  XID (after_calls n s) = (XID s + Z.of_nat n) mod 2 ^ 32.
Proof.
  intros Hs. induction n as [|n IH].
  - simpl. rewrite Z.add_0_r. symmetry. apply Z.mod_small. lia.
  - unfold after_calls in *. rewrite Nat.iter_succ. rewrite NewXID_spec.
    cbn [snd]. unfold set_XID at 1. cbn [XID]. rewrite IH.
    rewrite Zplus_mod_idemp_l. f_equal. lia.
Qed.

(** ** Unregister *)

Lemma Unregister_spec (name : string) (s : State Obj) :
  Unregister name s = (Ok tt, set_pubmap (delete name (pubmap s)) s).
Proof.
  unfold Unregister. destruct (pubmap s !! name) eqn:E; [reflexivity|].
  rewrite delete_id by exact E. now destruct s.
Qed.

(** ** The event log *)

Lemma keeps_ret {A} (a : A) : keeps_events (@ret Obj A a).
Proof. now intros s. Qed.
Lemma keeps_raise {A} (e : PyExc) : keeps_events (@raise Obj A e).
Proof. now intros s. Qed.
Lemma keeps_lift {A} (r : Result A) : keeps_events (@lift Obj A r).
Proof. now intros s. Qed.
Lemma keeps_gets {A} (f : (State Obj) -> A) : keeps_events (gets f).
Proof. now intros s. Qed.
Lemma keeps_deref (r : Ref) : keeps_events (@deref Obj r).
Proof. intros s. unfold deref. now destruct (heap s !! r). Qed.
Lemma keeps_update (r : Ref) f : keeps_events (@update Obj r f).
Proof. now intros s. Qed.
Lemma keeps_bind {A B} (m : M Obj A) (k : A -> M Obj B) :
  keeps_events m -> (forall a, keeps_events (k a)) -> keeps_events (bindM m k).
Proof.
  intros Hm Hk s. unfold bindM. specialize (Hm s).
  destruct (m s) as [[a|e] s1]; simpl in *; [|exact Hm].
  now rewrite Hk.
Qed.

Lemma grows_keeps {A} (m : M Obj A) : keeps_events m -> grows_events m.
Proof. intros H s. exists []. now rewrite app_nil_r. Qed.

Lemma grows_bind {A B} (m : M Obj A) (k : A -> M Obj B) :
  grows_events m -> (forall a, grows_events (k a)) -> grows_events (bindM m k).
Proof.
  intros Hm Hk s. unfold bindM. destruct (Hm s) as [t Ht].
  destruct (m s) as [[a|e] s1]; simpl in *; [|eauto].
  destruct (Hk a s1) as [t' Ht']. exists (t ++ t').
  now rewrite Ht', Ht, app_assoc.
Qed.

Lemma grows_emit (e : Event) : grows_events (@modify Obj (emit e)).
Proof. intros s. now exists [e]. Qed.

Lemma keeps_Accept (r : Ref) (obj : Packet) :
  keeps_events (@Accept Obj py_eq r obj).
Proof.
  unfold Accept. apply keeps_bind; [apply keeps_deref|]. intros d.
  apply keeps_bind; [apply keeps_lift|]. intros hit.
  apply keeps_bind; [|intros _; apply keeps_update].
  destruct hit; [apply keeps_update|apply keeps_ret].
Qed.

Lemma keeps_SendAll (ev : Packet) : keeps_events (@SendAll Obj py_eq ev).
Proof.
  unfold SendAll. apply keeps_bind; [apply keeps_gets|]. intros rs.
  induction rs as [|r rs IH]; simpl; [apply keeps_ret|].
  apply keeps_bind; [apply keeps_Accept|]. intros _. exact IH.
Qed.

Lemma keeps_deliver (batch : list Packet) :
  keeps_events (@deliver Obj py_eq batch).
Proof.
  induction batch as [|ev batch IH]; simpl; [apply keeps_ret|].
  apply keeps_bind; [apply keeps_SendAll|]. intros _. exact IH.
Qed.

Lemma keeps_Process (r : Ref) : keeps_events (@Process Obj py_eq r).
Proof.
  unfold Process. apply keeps_bind; [apply keeps_deref|]. intros d.
  generalize (length (queue d)). intros n.
  induction n as [|n IH]; simpl; [apply keeps_ret|].
  apply keeps_bind; [apply keeps_deref|]. intros d'.
  destruct (queue d') as [|obj q']; [apply keeps_ret|].
  apply keeps_bind; [apply keeps_update|]. intros _.
  apply keeps_bind; [apply keeps_lift|]. intros hit.
  destruct hit; [|exact IH].
  apply keeps_bind; [|intros _; apply keeps_ret]. now intros s.
Qed.

Lemma grows_Wait_loop (r : Ref) (arrivals : list (list Packet)) :
  grows_events (@Wait_loop Obj py_eq r arrivals).
Proof.
  induction arrivals as [|batch arrivals IH]; simpl.
  - apply grows_keeps, keeps_ret.
  - apply grows_bind; [apply grows_emit|]. intros _.
    apply grows_bind; [apply grows_keeps, keeps_deliver|]. intros _.
    apply grows_bind; [apply grows_keeps, keeps_Process|]. intros res.
    destruct res; [apply grows_keeps, keeps_ret|exact IH].
Qed.

End ServiceFacts.

Section Order.
Variable Obj : Type.
Variable py_eq : Value -> Value -> bool.
Variable set_order : list Value -> list Value.
Variable py_lt : Value -> Value -> bool.
Variable sorted_partial : list Value -> Result (list nat).


Lemma bindM_Ok {A B} (m : M Obj A) (k : A -> M Obj B) (s s1 : State Obj) (a : A) :
  m s = (Ok a, s1) -> bindM m k s = k a s1.
Proof. unfold bindM. now intros ->. Qed.

Lemma bindM_Raise {A B} (m : M Obj A) (k : A -> M Obj B) (s s1 : State Obj) e :
  m s = (Raise e, s1) -> bindM m k s = (Raise e, s1).
Proof. unfold bindM. now intros ->. Qed.

Lemma SendPacket_spec (cli : Client) (_cmd : option Z)
    (kwargs : gmap string Value) (s : State Obj) :
  SendPacket cli _cmd kwargs s
  = (Ok (length (heap s)),
     sent_state cli (match _cmd with Some c => c | None => CMD.PULL end)
       kwargs s).
Proof. reflexivity. Qed.

(** The rest of [DeferredResult.Wait], after [Deferred.Wait] has returned,
    logs nothing. *)
Lemma keeps_after_Wait (r : Ref) (d : DeferredResult) (res : option Packet) :
  @keeps_events Obj (option Value)
    (match res with
     | None => ret None
     | Some obj =>
         bindM (update r (fun d => mkDeferredResult (onwait d) (queue d) (xid d)
                                     (Some obj) (ready d))) (fun _ =>
         bindM (modify (fun s => set_outstanding
                                   (delete (xid d) (outstanding s)) s)) (fun _ =>
         bindM (update r (fun d => mkDeferredResult (onwait d) (queue d) (xid d)
                                     (result d) true)) (fun _ =>
         bindM (deref r) (fun d' =>
         bindM (lift (GetResult d')) (fun v => ret (Some v))))))
     end).
Proof.
  destruct res as [obj|]; [|apply keeps_ret].
  apply keeps_bind; [apply keeps_update|]. intros _.
  apply keeps_bind; [now intros s|]. intros _.
  apply keeps_bind; [apply keeps_update|]. intros _.
  apply keeps_bind; [apply keeps_deref|]. intros d'.
  apply keeps_bind; [apply keeps_lift|]. intros v. apply keeps_ret.
Qed.

(** C9.  For every outbound request: [SendPacket] stores the deferred in
    [outstanding] under its xid before it returns, so before [Wait] is
    called on it; [Wait] adds the deferred to [WAITING] and only then runs
    the [onwait] hook, in a state where the deferred is in [WAITING] and in
    [outstanding]; the datagram, when one is sent, is sent after that. *)
Theorem waiter_before_transmit (cli : Client) (_cmd : option Z)
    (kwargs : gmap string Value) (arrivals : list (list Packet)) (s : State Obj) :
  exists (x : Z) (act : Ref) (ow : OnWait) (s1 s2 : State Obj) (tail : list Event),
    SendPacket cli _cmd kwargs s = (Ok act, s1)
    /\ outstanding s1 !! x = Some act
    /\ events s1 = events s ++ [EvOutstanding x act]
    /\ Go py_lt sorted_partial act (emit (EvWaitCalled act) s1) = run_onwait py_lt sorted_partial ow s2
    /\ ow_xid ow = x /\ ow_cli ow = cli
    /\ act ∈ WAITING s2
    /\ outstanding s2 !! x = Some act
    /\ events s2 = events s1 ++ [EvWaitCalled act; EvWaiting act]
    /\ events (snd (DeferredResult_Wait py_eq py_lt sorted_partial act arrivals s1))
       = events s2 ++ tail
    /\ (tail = []
        \/ exists data tail', tail = EvSendto data (cli_addr cli) :: tail').
Proof.
  set (c := match _cmd with Some c => c | None => CMD.PULL end).
  set (x := Z.land (XID s + 1) 4294967295 - 1).
  set (act := length (heap s) : Ref).
  set (ow := mkOnWait c x kwargs cli).
  set (d0 := mkDeferredResult (Some ow) [] x None false).
  set (s1 := sent_state cli c kwargs s).
  set (s2 := emit (EvWaiting act)
               (set_WAITING (if bool_decide (act ∈ WAITING s1) then WAITING s1
                             else WAITING s1 ++ [act])
                  (emit (EvWaitCalled act) s1))).
  assert (Hheap : forall s' : (State Obj), heap s' = heap s1 -> heap s' !! act = Some d0).
  { intros s' ->. unfold s1, sent_state. cbn [heap].
    apply list_lookup_middle. reflexivity. }
  assert (HGo : Go py_lt sorted_partial act (emit (EvWaitCalled act) s1)
                = run_onwait py_lt sorted_partial ow s2).
  { unfold Go. erewrite bindM_Ok by reflexivity. fold s2.
    rewrite (bindM_Ok _ _ s2 s2 d0); [reflexivity|].
    unfold deref. now rewrite (Hheap s2 eq_refl). }
  assert (Hsplit : exists tail,
             events (snd (DeferredResult_Wait py_eq py_lt sorted_partial act arrivals s1))
             = events s2 ++ tail
             /\ (tail = [] \/ exists data tail',
                   tail = EvSendto data (cli_addr cli) :: tail')).
  { unfold DeferredResult_Wait. erewrite bindM_Ok by reflexivity.
    rewrite (bindM_Ok _ _ _ (emit (EvWaitCalled act) s1) d0)
      by (unfold deref; now rewrite (Hheap (emit (EvWaitCalled act) s1) eq_refl)).
    cbn [ready d0]. cbv iota.
    unfold bindM at 1.
    destruct (Deferred_Wait py_eq py_lt sorted_partial act arrivals (emit (EvWaitCalled act) s1))
      as [[res|e] s3] eqn:EW.
    - pose proof (keeps_after_Wait act d0 res s3) as Hk.
      cbn [xid d0] in Hk |- *. rewrite Hk. clear Hk.
      change s3 with (snd (Ok res, s3)). rewrite <- EW. clear EW.
      unfold Deferred_Wait, bindM at 1. rewrite HGo.
      unfold run_onwait. cbn [ow_kwargs ow ow_cmd ow_xid ow_cli].
      destruct (clashes kwargs); [exists []; rewrite app_nil_r; auto|].
      unfold bindM at 1, lift.
      destruct (Packet___str__ py_lt sorted_partial _) as [data|e];
        [|exists []; rewrite app_nil_r; auto].
      cbn [modify fst snd].
      destruct (grows_Wait_loop Obj py_eq act arrivals
                  (emit (EvSendto data (cli_addr cli)) s2)) as [t Ht].
      rewrite Ht. exists (EvSendto data (cli_addr cli) :: t). split; [|eauto].
      cbn [events emit]. now rewrite <- app_assoc.
    - cbn [snd]. change s3 with (snd (@Raise (option Packet) e, s3)).
      rewrite <- EW. clear EW.
      unfold Deferred_Wait, bindM at 1. rewrite HGo.
      unfold run_onwait. cbn [ow_kwargs ow ow_cmd ow_xid ow_cli].
      destruct (clashes kwargs); [exists []; rewrite app_nil_r; auto|].
      unfold bindM at 1, lift.
      destruct (Packet___str__ py_lt sorted_partial _) as [data|e'];
        [|exists []; rewrite app_nil_r; auto].
      cbn [modify fst snd].
      destruct (grows_Wait_loop Obj py_eq act arrivals
                  (emit (EvSendto data (cli_addr cli)) s2)) as [t Ht].
      rewrite Ht. exists (EvSendto data (cli_addr cli) :: t). split; [|eauto].
      cbn [events emit]. now rewrite <- app_assoc. }
  destruct Hsplit as (tail & Ht1 & Ht2).
  exists x, act, ow, s1, s2, tail.
  split; [reflexivity|]. split; [apply lookup_insert_eq|].
  split; [reflexivity|]. split; [exact HGo|].
  split; [reflexivity|]. split; [reflexivity|].
  split.
  { unfold s2. cbn [WAITING emit set_WAITING]. case_bool_decide as Hin;
      [exact Hin|]. apply elem_of_app. right. now left. }
  split; [apply lookup_insert_eq|].
  split; [unfold s2; cbn [events emit set_WAITING]; now rewrite <- app_assoc|].
  split; [exact Ht1|exact Ht2].
Qed.
End Order.

(** ** Packet *)

Lemma Has_one (pkt : Packet) (attr : string) :
  Has pkt [attr] = bool_decide (is_Some (fst (get_attrs pkt) !! attr)).
Proof. unfold Has. simpl. apply andb_true_r. Qed.

Lemma get_Some (pkt : Packet) (attr : string) (v : Value) :
  fst (get_attrs pkt) !! attr = Some v -> get pkt attr = Ok v.
Proof.
  unfold get, Packet___getattr___other. destruct (get_attrs pkt) as [m p].
  simpl. now intros ->.
Qed.

Lemma get_None (pkt : Packet) (attr : string) :
  fst (get_attrs pkt) !! attr = None -> get pkt attr = Raise KeyError.
Proof.
  unfold get, Packet___getattr___other. destruct (get_attrs pkt) as [m p].
  simpl. now intros ->.
Qed.

(** ** GetResult *)

(** C4 (as amended).  [GetResult] fails with the not-ready error when the
    deferred is not ready.  When it is ready, the [error] attribute of the
    reply goes before its [result] attribute: for a reply without [error],
    [GetResult] gives the [result] attribute of the reply (so, when the
    reply has one, returns it); for a reply with [error], [GetResult] does
    not return, whether the reply has a [result] or not. *)
Theorem GetResult_spec (d : DeferredResult) :
  (ready d = false ->
     GetResult d = Raise (RuntimeError "Value not available yet"))
  /\ (forall pkt, ready d = true -> result d = Some pkt ->
        Has pkt ["error"%string] = false -> GetResult d = get pkt "result")
  /\ (forall pkt v, ready d = true -> result d = Some pkt ->
        Has pkt ["error"%string] = false ->
        fst (get_attrs pkt) !! "result"%string = Some v -> GetResult d = Ok v)
  /\ (forall pkt, ready d = true -> result d = Some pkt ->
        Has pkt ["error"%string] = true -> forall v, GetResult d <> Ok v).
Proof.
  unfold GetResult. repeat split.
  - now intros ->.
  - intros pkt -> -> ->. reflexivity.
  - intros pkt v -> -> -> Hv. simpl. now apply get_Some.
  - intros pkt -> -> -> v. simpl. discriminate.
Qed.

Section ServiceFacts2.
Variable Obj : Type.
Variable id : Obj -> Z.
Variable py_eq : Value -> Value -> bool.
Variable set_order : list Value -> list Value.
Variable py_lt : Value -> Value -> bool.
Variable sorted_partial : list Value -> Result (list nat).
Variable codec_table : bytes -> option (bytes -> Result (list Z)).
Variable construct : bytes -> list Value -> Result Value.


(** ** Authorizor *)

Lemma startswith_underscore (v : Value) :
  is_string v = true -> startswith v (b "_") = Ok (underscored v).
Proof.
  destruct v as [| | |s|s| | | | | | |]; try discriminate; intros _;
    simpl; f_equal; (destruct s as [|c s]; [reflexivity|]); simpl;
    rewrite take_0; apply bool_decide_ext.
  - change (b "_") with ["_"%byte]. split; congruence.
  - change (Z_of_byte "_") with 95. split; congruence.
Qed.

(** C8.  For a packet whose [attr], when it has one, is a string:
    [CanClientSync] is true for every client; [CanClientAccess] returns
    false exactly when the packet carries an [attr] that starts with an
    underscore, and true for every other packet. *)
Theorem Authorizor_defaults (client : Client) (obj : Obj) (pkt : Packet) :
  (forall a, fst (get_attrs pkt) !! "attr"%string = Some a ->
     is_string a = true) ->
  CanClientSync client = true
  /\ (CanClientAccess client obj pkt = Ok false
      <-> exists a, fst (get_attrs pkt) !! "attr"%string = Some a
                    /\ underscored a = true)
  /\ ((forall a, fst (get_attrs pkt) !! "attr"%string = Some a ->
         underscored a = false) ->
      CanClientAccess client obj pkt = Ok true).
Proof.
  intros Hstr. split; [reflexivity|].
  unfold CanClientAccess. rewrite Has_one.
  destruct (fst (get_attrs pkt) !! "attr"%string) as [a|] eqn:E.
  - rewrite bool_decide_eq_true_2 by eauto.
    rewrite (get_Some _ _ _ E). simpl.
    rewrite (startswith_underscore a (Hstr a eq_refl)). simpl.
    split.
    + split.
      * intros [= H]. exists a. split; [reflexivity|].
        now apply negb_false_iff in H.
      * intros (a' & [= <-] & ->). reflexivity.
    + intros H. now rewrite (H a eq_refl).
  - rewrite bool_decide_eq_false_2 by (intros [? ?]; discriminate).
    split; [|reflexivity]. split; [discriminate|]. intros (a & ? & _).
    discriminate.
Qed.

(** ** Unregister *)

(** C10.  [Unregister(name)] does not raise and leaves [omap] as it was; of
    [pubmap] it removes the entry of [name] and no other; when [name] has
    no entry, the whole state is as it was. *)
Theorem Unregister_frame (name : string) (s : State Obj) :
  fst (Unregister name s) = Ok tt
  /\ omap (snd (Unregister name s)) = omap s
  /\ pubmap (snd (Unregister name s)) = delete name (pubmap s)
  /\ (forall name', name' <> name ->
        pubmap (snd (Unregister name s)) !! name' = pubmap s !! name')
  /\ (pubmap s !! name = None -> snd (Unregister name s) = s).
Proof.
  rewrite Unregister_spec. cbn [fst snd set_pubmap omap pubmap].
  repeat split.
  - intros name' Hne. now apply lookup_delete_ne.
  - intros E. rewrite delete_id by exact E. now destruct s.
Qed.

(** ** RemoteReference.DelItem *)

(** C7.  [RemoteReference.DelItem] asks the service for its method
    [Delitem]; the service has [DelItem] and no [Delitem], so the call
    raises [AttributeError], in blocking mode or not, and leaves the service
    as it was: no request is made, nothing is stored in [outstanding] and
    nothing is awaited.  The method [DelItem] of the service, had it been
    called on the client, the object id and the item, stores a deferred for
    a [PULL] with [op='DelItem'], the object id and the item. *)
Theorem DelItem_raises (self : RemoteReference) (item : Value)
    (arrivals : list (list Packet)) (s : State Obj) :
  RemoteReference_DelItem py_eq py_lt sorted_partial self item arrivals s
  = (Raise (AttributeError "'Service' object has no attribute"), s)
  /\ (forall (o : Outcome) (s' : State Obj),
        RemoteReference_DelItem py_eq py_lt sorted_partial self item arrivals s
        <> (Ok o, s'))
  /\ call m_DelItem (rr_cli self) (rr_oid self) [item] [] s
     = (Ok (length (heap s)),
        sent_state (rr_cli self) CMD.PULL
          (kw [op "DelItem"; ("oid"%string, VLong (rr_oid self));
               ("item"%string, item)]) s).
Proof.
  assert (E : RemoteReference_DelItem py_eq py_lt sorted_partial self item arrivals s
              = (Raise (AttributeError "'Service' object has no attribute"),
                 s)).
  { unfold RemoteReference_DelItem, request.
    now apply bindM_Raise. }
  split; [exact E|]. split.
  - intros o s' H. rewrite E in H. discriminate.
  - apply SendPacket_spec.
Qed.

(** The method under the name the class defines is found; under the name
    [DelItem] of the reference looks up, none is. *)
Lemma Service_getattr_DelItem :
  Service_getattr "DelItem" = Ok m_DelItem
  /\ Service_getattr "Delitem"
     = Raise (AttributeError "'Service' object has no attribute").
Proof. split; reflexivity. Qed.

End ServiceFacts2.

Section Handles.
Variable Obj : Type.
Variable py_eq : Value -> Value -> bool.
Variable set_order : list Value -> list Value.
Variable py_lt : Value -> Value -> bool.
Variable sorted_partial : list Value -> Result (list nat).
Variable codec_table : bytes -> option (bytes -> Result (list Z)).
Variable construct : bytes -> list Value -> Result Value.


Lemma Deserialize_stream_Serialize (v : Value) (bs rest : bytes) :
  wf v = true -> constructs py_eq set_order py_lt construct v ->
  Serialize py_lt sorted_partial v = Ok bs ->
  Deserialize_stream py_eq set_order codec_table construct (bs ++ rest)
  = Ok (decoded py_eq set_order py_lt v, rest).
Proof.
  intros Hwf Hc Hbs. unfold Deserialize_stream.
  apply (Deserialize_fuel_Serialize py_eq set_order py_lt sorted_partial
           codec_table construct v Hwf Hc); [exact Hbs|].
  pose proof (depth_lt_length py_lt sorted_partial v (wf_sortable v Hwf)
                bs Hbs).
  rewrite length_app. lia.
Qed.

Lemma ObjectTranslator_Deserialize_parsed (fin fin1 fin2 : bytes) (oid : Z)
    (v : Value) (items : list Value) (s : State Obj) :
  LongSerializer_Deserialize fin = Ok (oid, fin1) ->
  SequenceSerializer_Deserialize py_eq set_order codec_table construct fin1
  = Ok (v, fin2) ->
  items_of v = Ok items ->
  ObjectTranslator_Deserialize py_eq set_order codec_table construct fin s
  = resolve py_eq oid (VSeq KTuple items) fin2 s.
Proof.
  intros H1 H2 H3. unfold ObjectTranslator_Deserialize, resolve.
  unfold bindM, lift, gets. rewrite H1. cbn [fst snd]. rewrite H2.
  cbn [fst snd]. rewrite H3.
  destruct (py_eq (VSeq KTuple items) (addr s)).
  - destruct (omap s !! oid); reflexivity.
  - unfold GetClient. destruct (hashable (VSeq KTuple items)); [|reflexivity].
    destruct (dict_lookup py_eq (clients s) (VSeq KTuple items)); reflexivity.
Qed.

(** C5.  For every handle, the object id [oid] and the owner address [a]
    as [ObjectTranslator.Serialize] writes them (an address that is written
    and read back as it is): when [a] equals the
    address of the service, reading the handle returns the object that
    [omap] holds under [oid], the very same, and fails with the bad-oid
    [ValueError] when [omap] holds none; when [a] differs, it returns a
    [Proxy] on a new [RemoteReference] for [oid] and the client of [a],
    which [GetClient] finds or creates. *)
Theorem handle_decode (oid : Z) (items : list Value) (b1 b2 rest : bytes)
    (s : State Obj) :
  let a := VSeq KTuple items in
  wf a = true -> order_free a = true -> platform_errors a = true ->
  constructs py_eq set_order py_lt construct a -> hashable a = true ->
  LongSerializer_Serialize oid = Ok b1 ->
  SequenceSerializer_Serialize py_lt sorted_partial KTuple items = Ok b2 ->
  ObjectTranslator_Deserialize py_eq set_order codec_table construct
    (b1 ++ b2 ++ rest) s
  = if py_eq a (addr s) then
      match omap s !! oid with
      | Some o => (Ok (Local o, rest), s)
      | None => (Raise (ValueError "Bad OID in serialized data"), s)
      end
    else
      match dict_lookup py_eq (clients s) a with
      | Some cli => (Ok (Proxy (mkRemoteReference cli oid true []), rest), s)
      | None =>
          (Ok (Proxy (mkRemoteReference (mkClient a) oid true []), rest),
           set_clients (clients s ++ [(a, mkClient a)]) s)
      end.
Proof.
  intros a Hwf Hof Hpe Hc Hh H1 H2.
  rewrite (ObjectTranslator_Deserialize_parsed (b1 ++ b2 ++ rest) (b2 ++ rest)
             rest oid a items s).
  - unfold resolve. fold a. now rewrite Hh.
  - now apply Long_rt.
  - unfold SequenceSerializer_Deserialize.
    rewrite (Sequence_rt py_eq set_order (Serialize py_lt sorted_partial)
               (Deserialize_stream py_eq set_order codec_table construct)
               (decoded py_eq set_order py_lt) KTuple items b2 rest)
      with (2 := H2).
    + pose proof (decoded_id py_eq set_order py_lt a Hof Hpe) as E. simpl in E.
      injection E as E. now rewrite E.
    + apply Forall_forall. intros x Hx bx rest' Hbx.
      apply Deserialize_stream_Serialize; [| |exact Hbx].
      * simpl in Hwf. apply andb_prop in Hwf as [Hwf _].
        apply andb_prop in Hwf as [_ Hwf]. eapply forallb_elem; eauto.
      * now apply (constructs_item py_eq set_order py_lt sorted_partial construct x
                     items).
  - reflexivity.
Qed.
End Handles.

(** ** The examples *)

(** C3.  The 4294967296th call of [NewXID] since the class was defined finds
    [XID = 0xffffffff], stores 0 and returns [0 - 1]: a transaction id
    outside [0, 2^32). *)
Theorem NewXID_wraps_to_minus_one :
  XID (after_calls (Z.to_nat 4294967295) Sample.fresh) = 4294967295
  /\ NewXID (after_calls (Z.to_nat 4294967295) Sample.fresh)
     = (Ok (-1), set_XID 0 (after_calls (Z.to_nat 4294967295) Sample.fresh)).
Proof.
  assert (E : XID (after_calls (Z.to_nat 4294967295) Sample.fresh)
              = 4294967295).
  { rewrite XID_after_calls by (change (XID Sample.fresh) with 0; lia).
    rewrite Z2Nat.id by lia. reflexivity. }
  split; [exact E|]. rewrite NewXID_spec, E. reflexivity.
Qed.

(** C6.  A packet without [cmd]: reading [cmd] evaluates [CMD.KEEPALIVE] in
    [packet.py], where no [CMD] is bound (and the [CMD] of [service.py] has
    no [KEEPALIVE]); reading the missing [attrs] gives the empty mapping. *)
Theorem missing_cmd_raises :
  get_cmd (mkPacket None None)
  = Raise (NameError "global name 'CMD' is not defined")
  /\ assoc "KEEPALIVE" CMD.members = None
  /\ fst (get_attrs (mkPacket None None)) = ∅.
Proof. repeat split. Qed.

(** The reply has a [result], and [GetResult] does not return it. *)
Lemma GetResult_error_first :
  Has Sample.unknown_pull_reply ["result"%string] = true
  /\ get Sample.unknown_pull_reply "result" = Ok VNone
  /\ GetResult (mkDeferredResult None [] 5 (Some Sample.unknown_pull_reply) true)
     = Raise (NameError "global name 'pkt' is not defined").
Proof. repeat split; vm_compute; reflexivity. Qed.

Lemma Authorizor_defaults_witness :
  CanClientSync (mkClient (VSeq KTuple Sample.peer_addr)) = true
  /\ (CanClientAccess (mkClient (VSeq KTuple Sample.peer_addr)) 7 Sample.secret_pull
      = Ok false
      <-> exists a, fst (get_attrs Sample.secret_pull) !! "attr"%string = Some a
                    /\ underscored a = true)
  /\ ((forall a, fst (get_attrs Sample.secret_pull) !! "attr"%string = Some a ->
         underscored a = false) ->
      CanClientAccess (mkClient (VSeq KTuple Sample.peer_addr)) 7 Sample.secret_pull
      = Ok true).
Proof.
  apply (Authorizor_defaults Z (mkClient (VSeq KTuple Sample.peer_addr)) 7
           Sample.secret_pull).
  intros a H. vm_compute in H. injection H as <-. reflexivity.
Defined.

(** A handle of the object 7 of the sample service, read by that service. *)
Lemma handle_decode_witness :
  ObjectTranslator_Deserialize Sample.py_eq Sample.set_order Sample.codec_table
    Sample.construct
    (Sample.written (LongSerializer_Serialize 7)
     ++ Sample.written
          (SequenceSerializer_Serialize Sample.py_lt Sample.sorted_partial
             KTuple Sample.own_addr)
     ++ [])
    Sample.service
  = (Ok (Local 7, []), Sample.service).
Proof.
  pose proof (handle_decode Z Sample.py_eq Sample.set_order Sample.py_lt
                Sample.sorted_partial Sample.codec_table
                Sample.construct 7 Sample.own_addr
                (Sample.written (LongSerializer_Serialize 7))
                (Sample.written
                   (SequenceSerializer_Serialize Sample.py_lt
                      Sample.sorted_partial KTuple Sample.own_addr))
                [] Sample.service eq_refl eq_refl eq_refl
                (conj I (conj I I)) eq_refl eq_refl eq_refl) as H.
  exact H.
Defined.

End ServiceFacts.

(* ================================================================== *)
(** * Facts about the registry of the serializers                      *)
(* ================================================================== *)

Module RegistryFacts.
Import Host HostFacts Codec CodecFacts Registry.

(** ** The registry of the serializers *)

(** The class statements of the module leave [TAGS] and [SERIALIZERS] as
    the codec has them, and [CURTAG] at [TAG.USER]. *)
Lemma module_loaded :
  exists r,
    load module_classes initial = Ok r
    /\ CURTAG r = TAG.USER
    /\ Registry.TAGS r
       = list_to_map
           (map (fun se => (tag_of se, class_id se))
              [ BaseSerializer; IntSerializer; LongSerializer;
                FloatSerializer; BytesSerializer; TextSerializer;
                BoolSerializer; SequenceSerializer; MapSerializer;
                ByteSerializer; NoneSerializer; SliceSerializer;
                EllipsisSerializer; ErrorSerializer ])
    /\ Registry.SERIALIZERS r
       = list_to_map
           (map (fun e => (fst e, class_id (snd e))) Codec.SERIALIZERS).
Proof.
  eexists. split; [vm_compute; reflexivity|].
  split; [reflexivity|]. split; vm_compute; reflexivity.
Qed.

(** *** [RegisterTag] *)

Lemma hasattr_TAG_false (tags : gmap string Z) (name : string) :
  hasattr_TAG tags name = false -> tags !! name = None.
Proof.
  unfold hasattr_TAG. intros H. apply orb_false_iff in H as [_ H].
  apply bool_decide_eq_false in H.
  destruct (tags !! name); [exfalso; apply H; eauto|reflexivity].
Qed.

Lemma RegisterTag_fresh (tags : gmap string Z) (name : string) (u : Z) :
  tags !! "USER"%string = Some u -> hasattr_TAG tags name = false ->
  RegisterTag name tags
  = Ok (u, <["USER"%string := u + 1]> (<[name := u]> tags)).
Proof.
  intros Hu Hf. unfold RegisterTag. rewrite Hf.
  apply hasattr_TAG_false in Hf.
  assert (Hne : name <> "USER"%string) by congruence.
  unfold TAG_USER. rewrite Hu. cbn [bind].
  rewrite lookup_insert_ne by exact Hne. rewrite Hu. cbn [bind].
  rewrite lookup_insert_eq. cbn [bind]. do 2 f_equal. lia.
Qed.

Lemma RegisterTag_known (tags : gmap string Z) (name : string) (u : Z) :
  tags !! "USER"%string = Some u -> hasattr_TAG tags name = true ->
  RegisterTag name tags = Ok (u - 1, tags).
Proof.
  intros Hu Hf. unfold RegisterTag. rewrite Hf. cbn [bind].
  unfold TAG_USER. now rewrite Hu.
Qed.

(** X9.  [RegisterTag] gives a new name the value of [TAG.USER] and returns
    it; the next new name gets the next value. For a name [TAG] has already,
    it returns the last value given out, whatever the value of the name is:
    after [a] and [b] are registered, [RegisterTag(a)] returns the tag of
    [b]. *)
Theorem RegisterTag_returns_last (tags : gmap string Z) (a b : string)
    (u : Z) :
  tags !! "USER"%string = Some u ->
  hasattr_TAG tags a = false -> hasattr_TAG tags b = false -> a <> b ->
  exists t1 t2,
    RegisterTag a tags = Ok (u, t1) /\ t1 !! a = Some u
    /\ RegisterTag b t1 = Ok (u + 1, t2) /\ t2 !! b = Some (u + 1)
    /\ RegisterTag a t2 = Ok (u + 1, t2) /\ t2 !! a = Some u.
Proof.
  intros Hu Ha Hb Hab.
  pose proof (hasattr_TAG_false tags a Ha) as Hna.
  pose proof (hasattr_TAG_false tags b Hb) as Hnb.
  assert (Hau : a <> "USER"%string) by congruence.
  assert (Hbu : b <> "USER"%string) by congruence.
  set (t1 := <["USER"%string := u + 1]> (<[a := u]> tags)).
  assert (Hu1 : t1 !! "USER"%string = Some (u + 1))
    by apply lookup_insert_eq.
  assert (Ha1 : t1 !! a = Some u).
  { unfold t1. rewrite lookup_insert_ne by congruence.
    apply lookup_insert_eq. }
  assert (Hb1 : hasattr_TAG t1 b = false).
  { unfold hasattr_TAG in *. apply orb_false_iff in Hb as [Hb _].
    rewrite Hb. cbn [orb]. apply bool_decide_eq_false.
    unfold t1. rewrite !lookup_insert_ne by congruence. rewrite Hnb.
    now intros [? ?]. }
  set (t2 := <["USER"%string := u + 1 + 1]> (<[b := u + 1]> t1)).
  assert (Hu2 : t2 !! "USER"%string = Some (u + 1 + 1))
    by apply lookup_insert_eq.
  assert (Ha2 : t2 !! a = Some u).
  { unfold t2. rewrite !lookup_insert_ne by congruence. exact Ha1. }
  exists t1, t2.
  split; [now apply RegisterTag_fresh|]. split; [exact Ha1|].
  split; [now apply RegisterTag_fresh|].
  split; [unfold t2; rewrite lookup_insert_ne by congruence;
          apply lookup_insert_eq|].
  split; [|exact Ha2].
  rewrite (RegisterTag_known t2 a (u + 1 + 1) Hu2).
  - do 2 f_equal. lia.
  - unfold hasattr_TAG. rewrite Ha2. apply orb_true_iff. right.
    apply bool_decide_eq_true. eauto.
Qed.

Lemma RegisterTag_returns_last_witness :
  exists t1 t2,
    RegisterTag "MINE" TAG_attrs = Ok (14, t1) /\ t1 !! "MINE"%string = Some 14
    /\ RegisterTag "YOURS" t1 = Ok (14 + 1, t2)
    /\ t2 !! "YOURS"%string = Some (14 + 1)
    /\ RegisterTag "MINE" t2 = Ok (14 + 1, t2)
    /\ t2 !! "MINE"%string = Some 14.
Proof.
  apply (RegisterTag_returns_last TAG_attrs "MINE" "YOURS" 14).
  - reflexivity.
  - vm_compute; reflexivity.
  - vm_compute; reflexivity.
  - discriminate.
Defined.

(** *** [UpdateSerializer] *)

Section Classes.
Context {T : Type} `{Countable T}.

Lemma lookup_fold_insert (ser : nat) (types : list T) (d : gmap T nat)
    (tp : T) :
  fold_left (fun d tp => <[tp := ser]> d) types d !! tp
  = if bool_decide (tp ∈ types) then Some ser else d !! tp.
Proof.
  revert d. induction types as [|x types IH]; intros d; cbn [fold_left].
  - rewrite bool_decide_eq_false_2; [reflexivity|]. apply not_elem_of_nil.
  - rewrite IH. destruct (decide (tp ∈ types)) as [Hin|Hnin].
    + rewrite (bool_decide_eq_true_2 _ Hin).
      rewrite bool_decide_eq_true_2 by (apply elem_of_cons; now right).
      reflexivity.
    + rewrite (bool_decide_eq_false_2 _ Hnin).
      destruct (decide (tp = x)) as [->|Hne].
      * rewrite lookup_insert_eq.
        rewrite bool_decide_eq_true_2 by (apply elem_of_cons; now left).
        reflexivity.
      * rewrite lookup_insert_ne by congruence.
        rewrite bool_decide_eq_false_2; [reflexivity|].
        intros Hx. apply elem_of_cons in Hx as [->|Hx]; tauto.
Qed.

Lemma lookup_fold_delete (remove : list T) (d : gmap T nat) (tp : T) :
  fold_left (fun d tp => delete tp d) remove d !! tp
  = if bool_decide (tp ∈ remove) then None else d !! tp.
Proof.
  revert d. induction remove as [|x remove IH]; intros d; cbn [fold_left].
  - rewrite bool_decide_eq_false_2; [reflexivity|]. apply not_elem_of_nil.
  - rewrite IH. destruct (decide (tp ∈ remove)) as [Hin|Hnin].
    + rewrite (bool_decide_eq_true_2 _ Hin).
      rewrite bool_decide_eq_true_2 by (apply elem_of_cons; now right).
      reflexivity.
    + rewrite (bool_decide_eq_false_2 _ Hnin).
      destruct (decide (tp = x)) as [->|Hne].
      * rewrite lookup_delete_eq.
        rewrite bool_decide_eq_true_2 by (apply elem_of_cons; now left).
        reflexivity.
      * rewrite lookup_delete_ne by congruence.
        rewrite bool_decide_eq_false_2; [reflexivity|].
        intros Hx. apply elem_of_cons in Hx as [->|Hx]; tauto.
Qed.

Lemma elem_of_registered (ser : nat) (d : gmap T nat) (tp : T) :
  tp ∈ map fst (filter (fun e => snd e = ser) (map_to_list d))
  <-> d !! tp = Some ser.
Proof.
  rewrite list_elem_of_fmap. split.
  - intros ([tp' s] & -> & Hin). apply list_elem_of_filter in Hin as [Hs Hin].
    simpl in *. subst s. now apply elem_of_map_to_list in Hin.
  - intros Hd. exists (tp, ser). split; [reflexivity|].
    apply list_elem_of_filter. split; [reflexivity|].
    now apply elem_of_map_to_list.
Qed.

(** X10.  After [UpdateSerializer(ser)], [ser] is the serializer of its
    [__types__] and of no other type: a type that was registered for [ser]
    and is no longer one of them has no serializer, and the other types keep
    theirs. [TAGS] and the classes are left as they are. *)
Theorem UpdateSerializer_spec (r : Registry T) (ser : nat)
    (types : list T) :
  get___types__ r ser = Some types ->
  exists r',
    UpdateSerializer ser r = Ok r'
    /\ classes r' = classes r /\ Registry.TAGS r' = Registry.TAGS r
    /\ forall tp,
         Registry.SERIALIZERS r' !! tp
         = if bool_decide (tp ∈ types) then Some ser
           else match Registry.SERIALIZERS r !! tp with
                | Some s => if bool_decide (s = ser) then None else Some s
                | None => None
                end.
Proof.
  intros Ht. unfold UpdateSerializer. rewrite Ht. eexists.
  split; [reflexivity|]. split; [reflexivity|]. split; [reflexivity|].
  intros tp. cbn [Registry.SERIALIZERS set_SERIALIZERS].
  rewrite lookup_fold_insert. destruct (bool_decide (tp ∈ types));
    [reflexivity|].
  rewrite lookup_fold_delete.
  destruct (Registry.SERIALIZERS r !! tp) as [s|] eqn:E.
  - destruct (decide (s = ser)) as [->|Hne].
    + rewrite !bool_decide_eq_true_2; [reflexivity..|].
      now apply elem_of_registered.
    + rewrite !bool_decide_eq_false_2; [reflexivity|exact Hne|].
      intros Hin. apply elem_of_registered in Hin. congruence.
  - rewrite bool_decide_eq_false_2; [reflexivity|].
    intros Hin. apply elem_of_registered in Hin. congruence.
Qed.

(** *** [SerializerMeta.__new__] *)

Lemma lookup_attr_classes {A} (own : ClassObj T -> option A)
    (r r' : Registry T) (ids : list nat) :
  classes r' = classes r -> lookup_attr own r' ids = lookup_attr own r ids.
Proof.
  intros E. induction ids as [|c ids IH]; simpl; [reflexivity|].
  now rewrite E, IH.
Qed.

Lemma getattr_of_classes {A} (own : ClassObj T -> option A)
    (r r' : Registry T) (c : nat) :
  classes r' = classes r -> getattr_of own r' c = getattr_of own r c.
Proof.
  intros E. unfold getattr_of. rewrite E.
  destruct (classes r !! c); [|reflexivity]. now apply lookup_attr_classes.
Qed.

Lemma lookup_attr_new {A} (own : ClassObj T -> option A)
    (r r' : Registry T) (o : ClassObj T) (ids : list nat) :
  classes r' = classes r ++ [o] -> own o = None ->
  lookup_attr own r' ids = lookup_attr own r ids.
Proof.
  intros E Ho. induction ids as [|c ids IH]; simpl; [reflexivity|].
  rewrite E, IH. destruct (decide (c < length (classes r))%nat) as [Hlt|Hge].
  - now rewrite lookup_app_l by exact Hlt.
  - rewrite (lookup_ge_None_2 (classes r) c) by lia.
    destruct (decide (c = length (classes r))) as [->|Hne].
    + rewrite list_lookup_middle by reflexivity. now rewrite Ho.
    + rewrite lookup_ge_None_2; [reflexivity|].
      rewrite length_app. simpl. lia.
Qed.

(** X11.  The tag of a class whose metaclass is [SerializerMeta]: the class
    statement creates the class at the end of the heap; its [__tag__] is the
    one its body binds, else the one it inherits, and [CURTAG] only when it
    derives from no class that has a tag; [TAGS] has the new class under
    that tag, in the place of any class that was there, and [CURTAG] is one
    more than the tag, [TAG.USER] at most. *)
Theorem SerializerMeta_tag (st : ClassStatement T) (r : Registry T)
    (u : Z) :
  tags r !! "USER"%string = Some u ->
  exists r',
    SerializerMeta___new__ st r = Ok (length (classes r), r')
    /\ get___tag__ r' (length (classes r)) = Some (tag_given st r)
    /\ Registry.TAGS r'
       = <[tag_given st r := length (classes r)]> (Registry.TAGS r)
    /\ CURTAG r' = Z.min u (tag_given st r + 1).
Proof.
  intros Hu. unfold SerializerMeta___new__.
  destruct (type_new st r) as [tp r1] eqn:Hnew.
  unfold type_new in Hnew. injection Hnew as <- <-.
  set (n := length (classes r)).
  set (mro := match st_base st with
              | Some base =>
                  match classes r !! base with
                  | Some o => base :: cls_mro o
                  | None => []
                  end
              | None => []
              end).
  set (o := mkClassObj (st_name st) mro (st_types st) (st_tag st)).
  set (r1 := mkRegistry (classes r ++ [o]) (Registry.SERIALIZERS r)
               (Registry.TAGS r) (CURTAG r) (tags r)).
  assert (Hr2 : exists r2,
            match get___types__ r1 n with
            | Some _ => UpdateSerializer n r1
            | None => Ok r1
            end = Ok r2
            /\ classes r2 = classes r ++ [o]
            /\ Registry.TAGS r2 = Registry.TAGS r
            /\ CURTAG r2 = CURTAG r /\ tags r2 = tags r).
  { destruct (get___types__ r1 n) as [types|] eqn:Ht.
    - unfold UpdateSerializer. rewrite Ht. eexists. split; [reflexivity|].
      repeat split.
    - exists r1. repeat split. }
  destruct Hr2 as (r2 & -> & Hc2 & Ht2 & Hcur2 & Htags2). cbn [bind].
  assert (Hn : classes r2 !! n = Some o).
  { rewrite Hc2. now apply list_lookup_middle. }
  assert (Hg : get___tag__ r2 n
               = match st_tag st with
                 | Some t => Some t
                 | None =>
                     match st_base st with
                     | Some base => get___tag__ r base
                     | None => None
                     end
                 end).
  { unfold get___tag__, getattr_of. rewrite Hn. cbn [lookup_attr].
    rewrite Hn. cbn [cls_tag o cls_mro].
    destruct (st_tag st) as [t|] eqn:Etag; [reflexivity|].
    rewrite (lookup_attr_new cls_tag r r2 o mro Hc2) by reflexivity.
    unfold mro. destruct (st_base st) as [base|]; [|reflexivity].
    unfold get___tag__, getattr_of.
    destruct (classes r !! base) as [ob|] eqn:Eb; [|reflexivity].
    cbn [lookup_attr]. now rewrite Eb. }
  destruct (get___tag__ r2 n) as [t|] eqn:Eg.
  - (* the class has a tag, its own or an inherited one *)
    rewrite Eg. unfold TAG_USER. rewrite Htags2, Hu. cbn [bind].
    assert (Et : t = tag_given st r).
    { unfold tag_given. destruct (st_tag st); [congruence|].
      destruct (st_base st); [|discriminate]. now rewrite <- Hg. }
    subst t. eexists. split; [reflexivity|].
    split; [|cbn; now rewrite Ht2].
    rewrite <- Eg. now apply (getattr_of_classes cls_tag).
  - (* it has none: it is given [CURTAG] *)
    set (r3 := set___tag__ n (CURTAG r2) r2).
    assert (Eg3 : get___tag__ r3 n = Some (CURTAG r2)).
    { unfold get___tag__, getattr_of, r3, set___tag__. cbn [classes].
      rewrite list_lookup_alter_eq, Hn. cbn [fmap option_fmap option_map].
      cbn [lookup_attr classes].
      rewrite list_lookup_alter_eq, Hn. reflexivity. }
    rewrite Eg3. unfold TAG_USER. cbn [tags r3 set___tag__].
    rewrite Htags2, Hu. cbn [bind].
    assert (Et : CURTAG r2 = tag_given st r).
    { unfold tag_given. destruct (st_tag st); [discriminate|].
      destruct (st_base st); [|exact Hcur2]. now rewrite <- Hg. }
    eexists. split; [reflexivity|].
    split; [|cbn; now rewrite Ht2, Et].
    rewrite <- Et, <- Eg3. now apply (getattr_of_classes cls_tag).
Qed.
End Classes.

(** *** The examples of the registry *)

(** [SequenceSerializer], once the module is imported. *)
Lemma UpdateSerializer_spec_witness :
  exists r',
    UpdateSerializer 7 loaded = Ok r'
    /\ classes r' = classes loaded
    /\ Registry.TAGS r' = Registry.TAGS loaded
    /\ forall tp,
         Registry.SERIALIZERS r' !! tp
         = if bool_decide (tp ∈ [t_list; t_tuple; t_set]) then Some 7%nat
           else match Registry.SERIALIZERS loaded !! tp with
                | Some s => if bool_decide (s = 7%nat) then None else Some s
                | None => None
                end.
Proof.
  apply (UpdateSerializer_spec loaded 7 [t_list; t_tuple; t_set]).
  vm_compute. reflexivity.
Defined.

(** A serializer written as the docstring of the module says, with no
    [__tag__] of its own: it gets the tag of [BaseSerializer]. *)
Lemma SerializerMeta_tag_witness :
  exists r',
    SerializerMeta___new__
      (mkClassStatement "FractionSerializer" (Some O) (Some [t_object]) None)
      loaded
    = Ok (length (classes loaded), r')
    /\ get___tag__ r' (length (classes loaded)) = Some 0
    /\ Registry.TAGS r'
       = <[0 := length (classes loaded)]> (Registry.TAGS loaded)
    /\ CURTAG r' = Z.min 14 (0 + 1).
Proof.
  apply (SerializerMeta_tag
           (mkClassStatement "FractionSerializer" (Some O) (Some [t_object])
              None) loaded 14).
  vm_compute. reflexivity.
Defined.

End RegistryFacts.

(* ================================================================== *)
(** * Facts about the packets on the wire                              *)
(* ================================================================== *)

Module PacketFacts.
Import Host HostFacts Codec CodecFacts Pkt PktIO.

(** ** The attributes of a packet *)

(** X12.  Setting an attribute and reading it, for a name that is none of
    the class: [pkt.a = v] makes [pkt.a] be [v] and [pkt.Has('a')] true, and
    leaves every other attribute and [cmd] as they were. *)
Theorem Packet_set_get (self : Packet) (attr : string) (val : Value) :
  reserved attr = false ->
  get (set self attr val) attr = Ok val
  /\ Has (set self attr val) [attr] = true
  /\ cmd (set self attr val) = cmd self
  /\ (forall other, reserved other = false -> other <> attr ->
        get (set self attr val) other = get self other
        /\ Has (set self attr val) [other] = Has self [other]).
Proof.
  intros _. unfold get, set, Has, Packet___getattr___other, get_attrs,
    Packet___getattr___attrs.
  destruct self as [c [m|]]; cbn [attrs cmd fst snd forallb];
    rewrite ?lookup_insert_eq.
  - split; [reflexivity|]. split.
    { rewrite bool_decide_eq_true_2; [reflexivity|eauto]. }
    split; [reflexivity|]. intros other _ Hne.
    rewrite !lookup_insert_ne by congruence.
    split; [now destruct (_ !! other)|reflexivity].
  - split; [reflexivity|]. split.
    { rewrite bool_decide_eq_true_2; [reflexivity|eauto]. }
    split; [reflexivity|]. intros other _ Hne.
    rewrite !lookup_insert_ne by congruence.
    split; [now destruct (_ !! other)|reflexivity].
Qed.

(** X13.  Deleting an attribute: [del pkt.a] raises [KeyError] when [attrs]
    has no [a], and leaves the attributes as they were; otherwise [pkt.a] is
    gone, [pkt.Has('a')] is false and a second [del pkt.a] raises
    [KeyError], and the other attributes are as before. [del pkt.cmd] is no
    exception to that: it deletes an attribute named [cmd] of [attrs], never
    the command of the packet. *)
Theorem Packet_delattr (self : Packet) (attr : string) :
  cmd (snd (Packet___delattr__ self attr)) = cmd self
  /\ Has (snd (Packet___delattr__ self attr)) [attr] = false
  /\ fst (Packet___delattr__ (snd (Packet___delattr__ self attr)) attr)
     = Raise KeyError
  /\ (fst (Packet___delattr__ self attr) = Raise KeyError
      <-> Has self [attr] = false)
  /\ (forall other, reserved other = false -> other <> attr ->
        get (snd (Packet___delattr__ self attr)) other = get self other).
Proof.
  unfold Packet___delattr__, get, Has, Packet___getattr___other, get_attrs,
    Packet___getattr___attrs.
  destruct self as [c [m|]]; cbn [attrs cmd fst snd forallb].
  - destruct (m !! attr) as [v|] eqn:E; cbn [attrs cmd fst snd];
      rewrite ?lookup_delete_eq, ?E; cbn [fst snd].
    + split; [reflexivity|]. split.
      { rewrite bool_decide_eq_false_2; [reflexivity|]. now intros [? ?]. }
      split; [reflexivity|]. split.
      { rewrite bool_decide_eq_true_2 by eauto. split; discriminate. }
      intros other _ Hne. rewrite lookup_delete_ne by congruence.
      now destruct (m !! other).
    + split; [reflexivity|]. split.
      { rewrite bool_decide_eq_false_2; [reflexivity|]. now intros [? ?]. }
      split; [reflexivity|]. split; [|reflexivity].
      rewrite bool_decide_eq_false_2; [tauto|]. now intros [? ?].
  - rewrite !lookup_empty. cbn [attrs cmd fst snd].
    rewrite !lookup_empty. cbn [fst snd].
    split; [reflexivity|]. split.
    { rewrite bool_decide_eq_false_2; [reflexivity|]. now intros [? ?]. }
    split; [reflexivity|]. split; [|reflexivity].
    rewrite bool_decide_eq_false_2; [tauto|]. now intros [? ?].
Qed.

Lemma Packet_set_get_witness :
  get (set (mkPacket None None) "xid" (VInt 5)) "xid" = Ok (VInt 5)
  /\ Has (set (mkPacket None None) "xid" (VInt 5)) ["xid"%string] = true
  /\ cmd (set (mkPacket None None) "xid" (VInt 5)) = cmd (mkPacket None None)
  /\ (forall other, reserved other = false -> other <> "xid"%string ->
        get (set (mkPacket None None) "xid" (VInt 5)) other
        = get (mkPacket None None) other
        /\ Has (set (mkPacket None None) "xid" (VInt 5)) [other]
           = Has (mkPacket None None) [other]).
Proof.
  apply (Packet_set_get (mkPacket None None) "xid" (VInt 5)).
  vm_compute. reflexivity.
Defined.

(** ** A packet on the wire *)

Section Wire.
Variable py_eq : Value -> Value -> bool.
Variable set_order : list Value -> list Value.
Variable py_lt : Value -> Value -> bool.
Variable sorted_partial : list Value -> Result (list nat).
Variable codec_table : bytes -> option (bytes -> Result (list Z)).
Variable construct : bytes -> list Value -> Result Value.
Variable unicode_keywords : list (Value * Value) -> Result (gmap string Value).

(** The host's [==] on byte strings is the equality of the bytes. *)
Hypothesis py_eq_str :
  forall s t : bytes, py_eq (VStr s) (VStr t) = bool_decide (s = t).

Lemma b_inj (s t : string) : b s = b t -> s = t.
Proof.
  unfold b. intros E.
  rewrite <- (string_of_list_byte_of_string s),
    <- (string_of_list_byte_of_string t). now rewrite E.
Qed.

Lemma distinct_strs (ss : list bytes) :
  NoDup ss -> distinct py_eq (map VStr ss) = true.
Proof.
  induction 1 as [|s ss Hs _ IH]; [reflexivity|].
  cbn [map distinct]. rewrite IH, andb_true_r.
  apply forallb_forall. intros y Hy.
  apply in_map_iff in Hy as (t & <- & Ht). apply list_elem_of_In in Ht.
  rewrite !py_eq_str.
  rewrite !bool_decide_eq_false_2; [reflexivity| |]; congruence.
Qed.

(** A dictionary whose keys are byte strings is read back with the keys it
    was written with, in the order it was written in. *)
Lemma decoded_str_keyed (items : list (Value * Value)) :
  forallb (fun kv => is_str (fst kv)) items = true ->
  distinct py_eq (map fst items) = true ->
  decoded py_eq set_order py_lt (VDict items)
  = VDict (map (fun kv => (fst kv, decoded py_eq set_order py_lt (snd kv)))
             (sorted py_lt fst items)).
Proof.
  intros Hstr Hd. rewrite decoded_dict. f_equal.
  set (g := fun kv : Value * Value => (fst kv, decoded py_eq set_order py_lt (snd kv))).
  transitivity (fold_left
                  (fun d kv => dict_store py_eq d (fst kv) (snd kv))
                  (map g (sorted py_lt fst items)) []).
  - assert (Hs : Forall (fun kv => decoded py_eq set_order py_lt (fst kv) = fst kv)
                   (sorted py_lt fst items)).
    { rewrite sorted_perm. apply Forall_forall. intros kv Hkv.
      pose proof (forallb_elem _ _ kv Hstr Hkv) as H1. simpl in H1.
      now destruct (fst kv). }
    generalize (@nil (Value * Value)).
    induction Hs as [|kv l Hkv _ IHl]; intros d; simpl; [reflexivity|].
    rewrite Hkv. apply IHl.
  - rewrite dict_store_all_fresh; [reflexivity|constructor|].
    rewrite map_map. simpl.
    rewrite <- (distinct_perm py_eq (map fst items)); [exact Hd|].
    apply Permutation_map. symmetry. apply sorted_perm.
Qed.

(** The items of [attrs], as [dict_of] hands them to the codec. *)
Lemma dict_of_items (m : gmap string Value) :
  dict_of m
  = VDict (map (fun kv => (VStr (b (fst kv)), snd kv)) (map_to_list m)).
Proof. reflexivity. Qed.

Lemma dict_of_distinct (m : gmap string Value) :
  distinct py_eq
    (map fst (map (fun kv : string * Value => (VStr (b (fst kv)), snd kv))
                (map_to_list m))) = true.
Proof.
  rewrite map_map. cbn [fst].
  rewrite <- (map_map (fun kv : string * Value => b (fst kv)) VStr).
  apply distinct_strs.
  rewrite <- (map_map fst b).
  apply NoDup_fmap_2; [intros s t; apply b_inj|].
  apply NoDup_fst_map_to_list.
Qed.

Lemma keywords_back (dec : Value -> Value) (l : list (string * Value)) :
  map (fun x : string * Value => (keyword_of (VStr (b (fst x))), dec (snd x)))
    l
  = prod_map id dec <$> l.
Proof.
  induction l as [|[k v] l IH]; [reflexivity|].
  cbn [map fmap list_fmap fst snd keyword_of prod_map id].
  unfold b at 1. rewrite string_of_list_byte_of_string. f_equal. exact IH.
Qed.

Lemma comparable_strs (items : list (Value * Value)) :
  forallb (fun kv => is_str (fst kv)) items = true ->
  comparable (map fst items) = true.
Proof.
  intros H. apply comparable_spec. intros x y Hx Hy.
  rewrite forallb_forall in H.
  apply list_elem_of_fmap in Hx as (kx & -> & Hx).
  apply list_elem_of_fmap in Hy as (ky & -> & Hy).
  apply list_elem_of_In in Hx, Hy.
  pose proof (H kx Hx) as Ex. pose proof (H ky Hy) as Ey.
  destruct (fst kx), (fst ky); try discriminate. reflexivity.
Qed.

End Wire.


End PacketFacts.

(* ================================================================== *)
(** * Facts about the requests and the reader thread                   *)
(* ================================================================== *)

Module ServeFacts.
Import Host HostFacts Codec CodecFacts Pkt PktIO PacketFacts.
Import Service ServiceFacts Serve.

(** ** The tables of the service *)

Section Tables.
Variable Obj : Type.
Variable id : Obj -> Z.
Variable py_eq : Value -> Value -> bool.
Variable set_order : list Value -> list Value.
Variable py_lt : Value -> Value -> bool.
Variable sorted_partial : list Value -> Result (list nat).

Lemma names_tracked_op (o : TableOp Obj) (s : State Obj) :
  names_tracked s -> names_tracked (table_op id py_lt sorted_partial o s).
Proof.
  unfold names_tracked. intros Hs. destruct o as [obj name|name|obj].
  - cbn. apply map_Forall_insert_2.
    + rewrite lookup_insert_eq. eauto.
    + intros n oid Hn. specialize (Hs n oid Hn). cbn in Hs.
      destruct (decide (oid = id obj)) as [->|Hne].
      * rewrite lookup_insert_eq. eauto.
      * now rewrite lookup_insert_ne by congruence.
  - cbn [table_op]. rewrite Unregister_spec. cbn.
    intros n oid Hn. apply lookup_delete_Some in Hn as [_ Hn].
    exact (Hs n oid Hn).
  - cbn [table_op].
    assert (E : exists r,
               ObjectTranslator_Serialize id py_lt sorted_partial obj s
               = (r, set_omap (<[id obj := obj]> (omap s)) s)).
    { unfold ObjectTranslator_Serialize, bindM, modify, lift, gets. cbn.
      destruct (LongSerializer_Serialize (id obj)); [|eauto].
      destruct (addr s); eauto.
      destruct (SequenceSerializer_Serialize py_lt sorted_partial k items); eauto. }
    destruct E as [r ->]. cbn.
    intros n oid Hn. specialize (Hs n oid Hn). cbn in Hs.
    destruct (decide (oid = id obj)) as [->|Hne].
    + rewrite lookup_insert_eq. eauto.
    + now rewrite lookup_insert_ne by congruence.
Qed.

(** X15.  Whatever is registered, unregistered and written as a handle, in
    any order, on a service as [__init__] leaves it: every public name is
    the name of an object the service tracks, and [cmd_RESOLVE] finds the
    object of every name it finds: its [self.omap[...]] raises no
    [KeyError]. *)
Theorem names_stay_tracked (ops : list (TableOp Obj)) (a : Value)
    (s0 : State Obj)
    (reply_with_object : Packet -> Obj -> Client -> M Obj unit) :
  let s := fold_left (fun s o => table_op id py_lt sorted_partial o s) ops
             (Service___init__ a s0) in
  names_tracked s
  /\ forall pkt cli name key oid,
       get pkt "name" = Ok name -> pubmap_key name = Ok (Some key) ->
       pubmap s !! key = Some oid ->
       exists obj,
         omap s !! oid = Some obj
         /\ cmd_RESOLVE py_lt sorted_partial reply_with_object pkt cli s
            = reply_with_object pkt obj cli s.
Proof.
  intros s.
  assert (Hs : names_tracked s).
  { unfold s.
    assert (H0 : names_tracked (Service___init__ a s0)).
    { unfold names_tracked. cbn. apply map_Forall_empty. }
    revert H0. generalize (Service___init__ a s0). clear s.
    induction ops as [|o ops IH]; intros s Hs; [exact Hs|].
    cbn [fold_left]. apply IH. now apply names_tracked_op. }
  split; [exact Hs|].
  intros pkt cli name key oid Hname Hkey Hpub.
  destruct (Hs key oid Hpub) as [obj Hobj]. exists obj.
  split; [exact Hobj|].
  unfold cmd_RESOLVE, bindM, lift, gets. rewrite Hname, Hkey.
  cbn [fst snd]. now rewrite Hpub, Hobj.
Qed.
End Tables.

(** ** The clients and the requests *)

Section Requests.
Variable Obj : Type.
Variable id : Obj -> Z.
Variable py_eq : Value -> Value -> bool.
Variable set_order : list Value -> list Value.
Variable py_lt : Value -> Value -> bool.
Variable sorted_partial : list Value -> Result (list nat).
Variable codec_table : bytes -> option (bytes -> Result (list Z)).
Variable construct : bytes -> list Value -> Result Value.

Lemma dict_lookup_new {V} (d : list (Value * V)) (a : Value) (c : V) :
  dict_lookup py_eq d a = None -> py_eq a a = true ->
  dict_lookup py_eq (d ++ [(a, c)]) a = Some c.
Proof.
  intros Hd Ha. induction d as [|[k v] d IH]; cbn in *.
  - now rewrite Ha.
  - destruct (py_eq k a); [discriminate|]. now apply IH.
Qed.

(** X16.  [GetClient] makes one client for an address: the second call for
    the address returns the client of the first and leaves the service as
    the first left it. *)
Theorem GetClient_same (a : Value) (s : State Obj) :
  hashable a = true -> py_eq a a = true ->
  exists cli s1,
    GetClient py_eq a s = (Ok cli, s1)
    /\ GetClient py_eq a s1 = (Ok cli, s1)
    /\ dict_lookup py_eq (clients s1) a = Some cli.
Proof.
  intros Hh Ha. unfold GetClient. rewrite Hh.
  destruct (dict_lookup py_eq (clients s) a) as [cli|] eqn:E.
  - exists cli, s. now rewrite E.
  - exists (mkClient a), (set_clients (clients s ++ [(a, mkClient a)]) s).
    cbn [clients set_clients].
    now rewrite (dict_lookup_new (clients s) a (mkClient a) E Ha).
Qed.

Lemma sent_events (s s' : State Obj) :
  events s' = events s -> sent s' = sent s.
Proof. unfold sent. now intros ->. Qed.

Lemma sent_sent_state (cli : Client) (c : Z) (kwargs : gmap string Value)
    (s : State Obj) :
  sent (sent_state cli c kwargs s) = sent s.
Proof.
  unfold sent, sent_state. cbn [events]. rewrite flat_map_app. cbn.
  now rewrite app_nil_r.
Qed.

(** X17.  [Disconnect] sends nothing. It makes the request, a deferred that
    is left in [outstanding], and does not wait on it; a request is sent
    when it is waited on. *)
Theorem Disconnect_sends_nothing (a : Value) (s : State Obj) :
  hashable a = true ->
  exists s1,
    Disconnect py_eq a s = (Ok tt, s1)
    /\ sent s1 = sent s
    /\ WAITING s1 = WAITING s
    /\ outstanding s1
       = <[Z.land (XID s + 1) 4294967295 - 1 := length (heap s)]>
           (outstanding s).
Proof.
  intros Hh. unfold Disconnect, bindM.
  assert (E : exists cli s0,
             GetClient py_eq a s = (Ok cli, s0) /\ events s0 = events s
             /\ WAITING s0 = WAITING s /\ outstanding s0 = outstanding s
             /\ XID s0 = XID s /\ heap s0 = heap s).
  { unfold GetClient. rewrite Hh.
    destruct (dict_lookup py_eq (clients s) a); eexists; eexists;
      (split; [reflexivity|]); repeat split. }
  destruct E as (cli & s0 & -> & Hev & Hw & Hout & Hx & Hheap).
  rewrite SendPacket_spec. eexists. split; [reflexivity|].
  split; [|split].
  - rewrite sent_sent_state. now apply sent_events.
  - exact Hw.
  - unfold sent_state. cbn [outstanding]. now rewrite Hout, Hx, Hheap.
Qed.

Lemma call_spec (m : Method) (cli : Client) (oid : Z) (args : list Value)
    (kwargs : list (Value * Value)) (s : State Obj) :
  call m cli oid args kwargs s = (Raise TypeError, s)
  \/ exists kws,
       call m cli oid args kwargs s
       = (Ok (length (heap s)), sent_state cli CMD.PULL kws s).
Proof.
  destruct m; destruct args as [|a1 [|a2 [|a3 args]]];
    destruct kwargs as [|kv kwargs]; cbn [call];
    first [now left | right; eexists; apply SendPacket_spec].
Qed.

(** X18.  A reference that is not blocking sends nothing: its methods make
    the request and return the deferred, and [SetAttr], [DelAttr] and
    [SetItem], which return nothing, let go of the deferred, so their
    request is never sent. *)
Theorem nonblocking_sends_nothing (self : RemoteReference) (name : string)
    (args : list Value) (kwargs : list (Value * Value)) (keep : bool)
    (arrivals : list (list Packet)) (s : State Obj) :
  blocking self = false ->
  sent (snd (request py_eq py_lt sorted_partial self name args kwargs keep arrivals s))
  = sent s
  /\ WAITING (snd (request py_eq py_lt sorted_partial self name args kwargs keep arrivals s))
     = WAITING s
  /\ forall o, fst (request py_eq py_lt sorted_partial self name args kwargs keep arrivals s)
               = Ok o ->
       o = (if keep then ReturnedDeferred (length (heap s)) else ReturnedNone)
       /\ outstanding
            (snd (request py_eq py_lt sorted_partial self name args kwargs keep arrivals s))
          !! (Z.land (XID s + 1) 4294967295 - 1)
          = Some (length (heap s)).
Proof.
  intros Hb. unfold request, bindM, lift. rewrite Hb.
  destruct (Service_getattr name) as [m|e]; cbn [fst snd];
    [|split; [reflexivity|split; [reflexivity|discriminate]]].
  destruct (call_spec m (rr_cli self) (rr_oid self) args kwargs s)
    as [->|[kws ->]]; cbn [fst snd ret].
  - split; [reflexivity|split; [reflexivity|discriminate]].
  - split; [apply sent_sent_state|]. split; [reflexivity|].
    intros o [= <-]. split; [reflexivity|].
    unfold sent_state. cbn [outstanding]. apply lookup_insert_eq.
Qed.
End Requests.

Lemma GetClient_same_witness :
  exists cli s1,
    GetClient Sample.py_eq (VSeq KTuple Sample.peer_addr) Sample.fresh
    = (Ok cli, s1)
    /\ GetClient Sample.py_eq (VSeq KTuple Sample.peer_addr) s1 = (Ok cli, s1)
    /\ dict_lookup Sample.py_eq (clients s1) (VSeq KTuple Sample.peer_addr)
       = Some cli.
Proof.
  apply (GetClient_same Z Sample.py_eq (VSeq KTuple Sample.peer_addr)
           Sample.fresh); reflexivity.
Defined.

Lemma Disconnect_sends_nothing_witness :
  exists s1,
    Disconnect Sample.py_eq (VSeq KTuple Sample.peer_addr) Sample.fresh
    = (Ok tt, s1)
    /\ sent s1 = sent Sample.fresh
    /\ WAITING s1 = WAITING Sample.fresh
    /\ outstanding s1
       = <[Z.land (XID Sample.fresh + 1) 4294967295 - 1
           := length (heap Sample.fresh)]> (outstanding Sample.fresh).
Proof.
  apply (Disconnect_sends_nothing Z Sample.py_eq
           (VSeq KTuple Sample.peer_addr) Sample.fresh).
  reflexivity.
Defined.

(** [SetAttr] on a reference that is not blocking. *)
Lemma nonblocking_sends_nothing_witness :
  sent (snd (request Sample.py_eq Sample.py_lt Sample.sorted_partial
               (mkRemoteReference Examples.peer 7 false []) "SetAttr"
               [VStr (b "a"); VInt 1] [] false [] Sample.fresh))
  = sent Sample.fresh
  /\ WAITING (snd (request Sample.py_eq Sample.py_lt Sample.sorted_partial
                     (mkRemoteReference Examples.peer 7 false []) "SetAttr"
                     [VStr (b "a"); VInt 1] [] false [] Sample.fresh))
     = WAITING Sample.fresh
  /\ forall o,
       fst (request Sample.py_eq Sample.py_lt Sample.sorted_partial
              (mkRemoteReference Examples.peer 7 false []) "SetAttr"
              [VStr (b "a"); VInt 1] [] false [] Sample.fresh) = Ok o ->
       o = ReturnedNone
       /\ outstanding
            (snd (request Sample.py_eq Sample.py_lt Sample.sorted_partial
                    (mkRemoteReference Examples.peer 7 false []) "SetAttr"
                    [VStr (b "a"); VInt 1] [] false [] Sample.fresh))
          !! (Z.land (XID Sample.fresh + 1) 4294967295 - 1)
          = Some (length (heap Sample.fresh)).
Proof.
  apply (nonblocking_sends_nothing Z Sample.py_eq Sample.py_lt Sample.sorted_partial
           (mkRemoteReference Examples.peer 7 false []) "SetAttr"
           [VStr (b "a"); VInt 1] [] false [] Sample.fresh).
  reflexivity.
Defined.

Section Waiting.
Variable Obj : Type.
Variable id : Obj -> Z.
Variable py_eq : Value -> Value -> bool.
Variable set_order : list Value -> list Value.
Variable py_lt : Value -> Value -> bool.
Variable sorted_partial : list Value -> Result (list nat).
Variable codec_table : bytes -> option (bytes -> Result (list Z)).
Variable construct : bytes -> list Value -> Result Value.

Lemma dict_of_comparable (m : gmap string Value) :
  comparable
    (map fst (map (fun kv : string * Value => (VStr (b (fst kv)), snd kv))
                (map_to_list m))) = true.
Proof.
  apply comparable_strs. apply forallb_forall. intros kv Hkv.
  now apply in_map_iff in Hkv as (x & <- & _).
Qed.

Lemma dict_of_unwritten (m : gmap string Value) (k : string) (v : Value) :
  m !! k = Some v -> is_Ok (Serialize py_lt sorted_partial v) = false ->
  is_Ok (Serialize py_lt sorted_partial (dict_of m)) = false.
Proof.
  intros Hk Hv. rewrite dict_of_items, Serialize_eq, is_Ok_bind_Ok.
  cbn [body_of]. unfold MapSerializer_Serialize.
  rewrite Map_is_Ok by apply dict_of_comparable.
  apply andb_false_iff. right. apply not_true_is_false. intros H.
  rewrite forallb_forall in H.
  specialize (H (VStr (b k), v)). cbn [fst snd] in H.
  rewrite Hv, andb_false_r in H. discriminate H.
  apply in_map_iff. exists (k, v). split; [reflexivity|].
  apply list_elem_of_In. now apply elem_of_map_to_list.
Qed.

Lemma Packet_str_unwritten (c : Z) (m : gmap string Value) :
  is_Ok (Serialize py_lt sorted_partial (dict_of m)) = false ->
  exists e, Packet___str__ py_lt sorted_partial (Packet___init__ c m) = Raise e.
Proof.
  intros H.
  unfold Packet___str__, Packet___init__, get_cmd, get_attrs.
  cbn [cmd attrs bind fst snd].
  destruct (chr c) as [bc|e]; cbn [bind]; [|eauto].
  destruct (Serialize py_lt sorted_partial (dict_of m)) as [ba|e];
    [discriminate|].
  cbn [bind]. eauto.
Qed.

Lemma heap_sent_state (cli : Client) (c : Z) (kwargs : gmap string Value)
    (s : State Obj) :
  heap (sent_state cli c kwargs s) !! length (heap s)
  = Some (mkDeferredResult
            (Some (mkOnWait c (Z.land (XID s + 1) 4294967295 - 1) kwargs cli))
            [] (Z.land (XID s + 1) 4294967295 - 1) None false).
Proof.
  unfold sent_state. cbn [heap].
  now rewrite (list_lookup_middle (heap s) [] _ (length (heap s)) eq_refl).
Qed.

(** X19.  The transaction numbers from 2^31 on are [int]s, where an [int]
    holds [0xffffffff], that no [struct.pack('!l', _)] takes: the request
    made with one is stored, and the wait on it raises before anything is
    sent. *)
Theorem large_xid_not_sent (cli : Client) (_cmd : option Z)
    (kwargs : gmap string Value) (arrivals : list (list Packet))
    (s : State Obj) :
  2147483648 <= XID s < 4294967295 ->
  exists act s1 e,
    SendPacket cli _cmd kwargs s = (Ok act, s1)
    /\ outstanding s1 !! XID s = Some act
    /\ fst (DeferredResult_Wait py_eq py_lt sorted_partial act arrivals s1) = Raise e
    /\ sent (snd (DeferredResult_Wait py_eq py_lt sorted_partial act arrivals s1)) = sent s.
Proof.
  intros Hx. rewrite SendPacket_spec.
  assert (Ex : Z.land (XID s + 1) 4294967295 - 1 = XID s).
  { rewrite land_mask. rewrite Z.mod_small; lia. }
  set (c := match _cmd with Some c => c | None => CMD.PULL end).
  exists (length (heap s)), (sent_state cli c kwargs s).
  assert (R : exists e, run_onwait py_lt sorted_partial (mkOnWait c (XID s) kwargs cli)
              = @raise Obj unit e).
  { unfold run_onwait. cbn [ow_kwargs ow_cmd ow_xid ow_cli].
    destruct (clashes kwargs); [eauto|].
    destruct (Packet_str_unwritten c
                (<["xid"%string := VInt (XID s)]> kwargs)) as [e He].
    - apply (dict_of_unwritten _ "xid"%string (VInt (XID s)));
        [apply lookup_insert_eq|].
      rewrite is_Ok_Serialize by reflexivity.
      cbn [encodable]. unfold i32. lia.
    - exists e. rewrite He. reflexivity. }
  destruct R as [e R]. exists e. split; [reflexivity|].
  split; [unfold sent_state; cbn [outstanding]; rewrite Ex;
          apply lookup_insert_eq|].
  unfold DeferredResult_Wait, Deferred_Wait, Go, bindM, modify, deref.
  cbn [heap emit set_WAITING fst snd].
  pose proof (heap_sent_state cli c kwargs s) as Hh. rewrite Ex in Hh.
  unfold Ref.
  repeat (rewrite ?Hh; cbn [ready onwait heap emit set_WAITING fst snd]).
  rewrite R. unfold raise. cbn [fst snd].
  split; [reflexivity|].
  unfold sent, sent_state. cbn [events emit set_WAITING].
  rewrite !flat_map_app. cbn. now rewrite !app_nil_r.
Qed.

(** What [DeferredResult.Accept] makes of a deferred, [xv] being the [xid]
    of the packet. *)
Definition accepted (xv : Value) (ev : Packet) (d : DeferredResult)
    : DeferredResult :=
  mkDeferredResult (onwait d) (queue d ++ [ev]) (xid d)
    (if py_eq xv (VInt (xid d)) then Some ev else result d)
    (if py_eq xv (VInt (xid d)) then true else ready d).

Lemma Accept_spec (r : Ref) (ev : Packet) (xv : Value) (d : DeferredResult)
    (s : State Obj) :
  heap s !! r = Some d -> get ev "xid" = Ok xv ->
  exists h,
    Accept py_eq r ev s = (Ok tt, set_heap h s)
    /\ h !! r = Some (accepted xv ev d)
    /\ forall r', r' <> r -> h !! r' = heap s !! r'.
Proof.
  intros Hr Hx. unfold Accept, bindM, deref, lift, filt, update, modify.
  unfold Ref in *. rewrite Hr, Hx. cbn [bind]. unfold accepted.
  destruct (py_eq xv (VInt (xid d))); cbn [heap set_heap ret];
    eexists; (split; [reflexivity|]); split.
  - rewrite !list_lookup_alter_eq, Hr. reflexivity.
  - intros r' Hr'. now rewrite !list_lookup_alter_ne by congruence.
  - rewrite !list_lookup_alter_eq, Hr. reflexivity.
  - intros r' Hr'. now rewrite !list_lookup_alter_ne by congruence.
Qed.

Lemma SendAll_to_spec (rs : list Ref) (ev : Packet) (xv : Value)
    (s : State Obj) :
  Forall (fun r => is_Some (heap s !! r)) rs -> get ev "xid" = Ok xv ->
  exists h,
    SendAll_to py_eq rs ev s = (Ok tt, set_heap h s)
    /\ (forall r, is_Some (heap s !! r) -> is_Some (h !! r))
    /\ forall r, r ∉ rs -> h !! r = heap s !! r.
Proof.
  intros Hrs Hx. revert s Hrs.
  induction rs as [|r rs IH]; intros s Hrs; cbn [SendAll_to].
  - exists (heap s). destruct s. repeat split; auto.
  - apply Forall_cons in Hrs as [[d Hd] Hrs].
    destruct (Accept_spec r ev xv d s Hd Hx) as (h & Ha & Hh & Ho).
    assert (Hk : forall r', is_Some (heap s !! r') -> is_Some (h !! r')).
    { intros r' Hr'. destruct (decide (r' = r)) as [->|Hne].
      - eexists. exact Hh.
      - destruct Hr' as [d' Hd']. exists d'. rewrite <- Hd'. now apply Ho. }
    destruct (IH (set_heap h s)) as (h' & Hs & Hk' & Ho').
    { eapply Forall_impl; [exact Hrs|]. intros r'. cbn [heap set_heap].
      apply Hk. }
    exists h'. unfold bindM. rewrite Ha, Hs. split; [reflexivity|]. split.
    + intros r' Hr'. apply Hk'. cbn [heap set_heap]. now apply Hk.
    + intros r' Hr'. apply not_elem_of_cons in Hr' as [Hne Hr'].
      rewrite (Ho' r' Hr'). cbn [heap set_heap]. now apply Ho.
Qed.

(** [WAITING] is a [set], and [SendAll] hands the packet to the waiters in
    the order the set holds them in.  The order makes no difference: every
    waiter takes the packet for itself, and a packet without a transaction
    number is refused by the first waiter, whichever it is. *)
Lemma SendAll_to_heap (rs : list Ref) (ev : Packet) (xv : Value)
    (s : State Obj) :
  NoDup rs -> Forall (fun r => is_Some (heap s !! r)) rs ->
  get ev "xid" = Ok xv ->
  exists h,
    SendAll_to py_eq rs ev s = (Ok tt, set_heap h s)
    /\ forall r,
         h !! r = if bool_decide (r ∈ rs)
                  then accepted xv ev <$> heap s !! r
                  else heap s !! r.
Proof.
  intros Hnd Hrs Hx. revert s Hrs.
  induction Hnd as [|r rs Hr Hnd IH]; intros s Hrs; cbn [SendAll_to].
  - exists (heap s). destruct s. split; [reflexivity|]. intros r.
    rewrite bool_decide_eq_false_2; [reflexivity|apply not_elem_of_nil].
  - apply Forall_cons in Hrs as [[d Hd] Hrs].
    destruct (Accept_spec r ev xv d s Hd Hx) as (h & Ha & Hh & Ho).
    destruct (IH (set_heap h s)) as (h' & Hs & Hh').
    { eapply Forall_impl; [exact Hrs|]. intros r' Hr'. cbn [heap set_heap].
      destruct (decide (r' = r)) as [->|Hne]; [eauto|].
      now rewrite (Ho r' Hne). }
    exists h'. unfold bindM. rewrite Ha, Hs. split; [reflexivity|].
    intros r'. rewrite (Hh' r'). cbn [heap set_heap]. unfold Ref in *.
    destruct (decide (r' = r)) as [->|Hne].
    + rewrite (bool_decide_eq_false_2 _ Hr).
      rewrite bool_decide_eq_true_2 by (apply elem_of_cons; now left).
      rewrite Hh, Hd. reflexivity.
    + rewrite (Ho r' Hne).
      rewrite (bool_decide_ext (r' ∈ r :: rs) (r' ∈ rs));
        [reflexivity|rewrite elem_of_cons; tauto].
Qed.

Lemma SendAll_to_unnumbered (r : Ref) (rs : list Ref) (ev : Packet)
    (e : PyExc) (s : State Obj) :
  is_Some (heap s !! r) -> get ev "xid" = Raise e ->
  SendAll_to py_eq (r :: rs) ev s = (Raise e, s).
Proof.
  intros [d Hd] Hx. cbn [SendAll_to].
  unfold bindM, Accept, bindM, deref, lift, filt. unfold Ref in *.
  now rewrite Hd, Hx.
Qed.

Lemma SendAll_to_any_order (rs rs' : list Ref) (ev : Packet)
    (s : State Obj) :
  rs ≡ₚ rs' -> NoDup rs -> Forall (fun r => is_Some (heap s !! r)) rs ->
  SendAll_to py_eq rs ev s = SendAll_to py_eq rs' ev s.
Proof.
  intros HP Hnd Hrs.
  assert (Hnd' : NoDup rs') by now rewrite <- HP.
  assert (Hrs' : Forall (fun r => is_Some (heap s !! r)) rs')
    by now rewrite <- HP.
  destruct (get ev "xid") as [xv|e] eqn:Hx.
  - destruct (SendAll_to_heap rs ev xv s Hnd Hrs Hx) as (h & -> & Hh).
    destruct (SendAll_to_heap rs' ev xv s Hnd' Hrs' Hx) as (h' & -> & Hh').
    f_equal. f_equal. apply list_eq. intros r. rewrite Hh, Hh'.
    apply (f_equal (fun c : bool =>
                      if c then accepted xv ev <$> heap s !! r
                      else heap s !! r)).
    apply bool_decide_ext. now rewrite HP.
  - destruct rs as [|r rs], rs' as [|r' rs'].
    + reflexivity.
    + now apply Permutation_nil_cons in HP.
    + symmetry in HP. now apply Permutation_nil_cons in HP.
    + apply Forall_cons in Hrs as [Hr _]. apply Forall_cons in Hrs' as [Hr' _].
      rewrite (SendAll_to_unnumbered r rs ev e s Hr Hx).
      now rewrite (SendAll_to_unnumbered r' rs' ev e s Hr' Hx).
Qed.

Lemma SendAll_to_app (l1 l2 : list Ref) (ev : Packet) (s : State Obj) :
  SendAll_to py_eq (l1 ++ l2) ev s
  = bindM (SendAll_to py_eq l1 ev) (fun _ => SendAll_to py_eq l2 ev) s.
Proof.
  revert s. induction l1 as [|r l1 IH]; intros s; cbn [app SendAll_to].
  - reflexivity.
  - unfold bindM. destruct (Accept py_eq r ev s) as [[[]|e] s1].
    + rewrite IH. reflexivity.
    + reflexivity.
Qed.

Lemma Process_hit (r : Ref) (d : DeferredResult) (obj : Packet)
    (s : State Obj) :
  heap s !! r = Some d -> queue d = [obj] -> filt py_eq d obj = Ok true ->
  Process py_eq r s
  = (Ok (Some obj),
     set_WAITING (filter (fun r' => r' <> r) (WAITING s))
       (set_heap (alter (fun d => mkDeferredResult (onwait d) [] (xid d)
                                    (result d) (ready d)) r (heap s)) s)).
Proof.
  intros Hr Hq Hf. unfold Process, bindM, deref. unfold Ref in *.
  rewrite Hr, Hq. cbn [length Process_loop]. unfold bindM, deref.
  unfold Ref in *. rewrite Hr, Hq. unfold update, modify, lift.
  now rewrite Hf.
Qed.

Lemma filter_fresh (l : list Ref) (r : Ref) :
  r ∉ l -> filter (fun r' => r' <> r) (l ++ [r]) = l.
Proof.
  induction l as [|x l IH]; intros Hr; cbn [app].
  - rewrite filter_cons_False by tauto. reflexivity.
  - apply not_elem_of_cons in Hr as [Hne Hr].
    rewrite filter_cons_True by congruence. now rewrite IH.
Qed.

(** The state of a thread [act] that waits: it is the last of [WAITING],
    behind the deferreds [W], which are objects of the heap, and its
    deferred is [d]. *)
Definition waits (W : list Ref) (act : Ref) (d : DeferredResult)
    (s : State Obj) : Prop :=
  WAITING s = W ++ [act] /\ (act ∉ W)
  /\ Forall (fun r => is_Some (heap s !! r)) W
  /\ heap s !! act = Some d.

Lemma waits_set_heap (W : list Ref) (act : Ref) (d d' : DeferredResult)
    (h : list DeferredResult) (s : State Obj) :
  waits W act d s ->
  (forall r, r <> act -> is_Some (heap s !! r) -> is_Some (h !! r)) ->
  h !! act = Some d' ->
  waits W act d' (set_heap h s).
Proof.
  intros (Hw & Hf & Hv & _) Hk Hd. repeat split; try assumption.
  cbn [heap set_heap]. rewrite Forall_forall in Hv |- *. intros r Hr.
  apply Hk; [|now apply Hv]. intros ->. now apply Hf.
Qed.

Lemma SendAll_elsewhere (W : list Ref) (act : Ref) (d : DeferredResult)
    (ev : Packet) (s : State Obj) :
  waits W act d s -> elsewhere py_eq (xid d) ev ->
  exists h,
    SendAll py_eq ev s = (Ok tt, set_heap h s)
    /\ h !! act = Some (mkDeferredResult (onwait d) (queue d ++ [ev]) (xid d)
                          (result d) (ready d))
    /\ forall r, is_Some (heap s !! r) -> is_Some (h !! r).
Proof.
  intros (Hw & Hf & Hv & Hd) (xv & Hx & Hm).
  destruct (SendAll_to_spec W ev xv s Hv Hx) as (h1 & Hs1 & Hk1 & Ho1).
  destruct (Accept_spec act ev xv d (set_heap h1 s)) as (h2 & Ha & Hh2 & Ho2);
    [|exact Hx|].
  { cbn [heap set_heap]. now rewrite (Ho1 act Hf). }
  exists h2. split; [|split].
  - unfold SendAll, bindM at 1, gets. rewrite Hw, SendAll_to_app.
    unfold bindM. rewrite Hs1. cbn [SendAll_to]. unfold bindM.
    rewrite Ha. reflexivity.
  - rewrite Hh2. unfold accepted. now rewrite Hm.
  - intros r Hr. destruct (decide (r = act)) as [->|Hne].
    + eexists. exact Hh2.
    + destruct (Hk1 r Hr) as [d' Hd']. exists d'. rewrite <- Hd'.
      now apply Ho2.
Qed.

Lemma deliver_elsewhere (W : list Ref) (act : Ref) (batch : list Packet) :
  forall (d : DeferredResult) (s : State Obj),
    waits W act d s -> Forall (elsewhere py_eq (xid d)) batch ->
    exists h,
      deliver py_eq batch s = (Ok tt, set_heap h s)
      /\ h !! act = Some (mkDeferredResult (onwait d) (queue d ++ batch)
                            (xid d) (result d) (ready d))
      /\ forall r, is_Some (heap s !! r) -> is_Some (h !! r).
Proof.
  induction batch as [|ev batch IH]; intros d s Hw Hb; cbn [deliver].
  - exists (heap s). split; [now destruct s|]. split; [|auto].
    rewrite app_nil_r. destruct Hw as (_ & _ & _ & ->). now destruct d.
  - apply Forall_cons in Hb as [Hev Hb].
    destruct (SendAll_elsewhere W act d ev s Hw Hev) as (h & Hs & Hh & Hk).
    destruct (IH _ (set_heap h s)
                (waits_set_heap W act d _ h s Hw (fun r _ => Hk r) Hh) Hb)
      as (h' & Hs' & Hh' & Hk').
    exists h'. unfold bindM. rewrite Hs, Hs'. split; [reflexivity|]. split.
    + rewrite Hh'. cbn [onwait queue xid result ready].
      now rewrite <- app_assoc.
    + intros r Hr. apply Hk'. cbn [heap set_heap]. now apply Hk.
Qed.

Lemma Process_loop_elsewhere (act : Ref) (q : list Packet) :
  forall (d : DeferredResult) (s : State Obj),
    heap s !! act = Some d -> queue d = q ->
    Forall (elsewhere py_eq (xid d)) q ->
    exists h,
      Process_loop py_eq (length q) act s = (Ok None, set_heap h s)
      /\ h !! act = Some (mkDeferredResult (onwait d) [] (xid d) (result d)
                            (ready d))
      /\ forall r, r <> act -> h !! r = heap s !! r.
Proof.
  induction q as [|obj q IH]; intros d s Hd Hq Hm; cbn [length Process_loop].
  - exists (heap s). split; [now destruct s|]. split; [|auto].
    rewrite Hd. destruct d. cbn in Hq. now subst.
  - apply Forall_cons in Hm as [(xv & Hx & Hne) Hm].
    unfold bindM at 1, deref at 1. unfold Ref in *. rewrite Hd, Hq.
    unfold bindM at 1, update at 1, modify at 1.
    unfold bindM at 1, lift at 1, filt. rewrite Hx. cbn [bind]. rewrite Hne.
    set (d' := mkDeferredResult (onwait d) q (xid d) (result d) (ready d)).
    destruct (IH d' (set_heap
                       (alter (fun d0 => mkDeferredResult (onwait d0) q (xid d0)
                                           (result d0) (ready d0)) act (heap s))
                       s)) as (h & Hs & Hh & Ho).
    + cbn [heap set_heap]. now rewrite list_lookup_alter_eq, Hd.
    + reflexivity.
    + exact Hm.
    + exists h. split; [exact Hs|]. split; [exact Hh|].
      intros r Hr. rewrite (Ho r Hr). cbn [heap set_heap].
      now rewrite list_lookup_alter_ne by congruence.
Qed.

Lemma Wait_loop_elsewhere (W : list Ref) (act : Ref)
    (arrivals : list (list Packet)) :
  forall (d : DeferredResult) (s : State Obj),
    waits W act d s -> queue d = [] ->
    Forall (Forall (elsewhere py_eq (xid d))) arrivals ->
    exists s',
      Wait_loop py_eq act arrivals s = (Ok None, s')
      /\ sent s' = sent s /\ WAITING s' = WAITING s
      /\ outstanding s' = outstanding s.
Proof.
  induction arrivals as [|batch arrivals IH]; intros d s Hw Hq Ha;
    cbn [Wait_loop].
  - exists s. repeat split.
  - apply Forall_cons in Ha as [Hb Ha].
    unfold bindM at 1, modify at 1.
    assert (Hwb : waits W act d (emit (EvBlock act) s)) by exact Hw.
    destruct (deliver_elsewhere W act batch d _ Hwb Hb) as (h & Hs & Hh & Hk).
    unfold bindM at 1. rewrite Hs. rewrite Hq in Hh. cbn [app] in Hh.
    destruct (Process_loop_elsewhere act batch _
                (set_heap h (emit (EvBlock act) s)) Hh eq_refl Hb)
      as (h' & Hp & Hh' & Ho').
    unfold bindM at 1, Process, bindM at 1, deref. cbn [heap set_heap].
    unfold Ref in *. rewrite Hh. cbn [queue]. rewrite Hp.
    cbn [onwait xid result ready] in Hh'.
    destruct (IH (mkDeferredResult (onwait d) [] (xid d) (result d) (ready d))
                (set_heap h' (emit (EvBlock act) s)))
      as (s' & HW & H1 & H2 & H3).
    + apply (waits_set_heap W act d _ h' _ Hwb); [|exact Hh'].
      intros r Hne Hr. destruct (Hk r Hr) as [d' Hd']. exists d'.
      rewrite <- Hd'. apply (Ho' r Hne).
    + reflexivity.
    + exact Ha.
    + exists s'. split; [exact HW|]. split; [|split].
      * rewrite H1. unfold sent. cbn [events set_heap emit].
        rewrite flat_map_app. cbn. now rewrite app_nil_r.
      * rewrite H2. reflexivity.
      * rewrite H3. reflexivity.
Qed.


(** X21.  A handle read by the service that wrote it is the object itself:
    [Serialize] tracks the object before it writes its id and the address of
    the service, and [Deserialize] finds the address to be its own and the
    id in [omap]. *)
Theorem handle_roundtrip (obj : Obj) (items : list Value) (bs rest : bytes)
    (s s1 : State Obj) :
  addr s = VSeq KTuple items ->
  wf (addr s) = true -> order_free (addr s) = true ->
  platform_errors (addr s) = true ->
  constructs py_eq set_order py_lt construct (addr s) ->
  py_eq (addr s) (addr s) = true ->
  ObjectTranslator_Serialize id py_lt sorted_partial obj s = (Ok bs, s1) ->
  ObjectTranslator_Deserialize py_eq set_order codec_table construct (bs ++ rest) s1
  = (Ok (Local obj, rest), s1)
  /\ omap s1 = <[id obj := obj]> (omap s).
Proof.
  intros Ha Hwf Hof Hpe Hc He H.
  unfold ObjectTranslator_Serialize, bindM, modify, lift, gets in H.
  destruct (LongSerializer_Serialize (id obj)) as [b1|e] eqn:E1;
    [|discriminate].
  cbn [addr set_omap] in H. rewrite Ha in H.
  destruct (SequenceSerializer_Serialize py_lt sorted_partial KTuple items)
    as [b2|e] eqn:E2; [|discriminate].
  injection H as <- <-. split; [|reflexivity]. rewrite <- app_assoc.
  rewrite (ObjectTranslator_Deserialize_parsed Obj py_eq set_order
             codec_table construct (b1 ++ b2 ++ rest) (b2 ++ rest) rest (id obj)
             (VSeq KTuple items) items).
  - unfold resolve. cbn [addr omap set_omap]. rewrite <- Ha, He.
    now rewrite lookup_insert_eq.
  - now apply Long_rt.
  - unfold SequenceSerializer_Deserialize.
    rewrite (Sequence_rt py_eq set_order (Serialize py_lt sorted_partial)
               (Deserialize_stream py_eq set_order codec_table construct)
               (decoded py_eq set_order py_lt) KTuple items b2 rest)
      with (2 := E2).
    + rewrite Ha in Hof, Hpe.
      pose proof (decoded_id py_eq set_order py_lt _ Hof Hpe) as E.
      simpl in E.
      injection E as E. now rewrite E.
    + apply Forall_forall. intros x Hx bx rest' Hbx.
      apply (Deserialize_stream_Serialize py_eq set_order py_lt
               sorted_partial codec_table construct x bx rest');
        [| |exact Hbx].
      * rewrite Ha in Hwf. simpl in Hwf. apply andb_prop in Hwf as [Hwf _].
        apply andb_prop in Hwf as [_ Hwf]. eapply forallb_elem; eauto.
      * rewrite Ha in Hc.
        now apply (constructs_item py_eq set_order py_lt sorted_partial
                     construct x items).
  - reflexivity.
Qed.
End Waiting.

Lemma large_xid_not_sent_witness :
  exists act s1 e,
    SendPacket Examples.peer (Some CMD.LIST) ∅ Examples.worn = (Ok act, s1)
    /\ outstanding s1 !! XID Examples.worn = Some act
    /\ fst (DeferredResult_Wait Sample.py_eq Sample.py_lt
               Sample.sorted_partial act [] s1) = Raise e
    /\ sent (snd (DeferredResult_Wait Sample.py_eq Sample.py_lt
                     Sample.sorted_partial act [] s1))
       = sent Examples.worn.
Proof.
  apply (large_xid_not_sent Z Sample.py_eq Sample.py_lt
           Sample.sorted_partial Examples.peer (Some CMD.LIST) ∅ [] Examples.worn).
  cbn. lia.
Defined.


(** The handle of the object 7, written and read by the sample service. *)
Lemma handle_roundtrip_witness :
  ObjectTranslator_Deserialize Sample.py_eq Sample.set_order Sample.codec_table
    Sample.construct
    (Sample.written
       (fst (ObjectTranslator_Serialize (fun obj : Z => obj) Sample.py_lt
               Sample.sorted_partial 7 Sample.service)) ++ [])
    Sample.service
  = (Ok (Local 7, []), Sample.service)
  /\ omap Sample.service = <[7 := 7]> (omap Sample.service).
Proof.
  apply (handle_roundtrip Z (fun obj : Z => obj) Sample.py_eq
           Sample.set_order Sample.py_lt Sample.sorted_partial
           Sample.codec_table Sample.construct 7 Sample.own_addr
           (Sample.written
              (fst (ObjectTranslator_Serialize (fun obj : Z => obj)
                      Sample.py_lt Sample.sorted_partial 7 Sample.service)))
           [] Sample.service Sample.service).
  - reflexivity.
  - reflexivity.
  - reflexivity.
  - reflexivity.
  - exact (conj I (conj I I)).
  - reflexivity.
  - vm_compute. reflexivity.
Defined.


(** ** The reader thread *)

Section Reader.
Variable Obj : Type.
Variable py_eq : Value -> Value -> bool.
Variable set_order : list Value -> list Value.
Variable py_lt : Value -> Value -> bool.
Variable sorted_partial : list Value -> Result (list nat).
Variable codec_table : bytes -> option (bytes -> Result (list Z)).
Variable construct : bytes -> list Value -> Result Value.
Variable unicode_keywords : list (Value * Value) -> Result (gmap string Value).
Variable pubmap_keys : gmap string Z -> list string.
Variable reply_with_object : Packet -> Obj -> Client -> M Obj unit.
Variable cmd_PULL : Packet -> Client -> M Obj unit.
Variable handle_turn : bytes -> Client -> M Obj unit.

Lemma GetClient_Ok (a : Value) (s : State Obj) :
  hashable a = true ->
  exists cli s1,
    GetClient py_eq a s = (Ok cli, s1)
    /\ events s1 = events s
    /\ (dict_lookup py_eq (clients s) a = None ->
        cli = mkClient a /\ s1 = set_clients (clients s ++ [(a, cli)]) s)
    /\ (py_eq a a = true -> dict_lookup py_eq (clients s1) a = Some cli).
Proof.
  intros Hh. unfold GetClient. rewrite Hh.
  destruct (dict_lookup py_eq (clients s) a) as [cli|] eqn:E;
    eexists; eexists; (split; [reflexivity|]); split; try reflexivity.
  - split; [discriminate|]. now intros _.
  - split; [now intros _|]. intros Ha. cbn [clients set_clients].
    now apply dict_lookup_new.
Qed.


Lemma Has_init (c : Z) (kw : gmap string Value) (attr : string) :
  Has (Packet___init__ c kw) [attr] = bool_decide (is_Some (kw !! attr)).
Proof. apply Has_one. Qed.

Lemma Has_init_None (c : Z) (kw : gmap string Value) (attr : string) :
  kw !! attr = None -> Has (Packet___init__ c kw) [attr] = false.
Proof.
  intros H. rewrite Has_init, H. apply bool_decide_eq_false_2.
  now intros [? ?].
Qed.

(** What [run] does with a datagram that is a request. *)
Lemma run_turn_request (t : byte) (body : bytes) (kw : gmap string Value)
    (src : Value) (s s1 : State Obj) (cli : Client) :
  bind (Deserialize_in_service py_eq set_order codec_table construct body)
    (keywords unicode_keywords) = Ok kw ->
  kw !! "result"%string = None -> kw !! "error"%string = None ->
  GetClient py_eq src s = (Ok cli, s1) ->
  run_turn py_eq set_order py_lt sorted_partial codec_table construct
          unicode_keywords pubmap_keys reply_with_object cmd_PULL handle_turn
          (t :: body) src s
  = bindM (lift (CMD_NAMES (Z_of_byte t)))
      (fun name => cmd_handler py_eq py_lt sorted_partial pubmap_keys reply_with_object
       cmd_PULL name
                     (Packet___init__ (Z_of_byte t) kw) cli) s1.
Proof.
  intros Hkw Hr He HG. unfold run_turn, bindM at 1. rewrite HG.
  unfold Packet_FromStr_served, Packet_FromStr_with. rewrite Hkw.
  rewrite !Has_init_None by assumption.
  reflexivity.
Qed.

Lemma CMD_NAMES_unknown (c : Z) : 6 <= c -> CMD_NAMES c = Raise KeyError.
Proof.
  intros H. unfold CMD_NAMES, CMD.members. cbn [find snd].
  unfold CMD.SYNC, CMD.DESYNC, CMD.PULL, CMD.RESOLVE, CMD.LIST, CMD.PUSH.
  rewrite !(proj2 (Z.eqb_neq _ c)) by lia. reflexivity.
Qed.

Lemma dispatch_PUSH :
  CMD_NAMES CMD.PUSH = Ok "PUSH"%string
  /\ cmd_handler py_eq py_lt sorted_partial pubmap_keys reply_with_object
       cmd_PULL "PUSH"
     = cmd_Unknown py_lt sorted_partial.
Proof. split; reflexivity. Qed.

Lemma dispatch_SYNC :
  CMD_NAMES CMD.SYNC = Ok "SYNC"%string
  /\ cmd_handler py_eq py_lt sorted_partial pubmap_keys reply_with_object
       cmd_PULL "SYNC"
     = cmd_SYNC py_eq py_lt sorted_partial.
Proof. split; reflexivity. Qed.

Lemma dispatch_DESYNC :
  CMD_NAMES CMD.DESYNC = Ok "DESYNC"%string
  /\ cmd_handler py_eq py_lt sorted_partial pubmap_keys reply_with_object
       cmd_PULL "DESYNC"
     = cmd_DESYNC py_eq.
Proof. split; reflexivity. Qed.



Lemma dict_remove_new {V} (d : list (Value * V)) (a : Value) (c : V) :
  dict_lookup py_eq d a = None -> py_eq a a = true ->
  dict_remove py_eq (d ++ [(a, c)]) a = Some d.
Proof.
  intros Hd Ha. induction d as [|[k v] d IH]; cbn in *.
  - now rewrite Ha.
  - destruct (py_eq k a); [discriminate|]. now rewrite IH.
Qed.

Lemma dict_remove_known {V} (d : list (Value * V)) (a : Value) (c : V) :
  dict_lookup py_eq d a = Some c ->
  exists d', dict_remove py_eq d a = Some d'
             /\ length d = S (length d').
Proof.
  induction d as [|[k v] d IH]; cbn; [discriminate|].
  destruct (py_eq k a); [eauto|].
  intros H. destruct (IH H) as (d' & -> & Hl). cbn. eexists.
  split; [reflexivity|]. cbn. now rewrite Hl.
Qed.

Lemma set_clients_same (s : State Obj) : set_clients (clients s) s = s.
Proof. now destruct s. Qed.

End Reader.





End ServeFacts.
